(** * Fast Track Job Processor: the asynchronous job lifecycle

    A shallow embedding of the backend of the job processor (job model,
    request schemas, repository, job service, controller and mock queue)
    together with the properties of the job lifecycle that the
    specification states about it.

    Conventions of the embedding.
    - A JavaScript string is the list of its UTF-16 code units.
    - A JavaScript number is an IEEE-754 binary64 value ([spec_float] with
      precision 53 and maximal exponent 1024); arithmetic is [SFadd] and
      [SFmul] at that format.
    - [undefined] and [null] are [None] where only one of them can occur; a
      parameter that admits both is an [option (option _)].
    - An [async] method is a function on the explicit state it reads and
      writes; a rejected promise is the outcome [Threw].
    - The MongoDB collection behind the mongoose model is a finite map from
      ObjectIds to documents.  A string of a request is cast to an ObjectId
      before the collection is asked, and the cast can fail; a text that is
      written to the collection is encoded as UTF-8, so what is read back
      has U+FFFD where the text had a surrogate without its partner. *)

From Stdlib Require Import ZArith NArith List Bool Ascii String SpecFloat Lia.
From stdpp Require Import base option list gmap sets sorting.
Import ListNotations.

Local Open Scope Z_scope.

(** ** JavaScript values *)

Module js.

(** UTF-16 code units. *)
Definition JsString : Type := list N.

(** The code units of an ASCII literal. *)
Definition cu (s : string) : JsString :=
  List.map N_of_ascii (list_ascii_of_string s).

(** U+0022, the double quote. *)
Definition dquote : JsString := [34%N].

(** Truthiness of a string: every string but the empty one. *)
Definition truthy (s : JsString) : bool :=
  match s with [] => false | _ :: _ => true end.

(** Truthiness of [string | undefined] and of [string | null]. *)
Definition truthy_opt (o : option JsString) : bool :=
  match o with Some s => truthy s | None => false end.

(** [x || null] for [x : string | undefined]. *)
Definition or_null (o : option JsString) : option JsString :=
  if truthy_opt o then o else None.

(** WhiteSpace and LineTerminator code units, the ones that
    [String.prototype.trim] strips. *)
Definition isWhiteSpace (c : N) : bool :=
  ((9 <=? c)%N && (c <=? 13)%N)
  || (c =? 32)%N || (c =? 160)%N || (c =? 5760)%N
  || ((8192 <=? c)%N && (c <=? 8202)%N)
  || (c =? 8232)%N || (c =? 8233)%N || (c =? 8239)%N
  || (c =? 8287)%N || (c =? 12288)%N || (c =? 65279)%N.

Fixpoint trimStart (s : JsString) : JsString :=
  match s with
  | [] => []
  | c :: s' => if isWhiteSpace c then trimStart s' else s
  end.

Definition trimEnd (s : JsString) : JsString :=
  rev (trimStart (rev s)).

Definition trim (s : JsString) : JsString := trimEnd (trimStart s).

(** [s.length] *)
Definition length (s : JsString) : Z := Z.of_nat (List.length s).

(** The two halves of a surrogate pair. *)
Definition isHighSurrogate (c : N) : bool := (55296 <=? c)%N && (c <=? 56319)%N.
Definition isLowSurrogate (c : N) : bool := (56320 <=? c)%N && (c <=? 57343)%N.

(** U+FFFD, the replacement character. *)
Definition replacement : N := 65533%N.

(** [String.prototype.toWellFormed]: every surrogate that is not half of a
    pair becomes U+FFFD.  This is also what is left of a string that has
    been encoded as UTF-8 and decoded again. *)
Fixpoint toWellFormed (s : JsString) : JsString :=
  match s with
  | [] => []
  | c :: s' =>
      if isHighSurrogate c then
        match s' with
        | d :: s'' =>
            if isLowSurrogate d then c :: d :: toWellFormed s''
            else replacement :: toWellFormed s'
        | [] => [replacement]
        end
      else if isLowSurrogate c then replacement :: toWellFormed s'
      else c :: toWellFormed s'
  end.

(** [s.isWellFormed()] *)
Definition isWellFormed (s : JsString) : bool :=
  bool_decide (toWellFormed s = s).

(** Numbers: binary64. *)
Definition Number : Type := spec_float.

Definition prec : Z := 53.
Definition emax : Z := 1024.

Definition add : Number -> Number -> Number := SFadd prec emax.
Definition mul : Number -> Number -> Number := SFmul prec emax.

(** The number denoted by an integer literal or an integer result. *)
Definition of_Z (z : Z) : Number := binary_normalize prec emax z 0 false.

(** Truthiness of a number: every number but [0], [-0] and [NaN]. *)
Definition truthy_num (x : Number) : bool :=
  match x with
  | S754_zero _ | S754_nan => false
  | S754_infinity _ | S754_finite _ _ _ => true
  end.

(** [x || 0] for [x : number | undefined]. *)
Definition or_zero (o : option Number) : Number :=
  match o with
  | Some x => if truthy_num x then x else of_Z 0
  | None => of_Z 0
  end.

(** The literal [0.00002]: the binary64 value nearest to 2/100000,
    [0x1.4f8b588e368f1p-16]. *)
Definition lit_0_00002 : Number :=
  S754_finite false 5902958103587057 (-68).

(** What a [throw] carries: an [ApiError] with its status code, another
    [Error] instance with its name and message, or any other value. *)
Inductive Thrown : Type :=
| ApiError (statusCode : Z) (message : JsString)
| ErrorObj (name : JsString) (message : JsString)
| NonError.

(** [new Error(message)] *)
Definition new_Error (message : JsString) : Thrown :=
  ErrorObj (cu "Error") message.

(** How a call ends. *)
Inductive Outcome (A : Type) : Type :=
| Returned (a : A)
| Threw (e : Thrown).
Arguments Returned {A} a.
Arguments Threw {A} e.

End js.

Abbreviation JsString := js.JsString.

(** ** Effects: state passing with exceptions

    [Eff S A] is a computation that reads and writes a state [S] and either
    returns an [A] or throws.  An [await] of a promise is the bind of this
    monad; a rejected promise is [Threw]. *)

Module eff.
Import js.

Definition Eff (S A : Type) : Type := S -> Outcome A * S.

Definition ret {S A} (a : A) : Eff S A := fun s => (Returned a, s).

Definition bind {S A B} (m : Eff S A) (k : A -> Eff S B) : Eff S B :=
  fun s =>
    match m s with
    | (Returned a, s') => k a s'
    | (Threw e, s') => (Threw e, s')
    end.

Definition throw {S A} (e : Thrown) : Eff S A := fun s => (Threw e, s).

(** [try { body } catch (e) { handler e }] *)
Definition try_catch {S A} (body : Eff S A) (handler : Thrown -> Eff S A)
  : Eff S A :=
  fun s =>
    match body s with
    | (Returned a, s') => (Returned a, s')
    | (Threw e, s') => handler e s'
    end.

Definition get {S} : Eff S S := fun s => (Returned s, s).
Definition modify {S} (f : S -> S) : Eff S unit := fun s => (Returned tt, f s).

End eff.

#[global] Instance Eff_ret {S} : MRet (eff.Eff S) := @eff.ret S.
#[global] Instance Eff_bind {S} : MBind (eff.Eff S) :=
  fun A B k m => eff.bind m k.

(** ** ObjectIds (the [bson] package, and the cast that mongoose applies to
    the [_id] of a query) *)

Module bson.
Import js.

Definition isDigit (c : N) : bool := (48 <=? c)%N && (c <=? 57)%N.
Definition isLowerHex (c : N) : bool := (97 <=? c)%N && (c <=? 102)%N.
Definition isUpperHex (c : N) : bool := (65 <=? c)%N && (c <=? 70)%N.

(** A hexadecimal digit in lower case; any other code unit as it is. *)
Definition toLowerHex (c : N) : N := if isUpperHex c then (c + 32)%N else c.

(** The hexadecimal form of 12 bytes: 24 digits, letters in lower case. *)
Definition isHexString (s : JsString) : bool :=
  (List.length s =? 24)%nat
  && forallb (fun c => isDigit c || isLowerHex c) s.

(** An ObjectId is 12 bytes; it is held here as its hexadecimal form, the
    text that [toString] and [toHexString] give. *)
Definition ObjectId : Type := dsig (fun s => isHexString s = true).

Definition toString (id : ObjectId) : JsString := `id.

(** The cast of the string [_id] of a query to an ObjectId, which the
    library applies before the collection is asked.  [None] is the cast
    that fails; the query then rejects with a [CastError], whose message
    is [castErrorMessage] of the string.  24 hexadecimal digits, in either
    case, are the ObjectId they spell; which other strings the cast
    takes differs between versions of the library and is left open.  *)
Class ObjectIdCast : Type := {
  castObjectId : JsString -> option ObjectId;
  castErrorMessage : JsString -> JsString;
  cast_hex (s : JsString) (id : ObjectId) :
    List.map toLowerHex s = toString id -> castObjectId s = Some id;
}.

(** The cast that takes the 24 hexadecimal digits and nothing else. *)
Definition hex_cast (s : JsString) : option ObjectId :=
  match decide (isHexString (List.map toLowerHex s) = true) with
  | left p => Some (dexist (List.map toLowerHex s) p)
  | right _ => None
  end.

(** A message of the [CastError] of a query by [_id] on the model [Job],
    with the value between double quotes.  The wording is the library's
    and nothing below depends on it. *)
Definition hex_cast_message (value : JsString) : JsString :=
  cu "Cast to ObjectId failed for value " ++ dquote ++ value ++ dquote
    ++ cu " (type string) at path " ++ dquote ++ cu "_id" ++ dquote
    ++ cu " for model " ++ dquote ++ cu "Job" ++ dquote.

(** A library whose cast takes the 24 hexadecimal digits only. *)
Definition hex_only : ObjectIdCast.
Proof.
  refine {| castObjectId := hex_cast; castErrorMessage := hex_cast_message |}.
  intros s [t p]. unfold toString, hex_cast. cbn [proj1_sig]. intros Heq.
  destruct (decide (isHexString (List.map toLowerHex s) = true)) as [q|n].
  - f_equal. apply dsig_eq. exact Heq.
  - exfalso. apply n. rewrite Heq. exact (bool_decide_unpack _ p).
Defined.

End bson.

(** ** models/job.model.ts *)

Module job_model.
Import js bson.

Inductive JobStatusType : Type := PENDING | COMPLETED | FAILED.

#[global] Instance JobStatusType_eq_dec : EqDecision JobStatusType.
Proof. solve_decision. Defined.

(** Terminal statuses. *)
Definition terminal (s : JobStatusType) : bool :=
  match s with PENDING => false | COMPLETED | FAILED => true end.

Record JobMetadata : Type := mkJobMetadata {
  promptTokens : option Number;
  completionTokens : option Number;
  totalTokens : option Number;
  estimatedCost : option Number;
}.

Record IJob : Type := mkIJob {
  _id : ObjectId;
  prompt : JsString;
  status : JobStatusType;
  result : option JsString;
  error : option JsString;
  createdAt : Z;
  updatedAt : Z;
  metadata : JobMetadata;
}.

(** [metadata.default]: the empty object. *)
Definition default_metadata : JobMetadata :=
  {| promptTokens := None; completionTokens := None;
     totalTokens := None; estimatedCost := None |}.

Inductive SchemaError : Type :=
| PromptRequired
| PromptTooLong.

Definition schema_error_message (e : SchemaError) : JsString :=
  match e with
  | PromptRequired => cu "Prompt is required"
  | PromptTooLong => cu "Prompt cannot exceed 10000 characters"
  end.

(** [new Job({ prompt })] followed by the validation that [save] runs,
    by the rules of [jobSchema]: the [trim] setter is applied to
    [prompt] when the document is built; [required] refuses the empty
    string; [maxlength] bounds the trimmed text; [status], [result],
    [error] and [metadata] take their defaults; [timestamps] sets both
    dates.  [oid] is the ObjectId the document is given and [now] the
    time of the save. *)
Definition new_Job (oid : ObjectId) (now : Z) (prompt0 : JsString)
  : SchemaError + IJob :=
  let p := trim prompt0 in
  if negb (truthy p) then inl PromptRequired
  else if 10000 <? length p then inl PromptTooLong
  else inr {| _id := oid; prompt := p; status := PENDING;
              result := None; error := None;
              createdAt := now; updatedAt := now;
              metadata := default_metadata |}.

End job_model.

(** ** schemas/job.schema.ts *)

Module job_schema.
Import js.

(** A JSON value of a request body. *)
#[warnings="-register-all"] Inductive Json : Type :=
| JNull
| JBool (b : bool)
| JNum (x : Number)
| JStr (s : JsString)
| JArr (items : list Json)
| JObj (fields : list (JsString * Json)).

Inductive Key : Type := KPrompt | KJobId | KResult | KError.

Inductive ZodIssue : Type :=
| InvalidType (path : Key)
| TooSmall (path : Key) (message : JsString)
| TooBig (path : Key) (message : JsString)
| Custom (message : JsString).

Inductive SafeParse (A : Type) : Type :=
| ParseSuccess (data : A)
| ParseFailure (issues : list ZodIssue).
Arguments ParseSuccess {A} data.
Arguments ParseFailure {A} issues.

(** How the parse of one key ends: a value, a value with issues (the
    checks [min] and [max] report and go on), or no value (a type
    mismatch aborts). *)
Inductive Field (A : Type) : Type :=
| Valid (a : A)
| Dirty (a : A) (issues : list ZodIssue)
| Aborted (issues : list ZodIssue).
Arguments Valid {A} a.
Arguments Dirty {A} a issues.
Arguments Aborted {A} issues.

Definition field_issues {A} (f : Field A) : list ZodIssue :=
  match f with Valid _ => [] | Dirty _ i => i | Aborted i => i end.

(** The value the refinement gets to see; an aborted key leaves none and
    the refinement is not run. *)
Definition field_value {A} (f : Field A) : option A :=
  match f with Valid a | Dirty a _ => Some a | Aborted _ => None end.

(** [z.string()] on a required key. *)
Definition z_string (k : Key) (v : option Json) : Field JsString :=
  match v with
  | Some (JStr s) => Valid s
  | _ => Aborted [InvalidType k]
  end.

(** [z.string().optional()]: [undefined] passes, anything else has to be
    a string. *)
Definition z_string_optional (k : Key) (v : option Json)
  : Field (option JsString) :=
  match v with
  | None => Valid None
  | Some (JStr s) => Valid (Some s)
  | Some _ => Aborted [InvalidType k]
  end.

(** [.min(n, message)] *)
Definition z_min (k : Key) (n : Z) (message : JsString)
    (f : Field JsString) : Field JsString :=
  match f with
  | Valid s => if length s <? n then Dirty s [TooSmall k message] else Valid s
  | Dirty s i =>
      if length s <? n then Dirty s (i ++ [TooSmall k message]) else Dirty s i
  | Aborted i => Aborted i
  end.

(** [.max(n, message)] *)
Definition z_max (k : Key) (n : Z) (message : JsString)
    (f : Field JsString) : Field JsString :=
  match f with
  | Valid s => if n <? length s then Dirty s [TooBig k message] else Valid s
  | Dirty s i =>
      if n <? length s then Dirty s (i ++ [TooBig k message]) else Dirty s i
  | Aborted i => Aborted i
  end.

(** The body of [POST /jobs]. *)
Record CreateJobBody : Type := mkCreateJobBody {
  body_prompt : option Json;
}.

Record CreateJobInput : Type := mkCreateJobInput {
  prompt : JsString;
}.

Definition createJobSchema (b : CreateJobBody) : SafeParse CreateJobInput :=
  match z_max KPrompt 10000 (cu "Prompt cannot exceed 10000 characters")
          (z_min KPrompt 1 (cu "Prompt cannot be empty")
             (z_string KPrompt (body_prompt b))) with
  | Valid s => ParseSuccess {| prompt := s |}
  | Dirty _ i | Aborted i => ParseFailure i
  end.

(** The body of [POST /webhook/callback] as the JSON parser delivers it.
    Keys the schema does not name are not read; [body_metadata] stands
    for the one such key the queue sends. *)
Record WebhookCallbackBody : Type := mkWebhookCallbackBody {
  body_jobId : option Json;
  body_result : option Json;
  body_error : option Json;
  body_metadata : option Json;
}.

Record WebhookCallbackInput : Type := mkWebhookCallbackInput {
  jobId : JsString;
  result : option JsString;
  error : option JsString;
}.

(** The predicate of [.refine]:
    [data.result !== undefined || data.error !== undefined]. *)
Definition refinement (data : WebhookCallbackInput) : bool :=
  bool_decide (result data <> None) || bool_decide (error data <> None).

Definition webhookCallbackSchema (b : WebhookCallbackBody)
  : SafeParse WebhookCallbackInput :=
  let fj := z_min KJobId 1 (cu "Job ID is required")
              (z_string KJobId (body_jobId b)) in
  let fr := z_string_optional KResult (body_result b) in
  let fe := z_string_optional KError (body_error b) in
  let refine_issue (d : WebhookCallbackInput) : list ZodIssue :=
    if refinement d then []
    else [Custom (cu "Either result or error must be provided")] in
  let issues := field_issues fj ++ field_issues fr ++ field_issues fe in
  match field_value fj, field_value fr, field_value fe with
  | Some j, Some r, Some e =>
      let d := {| jobId := j; result := r; error := e |} in
      match issues ++ refine_issue d with
      | [] => ParseSuccess d
      | i => ParseFailure i
      end
  | _, _, _ => ParseFailure issues
  end.

(** The names of the statuses, [JobStatus.PENDING] and the others. *)
Definition status_name (s : job_model.JobStatusType) : JsString :=
  match s with
  | job_model.PENDING => cu "PENDING"
  | job_model.COMPLETED => cu "COMPLETED"
  | job_model.FAILED => cu "FAILED"
  end.

Inductive QueryIssue : Type :=
| StatusInvalidType
| StatusInvalidEnumValue.

(** [jobStatusQuerySchema], on the value of the key [status] of the query:
    absent, or one of the three names. *)
Definition jobStatusQuerySchema (status : option Json)
  : QueryIssue + option job_model.JobStatusType :=
  match status with
  | None => inr None
  | Some (JStr s) =>
      if bool_decide (s = status_name job_model.PENDING)
      then inr (Some job_model.PENDING)
      else if bool_decide (s = status_name job_model.COMPLETED)
      then inr (Some job_model.COMPLETED)
      else if bool_decide (s = status_name job_model.FAILED)
      then inr (Some job_model.FAILED)
      else inl StatusInvalidEnumValue
  | Some _ => inl StatusInvalidType
  end.

End job_schema.

(** ** The state of the running application *)

Module app.
Import js bson job_model.

(** What the application does to the world outside a request: writes to
    the collection and submissions to the queue, oldest first. *)
Inductive Effect : Type :=
| DbInsert (doc : IJob)
| DbUpdate (doc : IJob)
| DbDelete (id : ObjectId)
| QueueEnqueue (id : JsString).

(** The collection of job documents, the state of the injected queue and
    the effects so far. *)
Record World (Q : Type) : Type := mkWorld {
  docs : gmap ObjectId IJob;
  jobQueue : Q;
  effects : list Effect;
}.
Arguments mkWorld {Q} docs jobQueue effects.
Arguments docs {Q} w.
Arguments jobQueue {Q} w.
Arguments effects {Q} w.

(** What the runtime supplies during one call: the clock, the ObjectId a
    new document gets, and the two draws of the callback handler,
    [Math.floor(Math.random() * 100)] and [Math.floor(Math.random() * 200)]
    ([Math.random] is below 1, so they are integers in [0, 100) and
    [0, 200)). *)
Record Ambient : Type := mkAmbient {
  now : Z;
  objectId : ObjectId;
  draw100 : Z;
  draw200 : Z;
}.

End app.

(** ** repositories/job.repository.ts *)

Module job_repository.
Import js eff bson job_model app.

(** A document as the collection holds it and gives it back: its texts
    have been through UTF-8. *)
Definition persisted (doc : IJob) : IJob :=
  {| _id := _id doc;
     prompt := toWellFormed (prompt doc);
     status := status doc;
     result := option_map toWellFormed (result doc);
     error := option_map toWellFormed (error doc);
     createdAt := createdAt doc;
     updatedAt := updatedAt doc;
     metadata := metadata doc |}.

Section repository.
Context {Q : Type} {cast : ObjectIdCast}.

(** [new Job({ prompt })] and [job.save()].  A document the schema refuses
    is a mongoose [ValidationError]; an identifier already in the
    collection is refused by the server.  [save] resolves to the document
    it was called on, so the caller gets the texts as they were given and
    the collection holds them as [persisted]. *)
Definition create (amb : Ambient) (prompt : JsString) : Eff (World Q) IJob :=
  fun w =>
    match new_Job (objectId amb) (now amb) prompt with
    | inl e =>
        (Threw (ErrorObj (cu "ValidationError")
                  (cu "Job validation failed: prompt: "
                     ++ schema_error_message e)), w)
    | inr job =>
        match docs w !! _id job with
        | Some _ =>
            (Threw (ErrorObj (cu "MongoServerError")
                      (cu "E11000 duplicate key error")), w)
        | None =>
            (Returned job,
             {| docs := <[_id job := persisted job]> (docs w);
                jobQueue := jobQueue w;
                effects := effects w ++ [DbInsert (persisted job)] |})
        end
    end.

(** What a query rejects with when its [_id] cannot be cast. *)
Definition CastError (value : JsString) : Thrown :=
  ErrorObj (cu "CastError") (castErrorMessage value).

(** [Job.findById(id)] *)
Definition findById (id : JsString) : Eff (World Q) (option IJob) :=
  fun w =>
    match castObjectId id with
    | None => (Threw (CastError id), w)
    | Some oid => (Returned (docs w !! oid), w)
    end.

(** [Partial<IJob>] as [updateStatus] fills it: a key is [None] while it
    is not set. *)
Record UpdateData : Type := mkUpdateData {
  set_status : option JobStatusType;
  set_result : option (option JsString);
  set_error : option (option JsString);
  set_metadata : option JobMetadata;
}.

(** [{ $set: updateData }] on one document; [timestamps] refreshes
    [updatedAt]. *)
Definition apply_set (u : UpdateData) (now : Z) (doc : IJob) : IJob :=
  {| _id := _id doc;
     prompt := prompt doc;
     status := default (status doc) (set_status u);
     result := default (result doc) (set_result u);
     error := default (error doc) (set_error u);
     createdAt := createdAt doc;
     updatedAt := now;
     metadata := default (metadata doc) (set_metadata u) |}.

(** The update as the server receives it: its texts have been through
    UTF-8. *)
Definition encoded (u : UpdateData) : UpdateData :=
  {| set_status := set_status u;
     set_result := option_map (option_map toWellFormed) (set_result u);
     set_error := option_map (option_map toWellFormed) (set_error u);
     set_metadata := set_metadata u |}.

(** [Job.findByIdAndUpdate(id, { $set: updateData }, { new: true })]:
    the answer is the document as the collection holds it after the
    update. *)
Definition findByIdAndUpdate (id : JsString) (u : UpdateData) (now : Z)
  : Eff (World Q) (option IJob) :=
  fun w =>
    match castObjectId id with
    | None => (Threw (CastError id), w)
    | Some oid =>
        match docs w !! oid with
        | None => (Returned None, w)
        | Some doc =>
            let doc' := apply_set (encoded u) now doc in
            (Returned (Some doc'),
             {| docs := <[oid := doc']> (docs w);
                jobQueue := jobQueue w;
                effects := effects w ++ [DbUpdate doc'] |})
        end
    end.

(** [updateStatus(id, status, result?, error?, metadata?)]; an argument
    that is [undefined] is [None]. *)
Definition updateStatus (amb : Ambient) (id : JsString)
    (status : JobStatusType)
    (result error : option (option JsString))
    (metadata : option JobMetadata) : Eff (World Q) (option IJob) :=
  let updateData :=
    {| set_status := Some status; set_result := None;
       set_error := None; set_metadata := None |} in
  let updateData :=
    match result with
    | Some r =>
        {| set_status := set_status updateData; set_result := Some r;
           set_error := set_error updateData;
           set_metadata := set_metadata updateData |}
    | None => updateData
    end in
  let updateData :=
    match error with
    | Some e =>
        {| set_status := set_status updateData;
           set_result := set_result updateData; set_error := Some e;
           set_metadata := set_metadata updateData |}
    | None => updateData
    end in
  let updateData :=
    match metadata with
    | Some m =>
        {| set_status := set_status updateData;
           set_result := set_result updateData;
           set_error := set_error updateData; set_metadata := Some m |}
    | None => updateData
    end in
  findByIdAndUpdate id updateData (now amb).

(** [delete(id)]: [Job.findByIdAndDelete(id)], then [result !== null]. *)
Definition delete (id : JsString) : Eff (World Q) bool :=
  fun w =>
    match castObjectId id with
    | None => (Threw (CastError id), w)
    | Some oid =>
        match docs w !! oid with
        | None => (Returned false, w)
        | Some _ =>
            (Returned true,
             {| docs := base.delete oid (docs w);
                jobQueue := jobQueue w;
                effects := effects w ++ [DbDelete oid] |})
        end
    end.

(** The order of [sort({ createdAt: -1 })]: [a] may come before [b]. *)
Definition newest_first (a b : IJob) : Prop := createdAt b <= createdAt a.

#[global] Instance newest_first_dec (a b : IJob) : Decision (newest_first a b) :=
  Z_le_dec (createdAt b) (createdAt a).

(** The filter of [findAll]: [status ? { status } : {}]. *)
Definition matches (status : option JobStatusType) (j : IJob) : Prop :=
  match status with
  | Some s => job_model.status j = s
  | None => True
  end.

#[global] Instance matches_dec (status : option JobStatusType) (j : IJob)
  : Decision (matches status j).
Proof. destruct status; cbn; apply _. Defined.

(** The documents of the collection, in the order the collection yields
    them. *)
Definition documents (w : World Q) : list IJob := (map_to_list (docs w)).*2.

(** [findAll(status?)]: [Job.find(query).sort({ createdAt: -1 })].
    Documents with the same [createdAt] come in an order the sort does not
    fix. *)
Definition findAll (status : option JobStatusType)
  : Eff (World Q) (list IJob) :=
  fun w =>
    (Returned (merge_sort newest_first (filter (matches status) (documents w))),
     w).

(** The answer of the [$group] stage: one entry for every status that
    occurs, with the number of documents that have it. *)
Definition aggregate_by_status (w : World Q) : list (JobStatusType * nat) :=
  omap (fun s =>
          match List.length (filter (fun j => status j = s) (documents w)) with
          | O => None
          | n => Some (s, n)
          end)
    [PENDING; COMPLETED; FAILED].

(** [Record<JobStatusType, number>] *)
Record Counts : Type := mkCounts {
  count_PENDING : nat;
  count_COMPLETED : nat;
  count_FAILED : nat;
}.

(** [counts[s] = n] *)
Definition assign (counts : Counts) (s : JobStatusType) (n : nat) : Counts :=
  match s with
  | PENDING =>
      {| count_PENDING := n; count_COMPLETED := count_COMPLETED counts;
         count_FAILED := count_FAILED counts |}
  | COMPLETED =>
      {| count_PENDING := count_PENDING counts; count_COMPLETED := n;
         count_FAILED := count_FAILED counts |}
  | FAILED =>
      {| count_PENDING := count_PENDING counts;
         count_COMPLETED := count_COMPLETED counts; count_FAILED := n |}
  end.

(** [counts[s]] *)
Definition count_of (counts : Counts) (s : JobStatusType) : nat :=
  match s with
  | PENDING => count_PENDING counts
  | COMPLETED => count_COMPLETED counts
  | FAILED => count_FAILED counts
  end.

(** [countByStatus()]: the three counts start at 0 and every entry of the
    aggregation overwrites its own. *)
Definition countByStatus : Eff (World Q) Counts :=
  fun w =>
    let counts :=
      {| count_PENDING := 0; count_COMPLETED := 0; count_FAILED := 0 |} in
    (Returned
       (foldl (fun counts result => assign counts result.1 result.2)
          counts (aggregate_by_status w)),
     w).

End repository.
End job_repository.

(** ** queue/job-queue.interface.ts *)

Module job_queue.
Import js eff.

Class JobQueueInterface (Q : Type) : Type := {
  enqueue : JsString -> Eff Q unit;
  shutdown : Eff Q unit;
}.

End job_queue.

(** ** services/job.service.ts *)

Module job_service.
Import js eff bson job_model app job_queue.

Section service.
Context {Q : Type} `{JobQueueInterface Q} {cast : ObjectIdCast}.

(** A call of a method of the injected queue. *)
Definition on_queue {A} (m : Eff Q A) : Eff (World Q) A :=
  fun w =>
    let (o, q') := m (jobQueue w) in
    (o, {| docs := docs w; jobQueue := q'; effects := effects w |}).

Definition submitted (id : JsString) : Eff (World Q) unit :=
  modify (fun w =>
    {| docs := docs w; jobQueue := jobQueue w;
       effects := effects w ++ [QueueEnqueue id] |}).

Definition createJob (amb : Ambient) (prompt : JsString)
  : Eff (World Q) IJob :=
  job ← job_repository.create amb prompt;
  _ ← submitted (toString (_id job));
  _ ← on_queue (enqueue (toString (_id job)));
  mret job.

Definition getJob (id : JsString) : Eff (World Q) (option IJob) :=
  job_repository.findById id.

(** A property read where a number is expected; [undefined] acts as
    [NaN] in arithmetic. *)
Definition num (o : option Number) : Number := default S754_nan o.

(** The mock metadata of [handleWebhookCallback], statement by statement. *)
Definition mock_metadata (amb : Ambient) : JobMetadata :=
  let metadata :=
    {| promptTokens := Some (add (of_Z (draw100 amb)) (of_Z 10));
       completionTokens := Some (add (of_Z (draw200 amb)) (of_Z 50));
       totalTokens := Some (of_Z 0);
       estimatedCost := Some (of_Z 0) |} in
  let metadata :=
    {| promptTokens := promptTokens metadata;
       completionTokens := completionTokens metadata;
       totalTokens :=
         Some (add (or_zero (promptTokens metadata))
                   (or_zero (completionTokens metadata)));
       estimatedCost := estimatedCost metadata |} in
  {| promptTokens := promptTokens metadata;
     completionTokens := completionTokens metadata;
     totalTokens := totalTokens metadata;
     estimatedCost := Some (mul (num (totalTokens metadata)) lit_0_00002) |}.

Definition handleWebhookCallback (amb : Ambient) (jobId : JsString)
    (result error : option JsString) : Eff (World Q) (option IJob) :=
  existingJob ← job_repository.findById jobId;
  match existingJob with
  | None => mret None
  | Some existingJob =>
      if negb (bool_decide (status existingJob = PENDING))
      then mret (Some existingJob)
      else
        let status := if truthy_opt error then FAILED else COMPLETED in
        let metadata := mock_metadata amb in
        job_repository.updateStatus amb jobId status
          (Some (or_null result)) (Some (or_null error)) (Some metadata)
  end.

(** The text [simulateHallucination] stores:
    an opening brace, the key [invalid_json] in double quotes, a colon and
    bare words; no closing brace. *)
Definition hallucination : JsString :=
  cu "{" ++ dquote ++ cu "invalid_json" ++ dquote ++ cu ": this is not valid".

Definition simulateHallucination (amb : Ambient) (jobId : JsString)
  : Eff (World Q) (option IJob) :=
  job_repository.updateStatus amb jobId COMPLETED
    (Some (Some hallucination)) (Some None) None.

Definition deleteJob (id : JsString) : Eff (World Q) bool :=
  job_repository.delete id.

Definition getAllJobs (status : option JobStatusType)
  : Eff (World Q) (list IJob) :=
  job_repository.findAll status.

Definition getStats : Eff (World Q) job_repository.Counts :=
  job_repository.countByStatus.

End service.
End job_service.

(** ** middleware/error-handler.ts and controllers/job.controller.ts *)

Module job_controller.
Import js eff bson job_model app job_queue.

(** The JSON a handler answers with. *)
Inductive Payload : Type :=
| CreatedData (_id : ObjectId) (prompt : JsString) (status : JobStatusType)
    (createdAt : Z)
| CallbackData (_id : ObjectId) (status : JobStatusType) (updatedAt : Z)
| JobData (message : option JsString) (job : IJob)
| MessageOnly (message : JsString)
| ErrorBody (error : option JsString) (details : option JsString).

Record HttpResponse : Type := mkHttpResponse {
  statusCode : Z;
  payload : Payload;
}.

(** [errorHandler]; [production] is [env.NODE_ENV === 'production']. *)
Definition errorHandler (production : bool) (err : Thrown) : HttpResponse :=
  match err with
  | ApiError code message =>
      {| statusCode := code; payload := ErrorBody (Some message) None |}
  | ErrorObj name message =>
      if bool_decide (name = cu "ValidationError") then
        {| statusCode := 400;
           payload := ErrorBody (Some (cu "Validation failed")) (Some message) |}
      else if bool_decide (name = cu "CastError") then
        {| statusCode := 400;
           payload := ErrorBody (Some (cu "Invalid ID format")) None |}
      else
        {| statusCode := 500;
           payload :=
             ErrorBody
               (Some (if production then cu "Internal server error"
                      else message)) None |}
  | NonError =>
      {| statusCode := 500;
         payload :=
           ErrorBody
             (if production then Some (cu "Internal server error") else None)
             None |}
  end.

Section controller.
Context {Q : Type} `{JobQueueInterface Q} {cast : ObjectIdCast}.
Variable production : bool.

(** [try { ... } catch (error) { next(error) }]: what is thrown reaches
    [errorHandler]. *)
Definition respond (m : Eff (World Q) HttpResponse)
  : World Q -> HttpResponse * World Q :=
  fun w =>
    match m w with
    | (Returned r, w') => (r, w')
    | (Threw e, w') => (errorHandler production e, w')
    end.

Definition createJob (amb : Ambient) (body : job_schema.CreateJobInput)
  : World Q -> HttpResponse * World Q :=
  respond (
    job ← job_service.createJob amb (job_schema.prompt body);
    mret {| statusCode := 201;
            payload := CreatedData (_id job) (prompt job) (status job)
                         (createdAt job) |}).

Definition webhookCallback (amb : Ambient)
    (body : job_schema.WebhookCallbackInput)
  : World Q -> HttpResponse * World Q :=
  respond (
    job ← job_service.handleWebhookCallback amb
            (job_schema.jobId body) (job_schema.result body)
            (job_schema.error body);
    match job with
    | None => throw (ApiError 404 (cu "Job not found"))
    | Some job =>
        mret {| statusCode := 200;
                payload := CallbackData (_id job) (status job)
                             (updatedAt job) |}
    end).

Definition simulateHallucination (amb : Ambient) (id : JsString)
  : World Q -> HttpResponse * World Q :=
  respond (
    job ← job_service.simulateHallucination amb id;
    match job with
    | None => throw (ApiError 404 (cu "Job not found"))
    | Some job =>
        mret {| statusCode := 200;
                payload :=
                  JobData
                    (Some (cu "Hallucination simulated - job now has malformed result"))
                    job |}
    end).

Definition deleteJob (id : JsString) : World Q -> HttpResponse * World Q :=
  respond (
    deleted ← job_service.deleteJob id;
    if negb deleted then throw (ApiError 404 (cu "Job not found"))
    else mret {| statusCode := 200;
                 payload := MessageOnly (cu "Job deleted successfully") |}).

Definition getJob (id : JsString) : World Q -> HttpResponse * World Q :=
  respond (
    job ← job_service.getJob id;
    match job with
    | None => throw (ApiError 404 (cu "Job not found"))
    | Some job =>
        mret {| statusCode := 200; payload := JobData None job |}
    end).

End controller.
End job_controller.

(** ** middleware/webhook-auth.ts, routes/job.routes.ts and
    routes/webhook.routes.ts *)

Module routes.
Import js eff bson job_model app job_queue job_controller.

(** The value of a request header. *)
Inductive HeaderValue : Type :=
| HeaderString (s : JsString)
| HeaderArray (l : list JsString).

(** [webhookAuth]: [None] is [next()]. *)
Definition webhookAuth (WEBHOOK_SECRET : JsString)
    (providedSecret : option HeaderValue) : option HttpResponse :=
  match providedSecret with
  | None | Some (HeaderString []) =>
      Some {| statusCode := 401;
              payload := ErrorBody (Some (cu "Missing X-Shared-Secret header"))
                           None |}
  | Some (HeaderArray _) =>
      Some {| statusCode := 401;
              payload :=
                ErrorBody (Some (cu "Invalid X-Shared-Secret header format"))
                  None |}
  | Some (HeaderString s) =>
      if bool_decide (s <> WEBHOOK_SECRET) then
        Some {| statusCode := 403;
                payload := ErrorBody (Some (cu "Invalid X-Shared-Secret")) None |}
      else None
  end.

(** Modelled from the spec: middleware/validate.ts is not among the
    sources.  A body its schema refuses is answered as a validation error
    (status 400) and the controller is not run; a body it accepts reaches
    the controller as the parsed data. *)
Definition validateBody {A W} (schema_result : job_schema.SafeParse A)
    (next : A -> W -> HttpResponse * W) : W -> HttpResponse * W :=
  fun w =>
    match schema_result with
    | job_schema.ParseSuccess data => next data w
    | job_schema.ParseFailure _ =>
        ({| statusCode := 400;
            payload := ErrorBody (Some (cu "Validation failed")) None |}, w)
    end.

(** The requests that reach a handler which writes. *)
Inductive Request : Type :=
| PostJobs (body : job_schema.CreateJobBody)
| PostWebhookCallback (secret : option HeaderValue)
    (body : job_schema.WebhookCallbackBody)
| PostHallucinate (id : JsString)
| DeleteJob (id : JsString).

Section router.
Context {Q : Type} `{JobQueueInterface Q} {cast : ObjectIdCast}.
Variable production : bool.
Variable WEBHOOK_SECRET : JsString.

Definition serve (amb : Ambient) (r : Request)
  : World Q -> HttpResponse * World Q :=
  match r with
  | PostJobs body =>
      validateBody (job_schema.createJobSchema body)
        (job_controller.createJob production amb)
  | PostWebhookCallback secret body =>
      match webhookAuth WEBHOOK_SECRET secret with
      | Some refusal => fun w => (refusal, w)
      | None =>
          validateBody (job_schema.webhookCallbackSchema body)
            (job_controller.webhookCallback production amb)
      end
  | PostHallucinate id => job_controller.simulateHallucination production amb id
  | DeleteJob id => job_controller.deleteJob production id
  end.

End router.
End routes.

(** ** processors/ai-processor.interface.ts *)

Module ai_processor.
Import js.

Record AIProcessingMetadata : Type := mkAIProcessingMetadata {
  promptTokens : Number;
  completionTokens : Number;
  totalTokens : Number;
  estimatedCost : Number;
  model : option JsString;
  processingTimeMs : option Number;
}.

Record AIProcessingResult : Type := mkAIProcessingResult {
  result : JsString;
  error : option JsString;
  metadata : AIProcessingMetadata;
}.

End ai_processor.

(** ** queue/mock-job-queue.ts *)

Module mock_job_queue.
Import js eff ai_processor.

(** [fetch(url, { method: 'POST', headers, body })] *)
Record FetchRequest : Type := mkFetchRequest {
  url : JsString;
  content_type : JsString;
  x_shared_secret : JsString;
  body : job_schema.WebhookCallbackBody;
}.

Record FetchResponse : Type := mkFetchResponse {
  ok : bool;
  status : Z;
}.

Inductive LogLine : Type :=
| LogEnqueued (jobId : JsString)
| LogProcessing (jobId : JsString)
| LogCallingAI (jobId : JsString)
| LogWebhookFailed (jobId : JsString) (status : Z)
| LogCompleted (jobId : JsString)
| LogProcessingError (jobId : JsString) (error : Thrown)
| LogReportFailed (jobId : JsString) (webhookError : Thrown)
| LogShutdown (size : nat)
| LogStillProcessing (pending : gset JsString).

(** What a queue does that is seen from outside, oldest first. *)
Inductive Event : Type :=
| Console (line : LogLine)
| PromptFetch (jobId : JsString)
| AiProcess (jobId prompt : JsString)
| Fetch (request : FetchRequest).

(** The prompt lookup, the processor and the network are outside the
    queue: each is an oracle that answers a call from the events so far. *)
Record JobQueueConfig : Type := mkJobQueueConfig {
  webhookCallbackUrl : JsString;
  webhookSecret : JsString;
  promptFetcher : JsString -> list Event -> Outcome (option JsString);
}.

Record AIProcessorInterface : Type := mkAIProcessor {
  process : JsString -> JsString -> list Event -> Outcome AIProcessingResult;
}.

Definition Network : Type := FetchRequest -> list Event -> Outcome FetchResponse.

Definition emit (e : Event) : Eff (list Event) unit :=
  modify (fun t => t ++ [e]).

(** A call of an oracle, recorded. *)
Definition call {A} (e : Event) (oracle : list Event -> Outcome A)
  : Eff (list Event) A :=
  fun t => (oracle t, t ++ [e]).

(** [JSON.stringify] of the processing metadata; a key that is [undefined]
    is left out. *)
Definition metadata_json (m : AIProcessingMetadata) : job_schema.Json :=
  job_schema.JObj
    ([ (cu "promptTokens", job_schema.JNum (promptTokens m));
       (cu "completionTokens", job_schema.JNum (completionTokens m));
       (cu "totalTokens", job_schema.JNum (totalTokens m));
       (cu "estimatedCost", job_schema.JNum (estimatedCost m)) ]
     ++ match model m with
        | Some s => [(cu "model", job_schema.JStr s)]
        | None => []
        end
     ++ match processingTimeMs m with
        | Some x => [(cu "processingTimeMs", job_schema.JNum x)]
        | None => []
        end).

Definition post (config : JobQueueConfig)
    (body : job_schema.WebhookCallbackBody) : FetchRequest :=
  {| url := webhookCallbackUrl config;
     content_type := cu "application/json";
     x_shared_secret := webhookSecret config;
     body := body |}.

(** The completion report [{ jobId, result, metadata }]. *)
Definition success_report (jobId : JsString) (aiResult : AIProcessingResult)
  : job_schema.WebhookCallbackBody :=
  {| job_schema.body_jobId := Some (job_schema.JStr jobId);
     job_schema.body_result := Some (job_schema.JStr (result aiResult));
     job_schema.body_error := None;
     job_schema.body_metadata := Some (metadata_json (metadata aiResult)) |}.

(** [error instanceof Error ? error.message : 'Unknown error'] *)
Definition error_text (error : Thrown) : JsString :=
  match error with
  | ApiError _ message | ErrorObj _ message => message
  | NonError => cu "Unknown error"
  end.

(** The failure report [{ jobId, error }]. *)
Definition failure_report (jobId : JsString) (error : Thrown)
  : job_schema.WebhookCallbackBody :=
  {| job_schema.body_jobId := Some (job_schema.JStr jobId);
     job_schema.body_result := None;
     job_schema.body_error := Some (job_schema.JStr (error_text error));
     job_schema.body_metadata := None |}.

Section queue.
Variable config : JobQueueConfig.
Variable aiProcessor : AIProcessorInterface.
Variable fetch : Network.

(** The [try] block of [processJob]. *)
Definition attempt (jobId : JsString) : Eff (list Event) unit :=
  prompt ← call (PromptFetch jobId) (promptFetcher config jobId);
  match prompt with
  | None | Some [] =>
      throw (new_Error (cu "Job " ++ jobId ++ cu " not found or has no prompt"))
  | Some prompt =>
      _ ← emit (Console (LogCallingAI jobId));
      aiResult ← call (AiProcess jobId prompt)
                   (process aiProcessor jobId prompt);
      let request := post config (success_report jobId aiResult) in
      response ← call (Fetch request) (fetch request);
      if negb (ok response)
      then emit (Console (LogWebhookFailed jobId (status response)))
      else emit (Console (LogCompleted jobId))
  end.

(** The [catch] block of [processJob]. *)
Definition report_error (jobId : JsString) (error : Thrown)
  : Eff (list Event) unit :=
  _ ← emit (Console (LogProcessingError jobId error));
  try_catch
    (let request := post config (failure_report jobId error) in
     _ ← call (Fetch request) (fetch request);
     mret tt)
    (fun webhookError => emit (Console (LogReportFailed jobId webhookError))).

Definition processJob (jobId : JsString) : Eff (list Event) unit :=
  _ ← emit (Console (LogProcessing jobId));
  try_catch (attempt jobId) (report_error jobId).

(** The queue object and the execution tasks it has started.
    [pendingJobs] is the field of the class; [tasks] are the promises of
    [processJob] that have not settled yet, which the runtime holds and
    the queue has no handle on; [trace] are the events so far. *)
Record MockJobQueue : Type := mkMockJobQueue {
  pendingJobs : gset JsString;
  tasks : list JsString;
  trace : list Event;
}.

(** [new MockJobQueue(config, aiProcessor)] *)
Definition new_MockJobQueue : MockJobQueue :=
  {| pendingJobs := ∅; tasks := []; trace := [] |}.

(** [enqueue]: the job joins [pendingJobs] and [processJob] is started,
    not awaited. *)
Definition enqueue (jobId : JsString) : Eff MockJobQueue unit :=
  fun q =>
    (Returned tt,
     {| pendingJobs := pendingJobs q ∪ {[jobId]};
        tasks := tasks q ++ [jobId];
        trace := trace q ++ [Console (LogEnqueued jobId)] |}).

(** [shutdown] *)
Definition shutdown : Eff MockJobQueue unit :=
  fun q =>
    (Returned tt,
     {| pendingJobs := ∅;
        tasks := tasks q;
        trace :=
          trace q ++ [Console (LogShutdown (size (pendingJobs q)))]
            ++ (if bool_decide (0 < size (pendingJobs q))%nat
                then [Console (LogStillProcessing (pendingJobs q))]
                else []) |}).

Fixpoint remove_first (jobId : JsString) (l : list JsString) : list JsString :=
  match l with
  | [] => []
  | x :: l' => if bool_decide (x = jobId) then l' else x :: remove_first jobId l'
  end.

(** A started task runs to its end, here in one piece, and the callback of
    [.finally] takes the job out of [pendingJobs].  The outcome is the one
    of the promise that [.finally] returns: it rejects when [processJob]
    does. *)
Definition settle (jobId : JsString) : Eff MockJobQueue unit :=
  fun q =>
    let (o, t) := processJob jobId (trace q) in
    (o, {| pendingJobs := pendingJobs q ∖ {[jobId]};
           tasks := remove_first jobId (tasks q);
           trace := t |}).

End queue.

(** [class MockJobQueue implements JobQueueInterface] *)
#[global] Instance MockJobQueue_interface
  : job_queue.JobQueueInterface MockJobQueue :=
  {| job_queue.enqueue := enqueue; job_queue.shutdown := shutdown |}.

End mock_job_queue.

(** ** processors/mock-ai-processor.ts *)

Module mock_ai_processor.
Import js ai_processor.

(** [MockAIProcessorConfig]; a key left out is [None]. *)
Record MockAIProcessorConfig : Type := mkMockAIProcessorConfig {
  baseDelayMs : option Z;
  randomDelayMs : option Z;
}.

(** The configuration after the constructor: [??] puts the defaults in. *)
Record RequiredConfig : Type := mkRequiredConfig {
  base : Z;
  random : Z;
}.

Definition new_MockAIProcessor (config : MockAIProcessorConfig)
  : RequiredConfig :=
  {| base := default 5000 (baseDelayMs config);
     random := default 1000 (randomDelayMs config) |}.

Definition responseTemplates : list JsString :=
  [ cu "Based on my analysis, here are the key insights for your request...";
    cu "After careful consideration, I recommend the following approach...";
    cu "The data suggests multiple pathways forward. Consider these options...";
    cu "Here is a comprehensive summary of the findings based on your prompt...";
    cu "I have analyzed your request and prepared the following response..." ].

(** What the runtime supplies during one call of [process]: the clock at
    its start and at its end, and the two draws,
    [Math.floor(Math.random() * randomDelayMs)] and
    [Math.floor(Math.random() * responseTemplates.length)]. *)
Record Draws : Type := mkDraws {
  startTime : Z;
  endTime : Z;
  delayDraw : Z;
  templateDraw : Z;
}.

(** [s.slice(0, n)] for [n >= 0]. *)
Definition slice_to (n : nat) (s : JsString) : JsString := take n s.

(** [s.slice(-n)] for [n > 0]: the last [n] code units, all of [s] when it
    has fewer. *)
Definition slice_last (n : nat) (s : JsString) : JsString :=
  drop (List.length s - n) s.

(** U+000A. *)
Definition newline : JsString := [10%N].

(** [prompt.length > 50 ? prompt.slice(0, 50) + '...' : prompt] *)
Definition promptPreview (prompt : JsString) : JsString :=
  if 50 <? js.length prompt then slice_to 50 prompt ++ cu "..." else prompt.

(** [responseTemplates[templateIndex]]; in a template literal [undefined]
    prints as its name. *)
Definition template_at (templateIndex : Z) : JsString :=
  if templateIndex <? 0 then cu "undefined"
  else nth (Z.to_nat templateIndex) responseTemplates (cu "undefined").

(** The text of the response. *)
Definition response_text (templateIndex : Z) (jobId prompt : JsString)
  : JsString :=
  template_at templateIndex
    ++ newline ++ newline
    ++ cu "[Processed prompt: " ++ dquote ++ promptPreview prompt ++ dquote
    ++ cu "]" ++ newline
    ++ cu "[Job ID: " ++ slice_last 6 jobId ++ cu "]".

(** [Math.ceil(n / 4)] for a length [n]: the division by 4 is exact in
    binary64, so the result is the integer ceiling. *)
Definition ceil_div4 (n : Z) : Z := (n + 3) / 4.

(** The literal [0.00003]: [0x1.f75104d551d69p-16]. *)
Definition lit_0_00003 : Number :=
  S754_finite false 8854437155380585 (-68).

(** [totalDelay], the time [process] waits before it answers. *)
Definition totalDelay (config : RequiredConfig) (d : Draws) : Z :=
  base config + delayDraw d.

(** [process(jobId, prompt)], after the wait. *)
Definition process (config : RequiredConfig) (d : Draws)
    (jobId prompt : JsString) : AIProcessingResult :=
  let result := response_text (templateDraw d) jobId prompt in
  let promptTokens := of_Z (ceil_div4 (js.length prompt)) in
  let completionTokens := of_Z (ceil_div4 (js.length result)) in
  let totalTokens := add promptTokens completionTokens in
  let processingTimeMs := of_Z (endTime d - startTime d) in
  {| result := result;
     error := None;
     metadata :=
       {| promptTokens := promptTokens;
          completionTokens := completionTokens;
          totalTokens := totalTokens;
          estimatedCost := mul totalTokens lit_0_00003;
          model := Some (cu "mock-gpt-4");
          processingTimeMs := Some processingTimeMs |} |}.

End mock_ai_processor.

(** ** app.ts *)

Module app_container.
Import js eff bson job_model app.

Section container.
Context {Q : Type} {cast : ObjectIdCast}.

(** The [promptFetcher] that [createApp] gives the queue:
    [job?.prompt ?? null] of [await jobRepository.findById(jobId)]; it
    rejects when [findById] does. *)
Definition promptFetcher (jobId : JsString) : Eff (World Q) (option JsString) :=
  job ← job_repository.findById jobId;
  mret (match job with
        | Some job => Some (prompt job)
        | None => None
        end).

(** The configuration that [createApp] gives the queue, with the prompt
    lookup answering from the collection as it is in [w]. *)
Definition queue_config (BASE_URL WEBHOOK_SECRET : JsString) (w : World Q)
  : mock_job_queue.JobQueueConfig :=
  {| mock_job_queue.webhookCallbackUrl := BASE_URL ++ cu "/webhook/callback";
     mock_job_queue.webhookSecret := WEBHOOK_SECRET;
     mock_job_queue.promptFetcher :=
       fun jobId _ => fst (promptFetcher jobId w) |}.

End container.

End app_container.

(** ** The form that submits a prompt (frontend, [CreateJobForm]) *)

Module create_job_form.
Import js.

(** [handleSubmit] with the text of the field: nothing is sent when the
    trimmed text is empty, else the trimmed text is what [jobApi.create]
    posts to [/jobs]. *)
Definition handleSubmit (prompt : JsString) : option job_schema.CreateJobBody :=
  if negb (truthy (trim prompt)) then None
  else Some {| job_schema.body_prompt := Some (job_schema.JStr (trim prompt)) |}.

End create_job_form.

(** ** The queue driven by timers (an earlier [MockJobQueue], which waits
    [processingDelayMs] before it processes a job) *)

Module timer_job_queue.
Import js eff.

(** The queue object and the timers of the runtime.  [pendingTimers] is
    the [Map] of the class, from a job to the handle of its timer.
    [armed] are the timers that [setTimeout] has set and that have
    neither fired nor been cleared, with the job each one will process;
    [running] are the jobs whose timer has fired and whose [processJob]
    has not ended; [next_handle] is the handle the next timer gets. *)
Record TimerQueue : Type := mkTimerQueue {
  pendingTimers : gmap JsString nat;
  armed : gmap nat JsString;
  running : list JsString;
  next_handle : nat;
}.

Definition new_TimerQueue : TimerQueue :=
  {| pendingTimers := ∅; armed := ∅; running := []; next_handle := 0 |}.

(** [enqueue(jobId)]: [setTimeout] arms a timer, and
    [pendingTimers.set(jobId, timer)] records it, over a handle recorded
    for the job before. *)
Definition enqueue (jobId : JsString) : Eff TimerQueue unit :=
  fun q =>
    let timer := next_handle q in
    (Returned tt,
     {| pendingTimers := <[jobId := timer]> (pendingTimers q);
        armed := <[timer := jobId]> (armed q);
        running := running q;
        next_handle := S timer |}).

(** A timer fires: its callback starts [processJob] for its job.  A
    handle that is not armed does nothing. *)
Definition fire (timer : nat) (q : TimerQueue) : TimerQueue :=
  match armed q !! timer with
  | Some jobId =>
      {| pendingTimers := pendingTimers q;
         armed := base.delete timer (armed q);
         running := running q ++ [jobId];
         next_handle := next_handle q |}
  | None => q
  end.

(** [processJob] of a fired timer ends, and the callback goes on to
    [pendingTimers.delete(jobId)]. *)
Definition finish (jobId : JsString) (q : TimerQueue) : TimerQueue :=
  {| pendingTimers := base.delete jobId (pendingTimers q);
     armed := armed q;
     running := mock_job_queue.remove_first jobId (running q);
     next_handle := next_handle q |}.

(** [clearTimeout(timer)]: an armed timer is disarmed, any other handle
    is ignored. *)
Definition clearTimeout (timer : nat) (timers : gmap nat JsString)
  : gmap nat JsString :=
  base.delete timer timers.

(** [shutdown()]: every recorded timer is cleared, then the [Map] is. *)
Definition shutdown : Eff TimerQueue unit :=
  fun q =>
    (Returned tt,
     {| pendingTimers := ∅;
        armed :=
          foldr (fun entry timers => clearTimeout entry.2 timers) (armed q)
            (map_to_list (pendingTimers q));
        running := running q;
        next_handle := next_handle q |}).

End timer_job_queue.

(** ** The job lifecycle: what the properties are stated with *)

Module lifecycle.
Import js eff bson job_model app job_queue job_controller routes.

Definition is_set (o : option JsString) : bool :=
  match o with Some _ => true | None => false end.

(** The invariant of a job record as the specification words it: neither
    [result] nor [error] while [PENDING], exactly one of them once
    terminal. *)
Definition record_invariant (j : IJob) : bool :=
  match status j with
  | PENDING => negb (is_set (result j)) && negb (is_set (error j))
  | COMPLETED | FAILED => xorb (is_set (result j)) (is_set (error j))
  end.

(** The invariant the handlers keep: a [FAILED] record has its [error],
    with or without a [result]. *)
Definition finalized_invariant (j : IJob) : bool :=
  match status j with
  | PENDING => negb (is_set (result j)) && negb (is_set (error j))
  | COMPLETED => is_set (result j) && negb (is_set (error j))
  | FAILED => is_set (error j)
  end.

(** A request whose completion report, if it is one, carries no empty
    text. *)
Definition no_empty_text (r : Request) : Prop :=
  match r with
  | PostWebhookCallback _ body =>
      job_schema.body_result body <> Some (job_schema.JStr [])
      /\ job_schema.body_error body <> Some (job_schema.JStr [])
  | _ => True
  end.

(** The draws are in the range of [Math.floor(Math.random() * n)]. *)
Definition in_range (amb : Ambient) : Prop :=
  0 <= draw100 amb < 100 /\ 0 <= draw200 amb < 200.

#[global] Instance spec_float_eq_dec : EqDecision spec_float.
Proof. solve_decision. Defined.

#[global] Instance JobMetadata_eq_dec : EqDecision JobMetadata.
Proof. solve_decision. Defined.

(** The metadata of a finalizing write, from the two draws: the two
    token counts as integers, their binary64 sum and the binary64 product
    of that sum and [0.00002]. *)
Definition expected_metadata (k1 k2 : Z) : JobMetadata :=
  let pt := of_Z (k1 + 10) in
  let ct := of_Z (k2 + 50) in
  {| promptTokens := Some pt;
     completionTokens := Some ct;
     totalTokens := Some (add pt ct);
     estimatedCost := Some (mul (add pt ct) lit_0_00002) |}.

(** [Math.floor(Math.random() * n) + c] on every draw [k] below [n]: the
    binary64 sum is the integer [k + c], and it is truthy. *)
Definition count_table (n c : Z) : bool :=
  forallb (fun k =>
             bool_decide (add (of_Z k) (of_Z c) = of_Z (k + c))
             && truthy_num (of_Z (k + c)))
    (seqZ 0 n).

(** Two bodies that differ at most in the key [metadata]. *)
Definition same_report (b b' : job_schema.WebhookCallbackBody) : Prop :=
  job_schema.body_jobId b = job_schema.body_jobId b'
  /\ job_schema.body_result b = job_schema.body_result b'
  /\ job_schema.body_error b = job_schema.body_error b'.

(** A text that opens a JSON object and never closes it. *)
Definition unclosed_object (s : JsString) : bool :=
  match s with
  | c :: rest => (c =? 123)%N && forallb (fun d => negb (d =? 125)%N) rest
  | [] => false
  end.

(** The record that [create] builds from a prompt and returns; the
    collection holds it as [job_repository.persisted]. *)
Definition created (amb : Ambient) (prompt0 : JsString) : IJob :=
  {| _id := objectId amb; prompt := trim prompt0; status := PENDING;
     result := None; error := None;
     createdAt := now amb; updatedAt := now amb;
     metadata := default_metadata |}.

(** The record that the callback handler writes over a [PENDING] one:
    the status goes by the [error] of the report, and the texts are those
    of the report as the collection holds them. *)
Definition finalized (amb : Ambient) (result error : option JsString)
    (job : IJob) : IJob :=
  {| _id := _id job;
     prompt := prompt job;
     status := if truthy_opt error then FAILED else COMPLETED;
     result := option_map toWellFormed (or_null result);
     error := option_map toWellFormed (or_null error);
     createdAt := createdAt job;
     updatedAt := now amb;
     metadata := job_service.mock_metadata amb |}.

(** The record that the anomaly simulation writes over any one. *)
Definition hallucinated (amb : Ambient) (job : IJob) : IJob :=
  {| _id := _id job;
     prompt := prompt job;
     status := COMPLETED;
     result := Some job_service.hallucination;
     error := None;
     createdAt := createdAt job;
     updatedAt := now amb;
     metadata := metadata job |}.

(** A world after one more write to the collection. *)
Definition updated {Q} (id : ObjectId) (job : IJob) (w : World Q) : World Q :=
  {| docs := <[id := job]> (docs w);
     jobQueue := jobQueue w;
     effects := effects w ++ [DbUpdate job] |}.

Section reach.
Context {Q : Type} `{JobQueueInterface Q} {cast : ObjectIdCast}.
Variable production : bool.
Variable WEBHOOK_SECRET : JsString.

(** The worlds the application gets into from an empty collection by
    serving requests that satisfy [P]. *)
Inductive reachable (P : Request -> Prop) : World Q -> Prop :=
| reach_init q :
    reachable P {| docs := ∅; jobQueue := q; effects := [] |}
| reach_serve w amb r :
    reachable P w -> P r ->
    reachable P (snd (serve production WEBHOOK_SECRET amb r w)).

End reach.

(** Every record of a collection satisfies [inv]. *)
Definition all_records (inv : IJob -> bool) (m : gmap ObjectId IJob) : Prop :=
  map_Forall (fun _ j => inv j = true) m.

End lifecycle.

(** ** The execution task: what its properties are stated with *)

Module task.
Import js eff ai_processor mock_job_queue.

Section failures.
Variable config : JobQueueConfig.
Variable aiProcessor : AIProcessorInterface.
Variable fetch : Network.

(** The events of a task up to each of its three calls, from the events
    [t] before it. *)
Definition at_lookup (jobId : JsString) (t : list Event) : list Event :=
  t ++ [Console (LogProcessing jobId)].

Definition at_process (jobId : JsString) (t : list Event) : list Event :=
  (at_lookup jobId t ++ [PromptFetch jobId]) ++ [Console (LogCallingAI jobId)].

Definition at_delivery (jobId prompt : JsString) (t : list Event)
  : list Event :=
  at_process jobId t ++ [AiProcess jobId prompt].

(** A step of the task started after [t] fails with [e]: the lookup
    throws or finds no prompt, the processor throws, or the call that
    delivers the completion report throws. *)
Inductive step_fails (jobId : JsString) (t : list Event) : Thrown -> Prop :=
| lookup_throws e :
    promptFetcher config jobId (at_lookup jobId t) = Threw e ->
    step_fails jobId t e
| lookup_nothing p :
    promptFetcher config jobId (at_lookup jobId t) = Returned p ->
    truthy_opt p = false ->
    step_fails jobId t
      (new_Error (cu "Job " ++ jobId ++ cu " not found or has no prompt"))
| processor_throws p e :
    promptFetcher config jobId (at_lookup jobId t) = Returned (Some p) ->
    truthy p = true ->
    process aiProcessor jobId p (at_process jobId t) = Threw e ->
    step_fails jobId t e
| delivery_throws p r e :
    promptFetcher config jobId (at_lookup jobId t) = Returned (Some p) ->
    truthy p = true ->
    process aiProcessor jobId p (at_process jobId t) = Returned r ->
    fetch (post config (success_report jobId r)) (at_delivery jobId p t)
      = Threw e ->
    step_fails jobId t e.

(** The completion report of the task started after [t] is answered,
    with whatever status. *)
Inductive delivery_answered (jobId : JsString) (t : list Event)
  : JsString -> AIProcessingResult -> FetchResponse -> Prop :=
| answered p r response :
    promptFetcher config jobId (at_lookup jobId t) = Returned (Some p) ->
    truthy p = true ->
    process aiProcessor jobId p (at_process jobId t) = Returned r ->
    fetch (post config (success_report jobId r)) (at_delivery jobId p t)
      = Returned response ->
    delivery_answered jobId t p r response.

End failures.

(** The failure reports among the requests of a trace. *)
Definition failure_reports (t : list Event) : list FetchRequest :=
  omap (fun ev =>
          match ev with
          | Fetch request =>
              match job_schema.body_error (body request) with
              | Some _ => Some request
              | None => None
              end
          | _ => None
          end) t.

End task.

(** ** Concrete inputs *)

Module sample.
Import js eff bson job_model app job_controller routes.

Definition secret : JsString := cu "s3cret-s3cret-s3cret".
Definition header : option HeaderValue := Some (HeaderString secret).

(** An ObjectId, the text it is printed as, the same digits with the
    letters in upper case, and a text that is no ObjectId. *)
Definition id1 : JsString := cu "65a1f0c2b7e4d3a9c8b7a601".
Definition oid1 : ObjectId := dexist id1 eq_refl.
Definition ID1 : JsString := cu "65A1F0C2B7E4D3A9C8B7A601".
Definition abc : JsString := cu "abc".

Definition amb1 : Ambient :=
  {| now := 1700000000000; objectId := oid1; draw100 := 41; draw200 := 107 |}.
Definition amb2 : Ambient :=
  {| now := 1700000006000;
     objectId := dexist (cu "65a1f0c2b7e4d3a9c8b7a602") eq_refl;
     draw100 := 7; draw200 := 199 |}.
Definition amb3 : Ambient :=
  {| now := 1700000009000;
     objectId := dexist (cu "65a1f0c2b7e4d3a9c8b7a603") eq_refl;
     draw100 := 0; draw200 := 0 |}.

(** An application that has served nothing yet. *)
Definition w0 : World mock_job_queue.MockJobQueue :=
  {| docs := ∅; jobQueue := mock_job_queue.new_MockJobQueue; effects := [] |}.

Definition run (amb : Ambient) (r : Request)
    (w : World mock_job_queue.MockJobQueue)
  : World mock_job_queue.MockJobQueue :=
  snd (serve (cast := hex_only) false secret amb r w).

Definition create_request (prompt : JsString) : Request :=
  PostJobs {| job_schema.body_prompt := Some (job_schema.JStr prompt) |}.

Definition callback (result error : option JsString) : Request :=
  PostWebhookCallback header
    {| job_schema.body_jobId := Some (job_schema.JStr id1);
       job_schema.body_result := option_map job_schema.JStr result;
       job_schema.body_error := option_map job_schema.JStr error;
       job_schema.body_metadata := None |}.

(** One job, still [PENDING]. *)
Definition w_pending : World mock_job_queue.MockJobQueue :=
  run amb1 (create_request (cu "Summarize X")) w0.

Definition job_pending : IJob :=
  {| _id := oid1; prompt := cu "Summarize X"; status := PENDING;
     result := None; error := None;
     createdAt := 1700000000000; updatedAt := 1700000000000;
     metadata := default_metadata |}.

(** The job after a report that carries both a result and an error. *)
Definition w_both : World mock_job_queue.MockJobQueue :=
  run amb2 (callback (Some (cu "summary text")) (Some (cu "timeout"))) w_pending.

(** The job after a report whose error is the empty string. *)
Definition w_empty_error : World mock_job_queue.MockJobQueue :=
  run amb2 (callback None (Some [])) w_pending.

(** The job after a report that carries a result. *)
Definition w_completed : World mock_job_queue.MockJobQueue :=
  run amb2 (callback (Some (cu "summary text")) None) w_pending.

Definition job_completed : IJob :=
  lifecycle.finalized amb2 (Some (cu "summary text")) None job_pending.

(** A queue whose lookup finds the prompt, whose processor answers, and
    whose callback endpoint answers every delivery with status 500. *)
Definition found : mock_job_queue.JobQueueConfig :=
  {| mock_job_queue.webhookCallbackUrl := cu "http://localhost:3000/webhook/callback";
     mock_job_queue.webhookSecret := secret;
     mock_job_queue.promptFetcher := fun _ _ => Returned (Some (cu "Summarize X")) |}.

Definition answer : ai_processor.AIProcessingResult :=
  {| ai_processor.result := cu "summary text";
     ai_processor.error := None;
     ai_processor.metadata :=
       {| ai_processor.promptTokens := of_Z 3;
          ai_processor.completionTokens := of_Z 3;
          ai_processor.totalTokens := of_Z 6;
          ai_processor.estimatedCost := mul (of_Z 6) lit_0_00002;
          ai_processor.model := None;
          ai_processor.processingTimeMs := None |} |}.

Definition answers : mock_job_queue.AIProcessorInterface :=
  {| mock_job_queue.process := fun _ _ _ => Returned answer |}.

Definition refuses : mock_job_queue.Network :=
  fun _ _ => Returned {| mock_job_queue.ok := false; mock_job_queue.status := 500 |}.

(** A queue whose lookup finds nothing, on a network that is down. *)
Definition lost : mock_job_queue.JobQueueConfig :=
  {| mock_job_queue.webhookCallbackUrl := cu "http://localhost:3000/webhook/callback";
     mock_job_queue.webhookSecret := secret;
     mock_job_queue.promptFetcher := fun _ _ => Returned None |}.

Definition down : mock_job_queue.Network :=
  fun _ _ => Threw (new_Error (cu "fetch failed")).

End sample.

(** ** The collection: what its properties are stated with *)

Module store.
Import js eff bson job_model app.

(** [w'] differs from [w] at most in the record of [jobId], which is
    neither created nor removed and keeps its identifier, its prompt and
    its creation date; the queue is as it was. *)
Definition touches_only {Q} (jobId : ObjectId) (w w' : World Q) : Prop :=
  dom (docs w') = dom (docs w)
  /\ jobQueue w' = jobQueue w
  /\ (forall id, id <> jobId -> docs w' !! id = docs w !! id)
  /\ (forall j', docs w' !! jobId = Some j' ->
        exists j, docs w !! jobId = Some j
                  /\ _id j' = _id j
                  /\ prompt j' = prompt j
                  /\ createdAt j' = createdAt j).

(** A text that has every surrogate in a pair, if there is a text. *)
Definition well_formed (text : option JsString) : Prop :=
  forall s, text = Some s -> isWellFormed s = true.

(** A record is stored under its own identifier; its prompt is not empty,
    has at most 10,000 code units and neither starts nor ends with white
    space; and its texts are well-formed. *)
Definition well_stored (id : ObjectId) (j : IJob) : Prop :=
  _id j = id
  /\ truthy (prompt j) = true
  /\ js.length (prompt j) <= 10000
  /\ trim (prompt j) = prompt j
  /\ isWellFormed (prompt j) = true
  /\ well_formed (result j)
  /\ well_formed (error j).

End store.

(** ** The queue: what its further properties are stated with *)

Module bookkeeping.
Import js eff ai_processor mock_job_queue.

(** [pendingJobs] is exactly the set of the tasks that run, and no job
    runs twice at once. *)
Definition in_sync (q : MockJobQueue) : Prop :=
  NoDup (tasks q) /\ pendingJobs q = list_to_set (tasks q).

(** The calls of a trace, by kind. *)
Definition lookups (t : list Event) : list JsString :=
  omap (fun ev => match ev with PromptFetch id => Some id | _ => None end) t.

Definition processor_calls (t : list Event) : list (JsString * JsString) :=
  omap (fun ev => match ev with AiProcess id p => Some (id, p) | _ => None end) t.

Definition deliveries (t : list Event) : list FetchRequest :=
  omap (fun ev => match ev with Fetch request => Some request | _ => None end) t.

(** A request goes to the configured endpoint with the configured secret,
    as JSON, and names the job. *)
Definition addressed (config : JobQueueConfig) (jobId : JsString)
    (request : FetchRequest) : Prop :=
  url request = webhookCallbackUrl config
  /\ x_shared_secret request = webhookSecret config
  /\ content_type request = cu "application/json"
  /\ job_schema.body_jobId (body request) = Some (job_schema.JStr jobId).

End bookkeeping.

(** ** The timer queue: what its properties are stated with *)

Module timers.
Import js eff timer_job_queue.

(** What happens to a queue, one event at a time: a caller enqueues a job
    or shuts the queue down, the runtime fires a timer, a task ends. *)
Inductive Step : Type :=
| Enqueue (jobId : JsString)
| Fire (timer : nat)
| Finish (jobId : JsString)
| Shutdown.

Definition step (s : Step) (q : TimerQueue) : TimerQueue :=
  match s with
  | Enqueue jobId => snd (enqueue jobId q)
  | Fire timer => fire timer q
  | Finish jobId => finish jobId q
  | Shutdown => snd (shutdown q)
  end.

(** A step that can happen, whatever the caller does: a job ends only
    while it runs. *)
Definition possible (s : Step) (q : TimerQueue) : Prop :=
  match s with
  | Finish jobId => jobId ∈ running q
  | Enqueue _ | Fire _ | Shutdown => True
  end.

(** A step that can happen when the caller enqueues no job that is still
    with the queue: a job is enqueued only while the queue neither records
    a timer for it nor runs it. *)
Definition orderly (s : Step) (q : TimerQueue) : Prop :=
  match s with
  | Enqueue jobId => pendingTimers q !! jobId = None /\ jobId ∉ running q
  | Finish jobId => jobId ∈ running q
  | Fire _ | Shutdown => True
  end.

(** The queues reached from a new one by steps that satisfy [ok]. *)
Inductive reached (ok : Step -> TimerQueue -> Prop) : TimerQueue -> Prop :=
| reached_new : reached ok new_TimerQueue
| reached_step s q : reached ok q -> ok s q -> reached ok (step s q).

(** Every recorded handle has been handed out. *)
Definition handed_out (q : TimerQueue) : Prop :=
  forall j h, pendingTimers q !! j = Some h -> (h < next_handle q)%nat.

(** Every armed timer is the one recorded for its job, no job that runs
    has an armed timer, and no job runs twice. *)
Definition recorded (q : TimerQueue) : Prop :=
  (forall h j, armed q !! h = Some j -> pendingTimers q !! j = Some h)
  /\ (forall h j, armed q !! h = Some j -> j ∉ running q)
  /\ NoDup (running q).

End timers.

(** ** Further concrete inputs *)

Module sample_more.
Import js.

(** The report that arrives late, after the job was completed. *)
Definition late_report : routes.Request :=
  sample.callback None (Some (cu "timeout")).

Definition draws : mock_ai_processor.Draws :=
  {| mock_ai_processor.startTime := 1700000000000;
     mock_ai_processor.endTime := 1700000005321;
     mock_ai_processor.delayDraw := 321;
     mock_ai_processor.templateDraw := 3 |}.

Definition processor : mock_ai_processor.RequiredConfig :=
  mock_ai_processor.new_MockAIProcessor
    {| mock_ai_processor.baseDelayMs := None;
       mock_ai_processor.randomDelayMs := None |}.

(** A timer queue on which a job was enqueued, started, shut down and
    ended, and has been enqueued again. *)
Definition restarted : timer_job_queue.TimerQueue :=
  foldl (fun q s => timers.step s q) timer_job_queue.new_TimerQueue
    [timers.Enqueue sample.id1; timers.Fire 0; timers.Shutdown;
     timers.Finish sample.id1; timers.Enqueue sample.id1].

End sample_more.

(** * Properties *)

(** ** The callback handler and the anomaly simulation, case by case *)

Section service_facts.
Import js eff bson job_model app job_queue lifecycle.
Context {Q : Type} `{JobQueueInterface Q} {cast : ObjectIdCast}.
Implicit Types (w : World Q) (amb : Ambient) (job : IJob) (oid : ObjectId).

Ltac run_eff :=
  unfold job_service.handleWebhookCallback, job_service.simulateHallucination,
    job_service.deleteJob, job_service.getJob,
    job_repository.updateStatus, job_repository.findByIdAndUpdate,
    job_repository.findById, job_repository.delete,
    mbind, Eff_bind, eff.bind, mret, Eff_ret, eff.ret;
  cbn beta iota.

Lemma callback_uncastable amb jobId r e w :
  castObjectId jobId = None ->
  job_service.handleWebhookCallback amb jobId r e w
  = (Threw (job_repository.CastError jobId), w).
Proof. intros Hc. run_eff. now rewrite Hc. Qed.

Lemma callback_unknown amb jobId oid r e w :
  castObjectId jobId = Some oid ->
  docs w !! oid = None ->
  job_service.handleWebhookCallback amb jobId r e w = (Returned None, w).
Proof. intros Hc Hd. run_eff. now rewrite Hc, Hd. Qed.

Lemma callback_terminal amb jobId oid r e w job :
  castObjectId jobId = Some oid ->
  docs w !! oid = Some job ->
  terminal (status job) = true ->
  job_service.handleWebhookCallback amb jobId r e w = (Returned (Some job), w).
Proof.
  intros Hc Hd Ht. run_eff. rewrite Hc, Hd.
  destruct (status job) eqn:Hs; try discriminate; reflexivity.
Qed.

Lemma callback_pending amb jobId oid r e w job :
  castObjectId jobId = Some oid ->
  docs w !! oid = Some job ->
  status job = PENDING ->
  job_service.handleWebhookCallback amb jobId r e w
  = (Returned (Some (finalized amb r e job)),
     updated oid (finalized amb r e job) w).
Proof.
  intros Hc Hd Hs. run_eff. rewrite Hc, Hd, Hs.
  rewrite bool_decide_eq_true_2 by reflexivity. cbn [negb].
  rewrite ?Hc, ?Hd. reflexivity.
Qed.

Lemma finalized_terminal amb r e job :
  terminal (status (finalized amb r e job)) = true.
Proof. cbn. now destruct (truthy_opt e). Qed.

Lemma hallucinate_uncastable amb jobId w :
  castObjectId jobId = None ->
  job_service.simulateHallucination amb jobId w
  = (Threw (job_repository.CastError jobId), w).
Proof. intros Hc. run_eff. now rewrite Hc. Qed.

Lemma hallucinate_unknown amb jobId oid w :
  castObjectId jobId = Some oid ->
  docs w !! oid = None ->
  job_service.simulateHallucination amb jobId w = (Returned None, w).
Proof. intros Hc Hd. run_eff. now rewrite Hc, Hd. Qed.

Lemma hallucinate_known amb jobId oid w job :
  castObjectId jobId = Some oid ->
  docs w !! oid = Some job ->
  job_service.simulateHallucination amb jobId w
  = (Returned (Some (hallucinated amb job)),
     updated oid (hallucinated amb job) w).
Proof. intros Hc Hd. run_eff. now rewrite Hc, Hd. Qed.

Lemma delete_uncastable jobId w :
  castObjectId jobId = None ->
  job_service.deleteJob jobId w = (Threw (job_repository.CastError jobId), w).
Proof. intros Hc. run_eff. now rewrite Hc. Qed.

Lemma delete_unknown jobId oid w :
  castObjectId jobId = Some oid ->
  docs w !! oid = None ->
  job_service.deleteJob jobId w = (Returned false, w).
Proof. intros Hc Hd. run_eff. now rewrite Hc, Hd. Qed.

Lemma delete_known jobId oid w job :
  castObjectId jobId = Some oid ->
  docs w !! oid = Some job ->
  job_service.deleteJob jobId w
  = (Returned true,
     {| docs := base.delete oid (docs w); jobQueue := jobQueue w;
        effects := effects w ++ [DbDelete oid] |}).
Proof. intros Hc Hd. run_eff. now rewrite Hc, Hd. Qed.

(** A thrown [CastError] is answered with 400 and the fixed message. *)
Lemma CastError_answer production jobId :
  job_controller.errorHandler production (job_repository.CastError jobId)
  = {| job_controller.statusCode := 400;
       job_controller.payload :=
         job_controller.ErrorBody (Some (cu "Invalid ID format")) None |}.
Proof. reflexivity. Qed.

End service_facts.

(** ** Idempotent finalization *)

Section idempotence.
Import js eff bson job_model app job_queue lifecycle.
Context {Q : Type} `{JobQueueInterface Q} {cast : ObjectIdCast}.

(** C1. A completion report applied to a record whose status is terminal
    is a no-op: the handler returns the stored record and the world (the
    collection and the list of writes) is the one before the call.
    Hence the idempotence law: whatever the first report [r1, e1] is, the
    record it leaves is terminal, and a second report [r2, e2] returns
    that same record and leaves the world as the first one left it.
    [jobId] is any string that the cast takes to the ObjectId of the
    record. *)
Theorem callback_on_terminal_is_noop
    (amb1 amb2 : Ambient) (jobId : JsString) (oid : ObjectId)
    (r1 e1 r2 e2 : option JsString) (w : World Q) (job : IJob) :
  castObjectId jobId = Some oid ->
  docs w !! oid = Some job ->
  (terminal (status job) = true ->
   job_service.handleWebhookCallback amb1 jobId r1 e1 w
   = (Returned (Some job), w))
  /\ exists job1 w1,
       job_service.handleWebhookCallback amb1 jobId r1 e1 w
       = (Returned (Some job1), w1)
       /\ terminal (status job1) = true
       /\ job_service.handleWebhookCallback amb2 jobId r2 e2 w1
          = (Returned (Some job1), w1).
Proof.
  intros Hc Hd. split.
  - intros Ht. now apply callback_terminal with oid.
  - destruct (terminal (status job)) eqn:Ht.
    + exists job, w. repeat split; eauto using callback_terminal.
    + assert (Hs : status job = PENDING)
        by (destruct (status job); [reflexivity | discriminate ..]).
      exists (finalized amb1 r1 e1 job), (updated oid (finalized amb1 r1 e1 job) w).
      split; [now apply callback_pending |].
      split; [apply finalized_terminal |].
      apply callback_terminal with oid;
        [exact Hc | apply lookup_insert_eq | apply finalized_terminal].
Qed.

End idempotence.

Lemma callback_on_terminal_is_noop_witness :
  bson.castObjectId (ObjectIdCast := bson.hex_only) sample.id1 = Some sample.oid1
  /\ app.docs sample.w_completed !! sample.oid1 = Some sample.job_completed
  /\ job_model.terminal (job_model.status sample.job_completed) = true
  /\ job_service.handleWebhookCallback (cast := bson.hex_only) sample.amb3
       sample.id1 None (Some (js.cu "timeout")) sample.w_completed
     = (js.Returned (Some sample.job_completed), sample.w_completed).
Proof.
  assert (Hc : bson.castObjectId (ObjectIdCast := bson.hex_only) sample.id1
               = Some sample.oid1) by (vm_compute; reflexivity).
  assert (Hd : app.docs sample.w_completed !! sample.oid1
               = Some sample.job_completed) by (vm_compute; reflexivity).
  split; [exact Hc |]. split; [exact Hd |]. split; [reflexivity |].
  destruct (callback_on_terminal_is_noop sample.amb3 sample.amb3 sample.id1
              sample.oid1 None (Some (js.cu "timeout")) None None
              sample.w_completed sample.job_completed Hc Hd) as [Hnoop _].
  apply Hnoop. reflexivity.
Defined.

(** ** Truthiness of the report *)

Section truthiness.
Import js eff bson job_model app job_queue lifecycle.
Context {Q : Type} `{JobQueueInterface Q} {cast : ObjectIdCast}.

(** C9. A report whose [error] is the empty string and whose [result] is
    absent passes the schema, and on a [PENDING] job the handler takes it
    for a success: the record it writes is [COMPLETED] with [result] and
    [error] both [null].  [jobId] is any string that the cast takes to
    the ObjectId of the record. *)
Theorem empty_error_is_taken_for_success
    (amb : Ambient) (jobId : JsString) (oid : ObjectId)
    (md : option job_schema.Json) (w : World Q) (job : IJob) :
  castObjectId jobId = Some oid ->
  docs w !! oid = Some job ->
  status job = PENDING ->
  jobId <> [] ->
  job_schema.webhookCallbackSchema
    {| job_schema.body_jobId := Some (job_schema.JStr jobId);
       job_schema.body_result := None;
       job_schema.body_error := Some (job_schema.JStr []);
       job_schema.body_metadata := md |}
  = job_schema.ParseSuccess
      {| job_schema.jobId := jobId;
         job_schema.result := None;
         job_schema.error := Some [] |}
  /\ exists job',
       job_service.handleWebhookCallback amb jobId None (Some []) w
       = (Returned (Some job'), updated oid job' w)
       /\ status job' = COMPLETED
       /\ result job' = None
       /\ error job' = None.
Proof.
  intros Hc Hd Hs Hid. split.
  - destruct jobId as [|c s]; [congruence |].
    unfold job_schema.webhookCallbackSchema. cbn -[cu].
    replace (js.length (c :: s) <? 1) with false; [reflexivity |].
    symmetry. apply Z.ltb_ge. unfold js.length. cbn [List.length]. lia.
  - exists (finalized amb None (Some []) job).
    split; [now apply callback_pending |]. repeat split.
Qed.

End truthiness.

Lemma empty_error_is_taken_for_success_witness :
  bson.castObjectId (ObjectIdCast := bson.hex_only) sample.id1 = Some sample.oid1
  /\ app.docs sample.w_pending !! sample.oid1 = Some sample.job_pending
  /\ job_model.status sample.job_pending = job_model.PENDING
  /\ sample.id1 <> []
  /\ exists job',
       job_service.handleWebhookCallback (cast := bson.hex_only) sample.amb2
         sample.id1 None (Some []) sample.w_pending
       = (js.Returned (Some job'),
          lifecycle.updated sample.oid1 job' sample.w_pending)
       /\ job_model.status job' = job_model.COMPLETED
       /\ job_model.result job' = None
       /\ job_model.error job' = None.
Proof.
  assert (Hc : bson.castObjectId (ObjectIdCast := bson.hex_only) sample.id1
               = Some sample.oid1) by (vm_compute; reflexivity).
  assert (Hd : app.docs sample.w_pending !! sample.oid1 = Some sample.job_pending)
    by (vm_compute; reflexivity).
  assert (Hid : sample.id1 <> []) by discriminate.
  split; [exact Hc |]. split; [exact Hd |]. split; [reflexivity |].
  split; [exact Hid |].
  exact (proj2 (empty_error_is_taken_for_success sample.amb2 sample.id1
                  sample.oid1 None sample.w_pending sample.job_pending
                  Hc Hd eq_refl Hid)).
Defined.

(** C4, at the report [{ jobId, error: '' }].  The report passes the
    route, the answer is 200 with status [COMPLETED], and the record that
    is stored has neither a result nor an error, although the report
    provided an error and no result. *)
Example empty_error_report_is_stored_as_completed :
  app.docs sample.w_pending !! sample.oid1 = Some sample.job_pending
  /\ fst (routes.serve (cast := bson.hex_only) false sample.secret sample.amb2
            (sample.callback None (Some [])) sample.w_pending)
     = {| job_controller.statusCode := 200;
          job_controller.payload :=
            job_controller.CallbackData sample.oid1 job_model.COMPLETED
              (app.now sample.amb2) |}
  /\ job_model.status <$> app.docs sample.w_empty_error !! sample.oid1
     = Some job_model.COMPLETED
  /\ job_model.result <$> app.docs sample.w_empty_error !! sample.oid1
     = Some None
  /\ job_model.error <$> app.docs sample.w_empty_error !! sample.oid1
     = Some None.
Proof. repeat split; vm_compute; reflexivity. Qed.

(** ** Anomaly simulation *)

Section anomaly.
Import js eff bson job_model app job_queue job_controller lifecycle.
Context {Q : Type} `{JobQueueInterface Q} {cast : ObjectIdCast}.

(** C5, as the repository and the controller have it.  The identifier of
    the request is cast to an ObjectId first.  If the cast gives an
    ObjectId that the collection holds, then whatever the status of its
    record, the anomaly simulation writes and returns a record that is
    [COMPLETED], whose [result] is the fixed text that opens a JSON object
    and never closes it, and whose [error] is [null], and the controller
    answers 200 with that record.  If the cast gives an ObjectId that the
    collection does not hold, the simulation returns [null], writes
    nothing, and the controller answers 404 "Job not found".  If the cast
    fails, the simulation throws a [CastError], writes nothing, and the
    controller answers 400 "Invalid ID format". *)
Theorem hallucination_forces_completed
    (production : bool) (amb : Ambient) (jobId : JsString) (w : World Q) :
  match castObjectId jobId with
  | Some oid =>
      match docs w !! oid with
      | Some job =>
          exists job',
            job_service.simulateHallucination amb jobId w
            = (Returned (Some job'), updated oid job' w)
            /\ docs (updated oid job' w) !! oid = Some job'
            /\ status job' = COMPLETED
            /\ result job' = Some job_service.hallucination
            /\ unclosed_object job_service.hallucination = true
            /\ error job' = None
            /\ job_controller.simulateHallucination production amb jobId w
               = ({| statusCode := 200;
                     payload :=
                       JobData
                         (Some (cu "Hallucination simulated - job now has malformed result"))
                         job' |},
                  updated oid job' w)
      | None =>
          job_service.simulateHallucination amb jobId w = (Returned None, w)
          /\ job_controller.simulateHallucination production amb jobId w
             = ({| statusCode := 404;
                   payload := ErrorBody (Some (cu "Job not found")) None |}, w)
      end
  | None =>
      job_service.simulateHallucination amb jobId w
      = (Threw (job_repository.CastError jobId), w)
      /\ job_controller.simulateHallucination production amb jobId w
         = ({| statusCode := 400;
               payload := ErrorBody (Some (cu "Invalid ID format")) None |}, w)
  end.
Proof.
  destruct (castObjectId jobId) as [oid|] eqn:Hc.
  - destruct (docs w !! oid) as [job|] eqn:Hd.
    + exists (hallucinated amb job).
      split; [now apply hallucinate_known |].
      split; [apply lookup_insert_eq |]. repeat split.
      unfold job_controller.simulateHallucination, respond, mbind, Eff_bind,
        eff.bind.
      now rewrite (hallucinate_known amb jobId oid w job Hc Hd).
    + split; [now apply hallucinate_unknown with oid |].
      unfold job_controller.simulateHallucination, respond, mbind, Eff_bind,
        eff.bind.
      now rewrite (hallucinate_unknown amb jobId oid w Hc Hd).
  - split; [now apply hallucinate_uncastable |].
    unfold job_controller.simulateHallucination, respond, mbind, Eff_bind,
      eff.bind.
    now rewrite (hallucinate_uncastable amb jobId w Hc).
Qed.

End anomaly.

(** The input that refutes C5 as it is worded: no record has the
    identifier [abc], and the anomaly simulation on it does not report
    that the job was not found; the cast of [abc] to an ObjectId fails,
    the service throws a [CastError] and the answer is 400 "Invalid ID
    format", on the empty collection and on one that holds a job. *)
Lemma malformed_id_is_not_reported_as_not_found :
  bson.castObjectId (ObjectIdCast := bson.hex_only) sample.abc = None
  /\ (forall job, job ∈ job_repository.documents sample.w_pending ->
        bson.toString (job_model._id job) <> sample.abc)
  /\ job_service.simulateHallucination (cast := bson.hex_only) sample.amb2
       sample.abc sample.w_pending
     = (js.Threw (job_repository.CastError (cast := bson.hex_only) sample.abc),
        sample.w_pending)
  /\ (exists message,
        job_repository.CastError (cast := bson.hex_only) sample.abc
        = js.ErrorObj (js.cu "CastError") message)
  /\ routes.serve (cast := bson.hex_only) false sample.secret sample.amb2
       (routes.PostHallucinate sample.abc) sample.w_pending
     = ({| job_controller.statusCode := 400;
           job_controller.payload :=
             job_controller.ErrorBody (Some (js.cu "Invalid ID format")) None |},
        sample.w_pending)
  /\ routes.serve (cast := bson.hex_only) false sample.secret sample.amb2
       (routes.PostHallucinate sample.abc) sample.w0
     = ({| job_controller.statusCode := 400;
           job_controller.payload :=
             job_controller.ErrorBody (Some (js.cu "Invalid ID format")) None |},
        sample.w0).
Proof.
  split; [vm_compute; reflexivity |]. split.
  - intros job Hin Heq.
    assert (Hlen : List.length (bson.toString (job_model._id job)) = 24%nat).
    { destruct (job_model._id job) as [t p]. cbn.
      pose proof (bool_decide_unpack _ p) as Hp.
      unfold bson.isHexString in Hp. apply andb_true_iff in Hp as [Hp _].
      now apply Nat.eqb_eq in Hp. }
    rewrite Heq in Hlen. discriminate Hlen.
  - split; [vm_compute; reflexivity |].
    split; [eexists; reflexivity |].
    split; vm_compute; reflexivity.
Qed.

(** ** Validation of the completion report *)

Section validation.
Import js job_schema.

Lemma length_cons_not_below_1 (c : N) (s : JsString) :
  (js.length (c :: s) <? 1) = false.
Proof. apply Z.ltb_ge. unfold js.length. cbn [List.length]. lia. Qed.

(** The three outcomes of the key [jobId]. *)
Lemma jobId_field (v : option Json) :
  z_min KJobId 1 (cu "Job ID is required") (z_string KJobId v)
  = match v with
    | Some (JStr (c :: s)) => Valid (c :: s)
    | Some (JStr []) => Dirty [] [TooSmall KJobId (cu "Job ID is required")]
    | _ => Aborted [InvalidType KJobId]
    end.
Proof.
  destruct v as [[| | |[|c s]| |]|]; try reflexivity.
  unfold z_string, z_min. now rewrite length_cons_not_below_1.
Qed.

Lemma webhook_schema_success (b : WebhookCallbackBody) (d : WebhookCallbackInput) :
  webhookCallbackSchema b = ParseSuccess d
  <-> (body_jobId b = Some (JStr (jobId d))
       /\ jobId d <> []
       /\ body_result b = JStr <$> result d
       /\ body_error b = JStr <$> error d
       /\ (result d <> None \/ error d <> None)).
Proof.
  destruct b as [vj vr ve vm], d as [j r e].
  unfold webhookCallbackSchema. rewrite jobId_field.
  cbn [body_jobId body_result body_error jobId result error].
  split.
  - destruct vj as [[| | |[|c s]| |]|]; destruct vr as [[]|]; destruct ve as [[]|];
      cbn -[cu]; intros Heq; try discriminate Heq;
      injection Heq as <- <- <-; cbn;
      (repeat split; first [discriminate | (left; discriminate)
                           | (right; discriminate) | idtac]).
  - intros (-> & Hj & -> & -> & Hre).
    destruct j as [|c s]; [congruence |].
    destruct r as [r|], e as [e|]; cbn -[cu]; try reflexivity.
    destruct Hre; congruence.
Qed.

(** C2, as the schema has it.  A body is accepted exactly when [jobId] is
    a non-empty string, each of [result] and [error] is absent or a
    string, and at least one of the two is present; the parsed data are
    those strings.  A body with neither [result] nor [error] is refused,
    with the message of the refinement when its [jobId] is in order; a
    body with both is accepted. *)
Theorem webhook_schema_accepts_iff :
  (forall (b : WebhookCallbackBody) (d : WebhookCallbackInput),
     webhookCallbackSchema b = ParseSuccess d
     <-> (body_jobId b = Some (JStr (jobId d))
          /\ jobId d <> []
          /\ body_result b = JStr <$> result d
          /\ body_error b = JStr <$> error d
          /\ (result d <> None \/ error d <> None)))
  /\ (forall (c : N) (s : JsString) (md : option Json),
        webhookCallbackSchema
          {| body_jobId := Some (JStr (c :: s)); body_result := None;
             body_error := None; body_metadata := md |}
        = ParseFailure [Custom (cu "Either result or error must be provided")])
  /\ (forall (c : N) (s r e : JsString) (md : option Json),
        webhookCallbackSchema
          {| body_jobId := Some (JStr (c :: s)); body_result := Some (JStr r);
             body_error := Some (JStr e); body_metadata := md |}
        = ParseSuccess {| jobId := c :: s; result := Some r; error := Some e |}).
Proof.
  split; [exact webhook_schema_success |]. split.
  - intros c s md. unfold webhookCallbackSchema. now rewrite jobId_field.
  - intros c s r e md. unfold webhookCallbackSchema. now rewrite jobId_field.
Qed.

(** The input that refutes C2 as it is worded: a body that carries both a
    [result] and an [error] is accepted. *)
Lemma both_fields_pass_validation :
  webhookCallbackSchema
    {| body_jobId := Some (JStr sample.id1);
       body_result := Some (JStr (cu "summary text"));
       body_error := Some (JStr (cu "timeout"));
       body_metadata := None |}
  = ParseSuccess
      {| jobId := sample.id1;
         result := Some (cu "summary text");
         error := Some (cu "timeout") |}.
Proof. vm_compute. reflexivity. Qed.

End validation.

(** ** Creation *)

Section creation.
Import js eff bson job_model app job_queue lifecycle.
Context {Q : Type} `{JobQueueInterface Q} {cast : ObjectIdCast}.

Lemma trimStart_length (s : JsString) :
  (List.length (trimStart s) <= List.length s)%nat.
Proof.
  induction s as [|c s IH]; cbn; [lia |].
  destruct (isWhiteSpace c); cbn; lia.
Qed.

Lemma trim_length (s : JsString) : js.length (trim s) <= js.length s.
Proof.
  unfold js.length, trim, trimEnd. apply inj_le.
  rewrite length_rev.
  etransitivity; [apply trimStart_length |].
  rewrite length_rev. apply trimStart_length.
Qed.

(** A record whose prompt is well-formed and which has neither a result
    nor an error is stored as it is. *)
Lemma persisted_well_formed (job : IJob) :
  isWellFormed (prompt job) = true ->
  result job = None -> error job = None ->
  job_repository.persisted job = job.
Proof.
  intros Hp Hr He. apply bool_decide_eq_true in Hp.
  destruct job as [i p st r e ca ua md]. cbn in *. subst r e.
  unfold job_repository.persisted. cbn. now rewrite Hp.
Qed.

(** C6, as the model, the repository and the service have it.  Take a
    prompt of 1 to 10,000 code units and an ObjectId that is not in the
    collection.  If the prompt is not made of white space only,
    [createJob] inserts a record with status [PENDING] and [result] and
    [error] both [null], then submits the text of its identifier to the
    queue, in that order, and once [enqueue] has returned it returns the
    record, which holds the trimmed prompt.  The inserted record holds
    the trimmed prompt with U+FFFD for every surrogate that has no
    partner; it is the returned record when the trimmed prompt is
    well-formed.  If the prompt is made of white space only, the model
    refuses it with a [ValidationError]: nothing is inserted and nothing
    is submitted. *)
Theorem createJob_persists_then_enqueues
    (amb : Ambient) (prompt0 : JsString) (w : World Q) :
  docs w !! objectId amb = None ->
  1 <= js.length prompt0 <= 10000 ->
  if truthy (trim prompt0) then
    let job := created amb prompt0 in
    let stored := job_repository.persisted job in
    let id := toString (objectId amb) in
    let (o, q') := enqueue id (jobQueue w) in
    status job = PENDING /\ result job = None /\ error job = None
    /\ prompt job = trim prompt0
    /\ status stored = PENDING /\ result stored = None /\ error stored = None
    /\ prompt stored = toWellFormed (trim prompt0)
    /\ (isWellFormed (trim prompt0) = true -> stored = job)
    /\ job_service.createJob amb prompt0 w
       = (match o with Returned _ => Returned job | Threw e => Threw e end,
          {| docs := <[objectId amb := stored]> (docs w);
             jobQueue := q';
             effects := effects w ++ [DbInsert stored; QueueEnqueue id] |})
  else
    job_service.createJob amb prompt0 w
    = (Threw (ErrorObj (cu "ValidationError")
                (cu "Job validation failed: prompt: Prompt is required")), w).
Proof.
  intros Hfresh [_ Hmax].
  pose proof (trim_length prompt0) as Htrim.
  unfold job_service.createJob, job_repository.create, job_service.submitted,
    job_service.on_queue, eff.modify, new_Job,
    mbind, Eff_bind, eff.bind, mret, Eff_ret, eff.ret.
  destruct (truthy (trim prompt0)) eqn:Ht; cbn [negb]; [| reflexivity].
  replace (10000 <? js.length (trim prompt0)) with false
    by (symmetry; apply Z.ltb_ge; lia).
  cbn [_id]. rewrite Hfresh. cbn [docs jobQueue effects _id]. cbn zeta.
  destruct (enqueue (toString (objectId amb)) (jobQueue w)) as [o q'] eqn:Hq.
  repeat split.
  - intros Hwf. now apply persisted_well_formed.
  - rewrite <- app_assoc. cbn [app]. destruct o; reflexivity.
Qed.

End creation.

(** The input that refutes C6 as it is worded: the prompt of one space is
    within 1 to 10,000 characters and passes [createJobSchema], yet
    [createJob] throws, and the world is as before: no record, no
    submission. *)
Lemma blank_prompt_is_not_persisted :
  job_schema.createJobSchema
    {| job_schema.body_prompt := Some (job_schema.JStr [32%N]) |}
  = job_schema.ParseSuccess {| job_schema.prompt := [32%N] |}
  /\ job_service.createJob sample.amb1 [32%N] sample.w0
     = (js.Threw (js.ErrorObj (js.cu "ValidationError")
                    (js.cu "Job validation failed: prompt: Prompt is required")),
        sample.w0)
  /\ fst (routes.serve (cast := bson.hex_only) false sample.secret sample.amb1
            (sample.create_request [32%N]) sample.w0)
     = {| job_controller.statusCode := 400;
          job_controller.payload :=
            job_controller.ErrorBody (Some (js.cu "Validation failed"))
              (Some (js.cu "Job validation failed: prompt: Prompt is required")) |}.
Proof. repeat split; vm_compute; reflexivity. Qed.

Lemma createJob_persists_then_enqueues_witness :
  app.docs sample.w0 !! app.objectId sample.amb1 = None
  /\ 1 <= js.length (js.cu " Summarize X ") <= 10000
  /\ job_service.createJob sample.amb1 (js.cu " Summarize X ") sample.w0
     = (js.Returned sample.job_pending, sample.w_pending)
  /\ app.docs sample.w_pending !! sample.oid1 = Some sample.job_pending.
Proof.
  assert (Hfresh : app.docs sample.w0 !! app.objectId sample.amb1 = None)
    by reflexivity.
  assert (Hlen : 1 <= js.length (js.cu " Summarize X ") <= 10000)
    by (vm_compute; split; discriminate).
  split; [exact Hfresh |]. split; [exact Hlen |].
  pose proof (createJob_persists_then_enqueues
                sample.amb1 (js.cu " Summarize X ") sample.w0 Hfresh Hlen) as Hc.
  split; [| vm_compute; reflexivity].
  replace (js.truthy (js.trim (js.cu " Summarize X "))) with true in Hc
    by (vm_compute; reflexivity).
  cbv beta iota zeta
    delta [job_queue.enqueue mock_job_queue.MockJobQueue_interface
           mock_job_queue.enqueue] in Hc.
  destruct Hc as (_ & _ & _ & _ & _ & _ & _ & _ & _ & Hc).
  refine (eq_trans Hc _). vm_compute. reflexivity.
Defined.

(** ** The mock queue *)

Section shutdown.
Import js eff mock_job_queue.

(** C8, as the queue has it.  [shutdown] returns, empties [pendingJobs]
    and leaves the started tasks as they are; a second [shutdown] changes
    neither.  The queue keeps no record of having been shut down: an
    [enqueue] made afterwards returns, puts the job in [pendingJobs] and
    starts its execution task like any other. *)
Theorem shutdown_clears_bookkeeping_only (q : MockJobQueue) (jobId : JsString) :
  let q1 := snd (shutdown q) in
  let q2 := snd (shutdown q1) in
  let q3 := snd (enqueue jobId q1) in
  fst (shutdown q) = Returned tt
  /\ pendingJobs q1 = ∅
  /\ tasks q1 = tasks q
  /\ fst (shutdown q1) = Returned tt
  /\ pendingJobs q2 = pendingJobs q1
  /\ tasks q2 = tasks q1
  /\ fst (enqueue jobId q1) = Returned tt
  /\ pendingJobs q3 = {[jobId]}
  /\ tasks q3 = tasks q ++ [jobId].
Proof.
  cbn. repeat split. apply (left_id_L ∅ (∪)).
Qed.

(** The input that refutes C8 as it is worded: on a queue that has been
    shut down, [enqueue] starts an execution task. *)
Lemma enqueue_after_shutdown_starts_a_task :
  let q1 := snd (shutdown new_MockJobQueue) in
  tasks q1 = []
  /\ tasks (snd (enqueue sample.id1 q1)) = [sample.id1]
  /\ tasks (snd (enqueue sample.id1 q1)) <> tasks q1.
Proof. cbn. repeat split. discriminate. Qed.

End shutdown.

Section execution.
Import js eff ai_processor mock_job_queue task.
Variable config : JobQueueConfig.
Variable aiProcessor : AIProcessorInterface.
Variable fetch : Network.

Ltac run_task :=
  unfold processJob, attempt, report_error, call, emit, eff.try_catch,
    eff.modify, eff.throw, mbind, Eff_bind, eff.bind, mret, Eff_ret, eff.ret;
  cbn beta iota.

Ltac split_outcomes :=
  repeat match goal with
    | |- context [match ?x with _ => _ end] => destruct x eqn:?; cbn beta iota
    end.

Lemma failure_reports_app (t1 t2 : list Event) :
  failure_reports (t1 ++ t2) = failure_reports t1 ++ failure_reports t2.
Proof. apply omap_app. Qed.

Lemma processJob_returns (jobId : JsString) (t : list Event) :
  fst (processJob config aiProcessor fetch jobId t) = Returned tt.
Proof.
  run_task.
  destruct (promptFetcher config jobId _) as [[[|c p]|]|e1]; cbn beta iota;
    try (destruct (fetch _ _); reflexivity).
  destruct (process aiProcessor jobId _ _) as [r|e2]; cbn beta iota;
    try (destruct (fetch _ _); reflexivity).
  destruct (fetch (post config (success_report jobId r)) _) as [resp|e3];
    cbn beta iota.
  - destruct (ok resp); reflexivity.
  - destruct (fetch _ _); reflexivity.
Qed.

Lemma processJob_after_failure (jobId : JsString) (t : list Event) (e : Thrown) :
  step_fails config aiProcessor fetch jobId t e ->
  failure_reports (snd (processJob config aiProcessor fetch jobId t))
  = failure_reports t ++ [post config (failure_report jobId e)].
Proof.
  intros Hf. run_task.
  destruct Hf as [e Hl | p Hl Hp | p e Hl Hp Hb | p r e Hl Hp Hb Hd];
    unfold at_delivery, at_process, at_lookup in *; rewrite Hl; cbn beta iota.
  - destruct (fetch (post config (failure_report _ _)) _); cbn [snd];
      rewrite !failure_reports_app; cbn; now rewrite !app_nil_r.
  - destruct p as [[|c p]|]; try discriminate Hp;
      destruct (fetch (post config (failure_report _ _)) _); cbn [snd];
      rewrite !failure_reports_app; cbn; now rewrite !app_nil_r.
  - destruct p as [|c p]; [discriminate Hp |]. rewrite Hb. cbn beta iota.
    destruct (fetch (post config (failure_report _ _)) _); cbn [snd];
      rewrite !failure_reports_app; cbn; now rewrite !app_nil_r.
  - destruct p as [|c p]; [discriminate Hp |]. rewrite Hb. cbn beta iota.
    rewrite Hd. cbn beta iota.
    destruct (fetch (post config (failure_report _ _)) _); cbn [snd];
      rewrite !failure_reports_app; cbn; now rewrite !app_nil_r.
Qed.

Lemma processJob_after_answer (jobId p : JsString) (t : list Event)
    (r : AIProcessingResult) (response : FetchResponse) :
  delivery_answered config aiProcessor fetch jobId t p r response ->
  snd (processJob config aiProcessor fetch jobId t)
  = at_delivery jobId p t
      ++ [Fetch (post config (success_report jobId r));
          Console (if ok response then LogCompleted jobId
                   else LogWebhookFailed jobId (status response))].
Proof.
  intros [p' r' resp Hl Hp Hb Hd]. run_task.
  unfold at_delivery, at_process, at_lookup in *. rewrite Hl. cbn beta iota.
  destruct p' as [|c p']; [discriminate Hp |]. rewrite Hb. cbn beta iota.
  rewrite Hd. cbn beta iota.
  destruct (ok resp); cbn; now rewrite <- !app_assoc.
Qed.

(** The promise that [enqueue] leaves behind never rejects, and once it
    has settled the job is out of [pendingJobs]. *)
Lemma settle_returns (jobId : JsString) (q : MockJobQueue) :
  fst (settle config aiProcessor fetch jobId q) = Returned tt
  /\ jobId ∉ pendingJobs (snd (settle config aiProcessor fetch jobId q)).
Proof.
  unfold settle.
  pose proof (processJob_returns jobId (trace q)) as Hr.
  destruct (processJob config aiProcessor fetch jobId (trace q)) as [o t].
  cbn [fst snd pendingJobs] in *. split; [exact Hr |].
  intros Hin. apply elem_of_difference in Hin as [_ Hn].
  apply Hn, elem_of_singleton. reflexivity.
Qed.

(** C7, as the task has it.  [processJob] always returns: it never
    throws.  When a step fails by throwing (the lookup throws or finds
    no prompt, the processor throws, or the call that delivers the
    completion report throws), the task sends exactly one failure report
    [{ jobId, error }], built from what was thrown, and sends it to the
    endpoint of the completion report; this holds whether the second
    delivery is answered or throws, so a failure of it is swallowed.
    When the delivery of the completion report is answered, with a
    success status or with any other, the task only logs the answer and
    sends no failure report. *)
Theorem processJob_reports_thrown_failures (jobId : JsString) (t : list Event) :
  fst (processJob config aiProcessor fetch jobId t) = Returned tt
  /\ (forall e : Thrown,
        step_fails config aiProcessor fetch jobId t e ->
        failure_reports (snd (processJob config aiProcessor fetch jobId t))
        = failure_reports t ++ [post config (failure_report jobId e)])
  /\ (forall (p : JsString) (r : AIProcessingResult) (response : FetchResponse),
        delivery_answered config aiProcessor fetch jobId t p r response ->
        snd (processJob config aiProcessor fetch jobId t)
        = at_delivery jobId p t
            ++ [Fetch (post config (success_report jobId r));
                Console (if ok response then LogCompleted jobId
                         else LogWebhookFailed jobId (status response))]
        /\ failure_reports (snd (processJob config aiProcessor fetch jobId t))
           = failure_reports t)
  /\ (forall (e : Thrown) (r : AIProcessingResult),
        url (post config (failure_report jobId e))
        = url (post config (success_report jobId r))).
Proof.
  split; [apply processJob_returns |].
  split; [apply processJob_after_failure |].
  split; [| reflexivity].
  intros p r response Ha.
  rewrite (processJob_after_answer _ _ _ _ _ Ha). split; [reflexivity |].
  unfold at_delivery, at_process, at_lookup.
  rewrite !failure_reports_app. cbn.
  destruct (ok response); cbn; now rewrite !app_nil_r.
Qed.

End execution.

(** The input that refutes C7 as it is worded: the delivery of the
    completion report fails with status 500, and the task sends no failure
    report; it logs the status and ends. *)
Lemma refused_delivery_is_not_reported :
  let t := snd (mock_job_queue.processJob sample.found sample.answers
                  sample.refuses sample.id1 []) in
  t = [ mock_job_queue.Console (mock_job_queue.LogProcessing sample.id1);
        mock_job_queue.PromptFetch sample.id1;
        mock_job_queue.Console (mock_job_queue.LogCallingAI sample.id1);
        mock_job_queue.AiProcess sample.id1 (js.cu "Summarize X");
        mock_job_queue.Fetch
          (mock_job_queue.post sample.found
             (mock_job_queue.success_report sample.id1 sample.answer));
        mock_job_queue.Console
          (mock_job_queue.LogWebhookFailed sample.id1 500) ]
  /\ task.failure_reports t = [].
Proof. split; reflexivity. Qed.

Lemma processJob_reports_thrown_failures_witness :
  task.step_fails sample.lost sample.answers sample.down sample.id1 []
    (js.new_Error (js.cu "Job " ++ sample.id1 ++ js.cu " not found or has no prompt"))
  /\ fst (mock_job_queue.processJob sample.lost sample.answers sample.down
            sample.id1 []) = js.Returned tt
  /\ task.failure_reports
       (snd (mock_job_queue.processJob sample.lost sample.answers sample.down
               sample.id1 []))
     = [ mock_job_queue.post sample.lost
           (mock_job_queue.failure_report sample.id1
              (js.new_Error
                 (js.cu "Job " ++ sample.id1 ++ js.cu " not found or has no prompt"))) ].
Proof.
  assert (Hf : task.step_fails sample.lost sample.answers sample.down sample.id1 []
                 (js.new_Error
                    (js.cu "Job " ++ sample.id1 ++ js.cu " not found or has no prompt")))
    by (apply (task.lookup_nothing sample.lost sample.answers sample.down sample.id1 [] None); reflexivity).
  destruct (processJob_reports_thrown_failures sample.lost sample.answers
              sample.down sample.id1 []) as (Hret & Hfail & _).
  split; [exact Hf |]. split; [exact Hret |].
  exact (Hfail _ Hf).
Defined.

(** ** The invariant of the job record *)

Section invariant.
Import js eff bson job_model app job_queue job_controller routes lifecycle.
Context {Q : Type} `{JobQueueInterface Q} {cast : ObjectIdCast}.
Variable production : bool.
Variable WEBHOOK_SECRET : JsString.

(** Answering does not touch the world. *)
Lemma respond_world (m : Eff (World Q) HttpResponse) (w : World Q) :
  snd (respond production m w) = snd (m w).
Proof. unfold respond. now destruct (m w) as [[r|e] w']. Qed.

Lemma bind_world {A B} (m : Eff (World Q) A) (k : A -> Eff (World Q) B)
    (w : World Q) :
  (forall a s, snd (k a s) = s) ->
  snd ((m ≫= k) w) = snd (m w).
Proof.
  intros Hk. unfold mbind, Eff_bind, eff.bind.
  destruct (m w) as [[a|e] w']; [apply Hk | reflexivity].
Qed.

Lemma createJob_docs (amb : Ambient) (p : JsString) (w : World Q) :
  docs (snd (job_service.createJob amb p w)) = docs w
  \/ docs (snd (job_service.createJob amb p w))
     = <[objectId amb := job_repository.persisted (created amb p)]> (docs w).
Proof.
  unfold job_service.createJob, job_repository.create, job_service.submitted,
    job_service.on_queue, eff.modify, new_Job,
    mbind, Eff_bind, eff.bind, mret, Eff_ret, eff.ret.
  destruct (negb (truthy (trim p))); [now left |].
  destruct (10000 <? js.length (trim p)); [now left |].
  cbn [_id]. destruct (docs w !! objectId amb); [now left |].
  cbn [docs jobQueue effects _id].
  destruct (enqueue (toString (objectId amb)) (jobQueue w)) as [[[]|e] q'];
    now right.
Qed.

Lemma finalized_keeps_invariant (amb : Ambient) (r e : option JsString)
    (job : IJob) :
  r <> Some [] -> e <> Some [] -> (r <> None \/ e <> None) ->
  finalized_invariant (finalized amb r e job) = true.
Proof.
  intros Hr He Hre. unfold finalized_invariant, finalized. cbn.
  destruct e as [[|c e]|]; [now elim He | reflexivity |].
  destruct r as [[|c r]|]; [now elim Hr | reflexivity |].
  destruct Hre as [Hn | Hn]; now elim Hn.
Qed.

(** What serving one request does to the collection. *)
Lemma serve_docs (amb : Ambient) (r : Request) (w : World Q) :
  let w' := snd (serve production WEBHOOK_SECRET amb r w) in
  docs w' = docs w
  \/ (exists id j, docs w' = <[id := j]> (docs w)
                   /\ (no_empty_text r -> finalized_invariant j = true))
  \/ (exists id, docs w' = base.delete id (docs w)).
Proof.
  destruct r as [body | secret body | id | id]; cbn zeta; unfold serve.
  - unfold validateBody.
    destruct (job_schema.createJobSchema body) as [data|]; [| now left].
    unfold job_controller.createJob. rewrite respond_world.
    rewrite bind_world by reflexivity.
    destruct (createJob_docs amb (job_schema.prompt data) w) as [-> | ->];
      [now left |].
    right; left. eexists _, _. split; [reflexivity | reflexivity].
  - destruct (webhookAuth WEBHOOK_SECRET secret); [now left |].
    unfold validateBody.
    destruct (job_schema.webhookCallbackSchema body) as [data|] eqn:Hs;
      [| now left].
    apply webhook_schema_success in Hs as (_ & _ & Hr & He & Hre).
    unfold job_controller.webhookCallback. rewrite respond_world.
    rewrite bind_world by (now intros [j|] s).
    destruct (castObjectId (job_schema.jobId data)) as [oid|] eqn:Hc;
      [| rewrite (callback_uncastable _ _ _ _ _ Hc); now left].
    destruct (docs w !! oid) as [job|] eqn:Hd.
    + destruct (terminal (status job)) eqn:Ht.
      * rewrite (callback_terminal _ _ _ _ _ _ _ Hc Hd Ht). now left.
      * assert (Hp : status job = PENDING)
          by (destruct (status job); [reflexivity | discriminate ..]).
        rewrite (callback_pending _ _ _ _ _ _ _ Hc Hd Hp).
        right; left. eexists _, _. split; [reflexivity |].
        intros [Hnr Hne]. apply finalized_keeps_invariant; [| | exact Hre].
        -- intros Heq. apply Hnr. now rewrite Hr, Heq.
        -- intros Heq. apply Hne. now rewrite He, Heq.
    + rewrite (callback_unknown _ _ _ _ _ _ Hc Hd). now left.
  - unfold job_controller.simulateHallucination. rewrite respond_world.
    rewrite bind_world by (now intros [j|] s).
    destruct (castObjectId id) as [oid|] eqn:Hc;
      [| rewrite (hallucinate_uncastable _ _ _ Hc); now left].
    destruct (docs w !! oid) as [job|] eqn:Hd.
    + rewrite (hallucinate_known _ _ _ _ _ Hc Hd).
      right; left. eexists _, _. split; reflexivity.
    + rewrite (hallucinate_unknown _ _ _ _ Hc Hd). now left.
  - unfold job_controller.deleteJob. rewrite respond_world.
    rewrite bind_world by (now intros [] s).
    destruct (castObjectId id) as [oid|] eqn:Hc;
      [| rewrite (delete_uncastable _ _ Hc); now left].
    destruct (docs w !! oid) as [job|] eqn:Hd.
    + rewrite (delete_known _ _ _ _ Hc Hd). right; right. now exists oid.
    + rewrite (delete_unknown _ _ _ Hc Hd). now left.
Qed.

(** C3, as the handlers keep it.  In every world reached by serving
    requests whose completion reports carry no empty text, every record
    satisfies: while [PENDING], [result] and [error] are both [null];
    once [COMPLETED], [result] is set and [error] is [null]; once
    [FAILED], [error] is set, with or without a [result], since a report
    that carries both is accepted.  Creation, finalization by a callback,
    anomaly simulation and deletion all preserve this. *)
Theorem reachable_records_keep_invariant (w : World Q) :
  reachable production WEBHOOK_SECRET no_empty_text w ->
  all_records finalized_invariant (docs w).
Proof.
  induction 1 as [q | w amb r Hw IH Hr].
  - apply map_Forall_empty.
  - destruct (serve_docs amb r w) as [-> | [(id & j & -> & Hj) | (id & ->)]].
    + exact IH.
    + apply map_Forall_insert_2; [now apply Hj | exact IH].
    + now apply map_Forall_delete.
Qed.

End invariant.

(** The input that refutes C3 as it is worded: after a job is created and
    a report with both a [result] and an [error] is applied, the world is
    reachable and its record is [FAILED] with both fields set. *)
Lemma report_with_both_fields_breaks_invariant :
  lifecycle.reachable (cast := bson.hex_only) false sample.secret
    lifecycle.no_empty_text sample.w_both
  /\ exists j,
       app.docs sample.w_both !! sample.oid1 = Some j
       /\ job_model.status j = job_model.FAILED
       /\ job_model.result j = Some (js.cu "summary text")
       /\ job_model.error j = Some (js.cu "timeout")
       /\ lifecycle.record_invariant j = false.
Proof.
  split.
  - unfold sample.w_both, sample.w_pending, sample.run.
    apply lifecycle.reach_serve; [apply lifecycle.reach_serve |].
    + apply lifecycle.reach_init.
    + exact I.
    + split; discriminate.
  - exists (lifecycle.finalized sample.amb2 (Some (js.cu "summary text"))
              (Some (js.cu "timeout")) sample.job_pending).
    repeat split; vm_compute; reflexivity.
Qed.

Lemma reachable_records_keep_invariant_witness :
  lifecycle.reachable (cast := bson.hex_only) false sample.secret
    lifecycle.no_empty_text sample.w_completed
  /\ lifecycle.all_records lifecycle.finalized_invariant
       (app.docs sample.w_completed).
Proof.
  assert (Hr : lifecycle.reachable (cast := bson.hex_only) false sample.secret
                 lifecycle.no_empty_text sample.w_completed).
  { unfold sample.w_completed, sample.w_pending, sample.run.
    apply lifecycle.reach_serve; [apply lifecycle.reach_serve |].
    - apply lifecycle.reach_init.
    - exact I.
    - split; discriminate. }
  split; [exact Hr |].
  exact (reachable_records_keep_invariant false sample.secret
           sample.w_completed Hr).
Defined.

(** ** The usage metadata of a finalizing write *)

Section usage.
Import js eff bson job_model app job_queue job_controller routes lifecycle.
Context {Q : Type} `{JobQueueInterface Q} {cast : ObjectIdCast}.

(** The literal [0.00002] is a canonical binary64 value and the one
    nearest to 2/100000: with [m = 5902958103587057] it is [m * 2^-68],
    and [|m / 2^68 - 2 / 10^5| <= 2^-69]. *)
Lemma lit_0_00002_nearest :
  valid_binary prec emax lit_0_00002 = true
  /\ 2 * Z.abs (5902958103587057 * 10 ^ 5 - 2 * 2 ^ 68) <= 10 ^ 5.
Proof. split; [reflexivity | vm_compute; discriminate]. Qed.

(** [60 * 0.00002] is [0x1.3a92a30553262p-10], which JavaScript prints as
    [0.0012000000000000001]. *)
Example cost_of_60_tokens :
  mul (of_Z 60) lit_0_00002 = S754_finite false 5534023222112866 (-62).
Proof. reflexivity. Qed.

Lemma count_table_spec (n c k : Z) :
  count_table n c = true ->
  0 <= k < n ->
  add (of_Z k) (of_Z c) = of_Z (k + c) /\ truthy_num (of_Z (k + c)) = true.
Proof.
  unfold count_table. intros Ht Hk.
  rewrite forallb_forall in Ht.
  assert (Hin : In k (seqZ 0 n))
    by (apply list_elem_of_In, elem_of_seqZ; lia).
  apply Ht, andb_true_iff in Hin as [Hs Hy].
  split; [now apply bool_decide_eq_true_1 in Hs | exact Hy].
Qed.

Lemma prompt_count_table : count_table 100 10 = true.
Proof. vm_compute. reflexivity. Qed.

Lemma completion_count_table : count_table 200 50 = true.
Proof. vm_compute. reflexivity. Qed.

Lemma or_zero_truthy (x : Number) :
  truthy_num x = true -> or_zero (Some x) = x.
Proof. intros Hx. unfold or_zero. now rewrite Hx. Qed.

Lemma mock_metadata_in_range (amb : Ambient) :
  in_range amb ->
  job_service.mock_metadata amb
  = expected_metadata (draw100 amb) (draw200 amb).
Proof.
  intros [H1 H2].
  destruct (count_table_spec _ _ _ prompt_count_table H1) as [Hp Hpt].
  destruct (count_table_spec _ _ _ completion_count_table H2) as [Hc Hct].
  unfold job_service.mock_metadata, expected_metadata.
  cbn [promptTokens completionTokens totalTokens estimatedCost job_service.num
       default].
  rewrite Hp, Hc, !or_zero_truthy by assumption.
  reflexivity.
Qed.

Lemma schema_ignores_metadata (b b' : job_schema.WebhookCallbackBody) :
  same_report b b' ->
  job_schema.webhookCallbackSchema b = job_schema.webhookCallbackSchema b'.
Proof.
  intros (Hj & Hr & He). unfold job_schema.webhookCallbackSchema.
  now rewrite Hj, Hr, He.
Qed.

(** C10. The route of the callback does not read the key [metadata] of
    the report: two reports that differ at most there are answered alike
    and leave the same world.  On a [PENDING] job the handler writes,
    on the [FAILED] and on the [COMPLETED] path alike, the metadata it
    builds itself from its two draws: [promptTokens] and
    [completionTokens] are the integers [draw100 + 10] and
    [draw200 + 50], [totalTokens] is their sum and [estimatedCost] is the
    product of [totalTokens] and [0.00002], sum and product being those
    of binary64 numbers.  [jobId] is any string that the cast takes to
    the ObjectId of the record. *)
Theorem callback_metadata_is_the_handlers_own
    (production : bool) (WEBHOOK_SECRET : JsString)
    (amb : Ambient) (w : World Q) :
  (forall secret b b',
     same_report b b' ->
     serve production WEBHOOK_SECRET amb (PostWebhookCallback secret b) w
     = serve production WEBHOOK_SECRET amb (PostWebhookCallback secret b') w)
  /\ (forall jobId oid job r e,
        castObjectId jobId = Some oid ->
        docs w !! oid = Some job ->
        status job = PENDING ->
        in_range amb ->
        exists job' pt ct tt,
          job_service.handleWebhookCallback amb jobId r e w
          = (Returned (Some job'), updated oid job' w)
          /\ status job' = (if truthy_opt e then FAILED else COMPLETED)
          /\ metadata job'
             = {| promptTokens := Some pt; completionTokens := Some ct;
                  totalTokens := Some tt;
                  estimatedCost := Some (mul tt lit_0_00002) |}
          /\ tt = add pt ct
          /\ pt = of_Z (draw100 amb + 10)
          /\ ct = of_Z (draw200 amb + 50)).
Proof.
  split.
  - intros secret b b' Hs. unfold serve.
    now rewrite (schema_ignores_metadata b b' Hs).
  - intros jobId oid job r e Hc Hd Hp Hin.
    exists (finalized amb r e job), (of_Z (draw100 amb + 10)),
      (of_Z (draw200 amb + 50)),
      (add (of_Z (draw100 amb + 10)) (of_Z (draw200 amb + 50))).
    split; [now apply callback_pending |].
    split; [reflexivity |].
    split; [exact (mock_metadata_in_range amb Hin) |].
    repeat split.
Qed.

End usage.

Lemma callback_metadata_is_the_handlers_own_witness :
  bson.castObjectId (ObjectIdCast := bson.hex_only) sample.id1 = Some sample.oid1
  /\ app.docs sample.w_pending !! sample.oid1 = Some sample.job_pending
  /\ job_model.status sample.job_pending = job_model.PENDING
  /\ lifecycle.in_range sample.amb2
  /\ exists job' pt ct tt,
       job_service.handleWebhookCallback (cast := bson.hex_only) sample.amb2
         sample.id1 (Some (js.cu "summary text")) None sample.w_pending
       = (js.Returned (Some job'),
          lifecycle.updated sample.oid1 job' sample.w_pending)
       /\ job_model.status job' = job_model.COMPLETED
       /\ job_model.metadata job'
          = {| job_model.promptTokens := Some pt;
               job_model.completionTokens := Some ct;
               job_model.totalTokens := Some tt;
               job_model.estimatedCost := Some (js.mul tt js.lit_0_00002) |}
       /\ tt = js.add pt ct
       /\ pt = js.of_Z 17
       /\ ct = js.of_Z 249.
Proof.
  assert (Hc : bson.castObjectId (ObjectIdCast := bson.hex_only) sample.id1
               = Some sample.oid1) by (vm_compute; reflexivity).
  assert (Hd : app.docs sample.w_pending !! sample.oid1 = Some sample.job_pending)
    by (vm_compute; reflexivity).
  assert (Hin : lifecycle.in_range sample.amb2)
    by (unfold lifecycle.in_range; cbn; lia).
  split; [exact Hc |]. split; [exact Hd |]. split; [reflexivity |].
  split; [exact Hin |].
  destruct (callback_metadata_is_the_handlers_own (cast := bson.hex_only)
              false sample.secret sample.amb2 sample.w_pending) as [_ Hw].
  exact (Hw sample.id1 sample.oid1 sample.job_pending
           (Some (js.cu "summary text")) None Hc Hd eq_refl Hin).
Defined.

(** * Further properties of the request layer *)

Section requests.
Import js eff bson job_model job_schema app job_queue job_controller routes.
Context {Q : Type} `{JobQueueInterface Q} {cast : ObjectIdCast}.

Lemma createJobSchema_accepts (p : JsString) :
  1 <= js.length p <= 10000 ->
  createJobSchema {| body_prompt := Some (JStr p) |}
  = ParseSuccess {| prompt := p |}.
Proof.
  intros [Hlo Hhi]. unfold createJobSchema. cbn -[cu Z.ltb].
  destruct (Z.ltb_spec (js.length p) 1); [lia |]. cbn -[cu Z.ltb].
  destruct (Z.ltb_spec 10000 (js.length p)); [lia | reflexivity].
Qed.

(** X1. [createJobSchema] accepts a body exactly when its [prompt] is a
    string of 1 to 10,000 code units, and hands that string on as it is:
    the empty string, a longer one and a value that is no string are all
    refused. *)
Theorem createJobSchema_accepts_iff (b : CreateJobBody) (d : CreateJobInput) :
  createJobSchema b = ParseSuccess d
  <-> body_prompt b = Some (JStr (prompt d))
      /\ 1 <= js.length (prompt d) <= 10000.
Proof.
  destruct b as [v], d as [p]. unfold createJobSchema.
  cbn [body_prompt prompt]. split.
  - destruct v as [[| | |s| |]|]; cbn -[cu Z.ltb]; try discriminate.
    destruct (Z.ltb_spec (js.length s) 1); cbn -[cu Z.ltb].
    + destruct (10000 <? js.length s); discriminate.
    + destruct (Z.ltb_spec 10000 (js.length s)); [discriminate |].
      intros [= ->]. split; [reflexivity | lia].
  - intros [-> Hlen]. now apply createJobSchema_accepts.
Qed.

(** X2. [jobStatusQuerySchema] accepts a [status] exactly when it is
    absent or is one of the three status names, letter for letter, and
    reads a name back as the status it names. *)
Theorem jobStatusQuerySchema_accepts_iff :
  (forall s : JobStatusType,
     jobStatusQuerySchema (Some (JStr (status_name s))) = inr (Some s))
  /\ (forall (v : option Json) (o : option JobStatusType),
        jobStatusQuerySchema v = inr o
        <-> v = (fun s => JStr (status_name s)) <$> o)
  /\ jobStatusQuerySchema (Some (JStr (cu "pending")))
     = inl StatusInvalidEnumValue.
Proof.
  split; [intros []; reflexivity |]. split; [| reflexivity].
  intros v o. split.
  - destruct v as [[| | |s| |]|]; cbn -[status_name]; try discriminate.
    + repeat case_bool_decide; intros Heq; try discriminate Heq;
        injection Heq as <-; subst; reflexivity.
    + intros [= <-]. reflexivity.
  - intros ->. destruct o as [[]|]; reflexivity.
Qed.

(** X3. [webhookAuth] lets a request through exactly when the header is a
    single string, not empty, and equal to the configured secret.  Every
    other request is answered 401 or 403, and through the route it leaves
    the world as it was, whatever its body. *)
Theorem webhookAuth_passes_iff
    (production : bool) (WEBHOOK_SECRET : JsString) (amb : Ambient)
    (provided : option HeaderValue) (body : WebhookCallbackBody) (w : World Q) :
  (webhookAuth WEBHOOK_SECRET provided = None
   <-> provided = Some (HeaderString WEBHOOK_SECRET) /\ WEBHOOK_SECRET <> [])
  /\ (forall refusal,
        webhookAuth WEBHOOK_SECRET provided = Some refusal ->
        (statusCode refusal = 401 \/ statusCode refusal = 403)
        /\ serve production WEBHOOK_SECRET amb
             (PostWebhookCallback provided body) w
           = (refusal, w)).
Proof.
  split.
  - unfold webhookAuth. split.
    + destruct provided as [[[|c s]|l]|]; try discriminate.
      case_bool_decide as Hs; [discriminate |].
      intros _. subst. split; [reflexivity | discriminate].
    + intros [-> Hne]. destruct WEBHOOK_SECRET as [|c s]; [congruence |].
      now rewrite bool_decide_eq_false_2 by (intros Hn; now apply Hn).
  - intros refusal Hr. split.
    + unfold webhookAuth in Hr.
      destruct provided as [[[|c s]|l]|]; try case_bool_decide;
        try discriminate; injection Hr as <-; cbn; auto.
    + unfold serve. now rewrite Hr.
Qed.

Lemma secret_passes (WEBHOOK_SECRET : JsString) :
  WEBHOOK_SECRET <> [] ->
  webhookAuth WEBHOOK_SECRET (Some (HeaderString WEBHOOK_SECRET)) = None.
Proof.
  intros Hne. unfold webhookAuth.
  destruct WEBHOOK_SECRET as [|c s]; [congruence |].
  now rewrite bool_decide_eq_false_2 by (intros Hn; now apply Hn).
Qed.

(** X4. A completion report that is authorised and valid changes nothing
    when it names no job of the collection: if its [jobId] is cast to an
    ObjectId that the collection does not hold, the answer is 404 "Job
    not found"; if its [jobId] cannot be cast to an ObjectId, the answer
    is 400 "Invalid ID format". *)
Theorem callback_for_unknown_job_is_404
    (production : bool) (WEBHOOK_SECRET : JsString) (amb : Ambient)
    (body : WebhookCallbackBody) (d : WebhookCallbackInput) (w : World Q) :
  WEBHOOK_SECRET <> [] ->
  webhookCallbackSchema body = ParseSuccess d ->
  serve production WEBHOOK_SECRET amb
    (PostWebhookCallback (Some (HeaderString WEBHOOK_SECRET)) body) w
  = match castObjectId (jobId d) with
    | Some oid =>
        match docs w !! oid with
        | None =>
            ({| statusCode := 404;
                payload := ErrorBody (Some (cu "Job not found")) None |}, w)
        | Some _ =>
            job_controller.webhookCallback production amb d w
        end
    | None =>
        ({| statusCode := 400;
            payload := ErrorBody (Some (cu "Invalid ID format")) None |}, w)
    end.
Proof.
  intros Hne Hs. unfold serve.
  rewrite (secret_passes _ Hne). unfold validateBody. rewrite Hs.
  destruct (castObjectId (jobId d)) as [oid|] eqn:Hc.
  - destruct (docs w !! oid) eqn:Hd; [reflexivity |].
    unfold job_controller.webhookCallback, respond, mbind, Eff_bind, eff.bind.
    now rewrite (callback_unknown _ _ _ _ _ _ Hc Hd).
  - unfold job_controller.webhookCallback, respond, mbind, Eff_bind, eff.bind.
    now rewrite (callback_uncastable _ _ _ _ _ Hc).
Qed.

End requests.

Lemma callback_for_unknown_job_is_404_witness :
  sample.secret <> []
  /\ job_schema.webhookCallbackSchema
       {| job_schema.body_jobId := Some (job_schema.JStr sample.abc);
          job_schema.body_result := Some (job_schema.JStr (js.cu "summary text"));
          job_schema.body_error := None;
          job_schema.body_metadata := None |}
     = job_schema.ParseSuccess
         {| job_schema.jobId := sample.abc;
            job_schema.result := Some (js.cu "summary text");
            job_schema.error := None |}
  /\ routes.serve (cast := bson.hex_only) false sample.secret sample.amb2
       (routes.PostWebhookCallback sample.header
          {| job_schema.body_jobId := Some (job_schema.JStr sample.abc);
             job_schema.body_result :=
               Some (job_schema.JStr (js.cu "summary text"));
             job_schema.body_error := None;
             job_schema.body_metadata := None |}) sample.w_pending
     = ({| job_controller.statusCode := 400;
           job_controller.payload :=
             job_controller.ErrorBody (Some (js.cu "Invalid ID format")) None |},
        sample.w_pending).
Proof.
  assert (Hne : sample.secret <> []) by discriminate.
  assert (Hs : job_schema.webhookCallbackSchema
       {| job_schema.body_jobId := Some (job_schema.JStr sample.abc);
          job_schema.body_result := Some (job_schema.JStr (js.cu "summary text"));
          job_schema.body_error := None;
          job_schema.body_metadata := None |}
     = job_schema.ParseSuccess
         {| job_schema.jobId := sample.abc;
            job_schema.result := Some (js.cu "summary text");
            job_schema.error := None |}) by (vm_compute; reflexivity).
  split; [exact Hne |]. split; [exact Hs |].
  exact (callback_for_unknown_job_is_404 (cast := bson.hex_only) false
           sample.secret sample.amb2 _ _ sample.w_pending Hne Hs).
Defined.

Lemma webhookAuth_passes_iff_witness :
  routes.webhookAuth sample.secret None
  = Some {| job_controller.statusCode := 401;
            job_controller.payload :=
              job_controller.ErrorBody
                (Some (js.cu "Missing X-Shared-Secret header")) None |}
  /\ routes.serve (cast := bson.hex_only) false sample.secret sample.amb2
       (routes.PostWebhookCallback None
          {| job_schema.body_jobId := Some (job_schema.JStr sample.id1);
             job_schema.body_result := Some (job_schema.JStr (js.cu "forged"));
             job_schema.body_error := None;
             job_schema.body_metadata := None |})
       sample.w_pending
     = ({| job_controller.statusCode := 401;
           job_controller.payload :=
             job_controller.ErrorBody
               (Some (js.cu "Missing X-Shared-Secret header")) None |},
        sample.w_pending).
Proof.
  assert (Hr : routes.webhookAuth sample.secret None
               = Some {| job_controller.statusCode := 401;
                         job_controller.payload :=
                           job_controller.ErrorBody
                             (Some (js.cu "Missing X-Shared-Secret header"))
                             None |}) by reflexivity.
  split; [exact Hr |].
  exact (proj2 (proj2 (webhookAuth_passes_iff (cast := bson.hex_only) false
                         sample.secret sample.amb2 None _ sample.w_pending)
                  _ Hr)).
Defined.

(** * Further properties of the collection *)

Section collection.
Import js eff bson job_model app job_queue job_controller lifecycle store.
Context {Q : Type} `{JobQueueInterface Q} {cast : ObjectIdCast}.

(** The text of an ObjectId has no letter in upper case. *)
Lemma toString_lower (oid : ObjectId) :
  List.map toLowerHex (toString oid) = toString oid.
Proof.
  destruct oid as [t p]. unfold toString. cbn [proj1_sig].
  pose proof (bool_decide_unpack _ p) as Hc.
  unfold isHexString in Hc. apply andb_true_iff in Hc as [_ Hc].
  clear p. induction t as [|c t IH]; [reflexivity |].
  cbn in Hc. apply andb_true_iff in Hc as [Hc Ht].
  cbn [List.map]. rewrite (IH Ht). f_equal.
  unfold toLowerHex, isUpperHex, isDigit, isLowerHex in *.
  destruct (65 <=? c)%N eqn:H1, (c <=? 70)%N eqn:H2; cbn; try reflexivity.
  exfalso. apply orb_true_iff in Hc as [Hc|Hc];
    apply andb_true_iff in Hc as [Ha Hb];
    apply N.leb_le in H1, H2, Ha, Hb; lia.
Qed.

(** The text of an ObjectId is cast back to it. *)
Lemma cast_toString (oid : ObjectId) : castObjectId (toString oid) = Some oid.
Proof. apply cast_hex, toString_lower. Qed.

Lemma getJob_found (production : bool) (id : JsString) (oid : ObjectId)
    (job : IJob) (w : World Q) :
  castObjectId id = Some oid ->
  docs w !! oid = Some job ->
  job_service.getJob id w = (Returned (Some job), w)
  /\ job_controller.getJob production id w
     = ({| statusCode := 200; payload := JobData None job |}, w).
Proof.
  intros Hc Hd.
  unfold job_controller.getJob, respond, job_service.getJob,
    job_repository.findById, mbind, Eff_bind, eff.bind.
  now rewrite Hc, Hd.
Qed.

Lemma getJob_missing (production : bool) (id : JsString) (oid : ObjectId)
    (w : World Q) :
  castObjectId id = Some oid ->
  docs w !! oid = None ->
  job_service.getJob id w = (Returned None, w)
  /\ job_controller.getJob production id w
     = ({| statusCode := 404;
           payload := ErrorBody (Some (cu "Job not found")) None |}, w).
Proof.
  intros Hc Hd.
  unfold job_controller.getJob, respond, job_service.getJob,
    job_repository.findById, mbind, Eff_bind, eff.bind.
  now rewrite Hc, Hd.
Qed.

(** X5. When [createJob] returns a record, a record is new in the
    collection under the ObjectId it was given, and every other record is
    as before.  The new record is the returned one with its prompt
    made well-formed (U+FFFD for every surrogate that has no partner), so
    it is the returned one when the prompt is well-formed.  Reading it
    back, by [getJob] or by [GET /jobs/:id], under the text of its
    ObjectId or under any other string that is cast to it, gives the
    record of the collection. *)
Theorem created_job_can_be_fetched
    (production : bool) (amb : Ambient) (p : JsString)
    (w w' : World Q) (job : IJob) :
  job_service.createJob amb p w = (Returned job, w') ->
  let stored := job_repository.persisted job in
  _id job = objectId amb
  /\ docs w !! _id job = None
  /\ docs w' !! _id job = Some stored
  /\ (forall oid, oid <> _id job -> docs w' !! oid = docs w !! oid)
  /\ prompt stored = toWellFormed (prompt job)
  /\ (isWellFormed (prompt job) = true -> stored = job)
  /\ castObjectId (toString (_id job)) = Some (_id job)
  /\ (forall id,
        castObjectId id = Some (_id job) ->
        job_service.getJob id w' = (Returned (Some stored), w')
        /\ job_controller.getJob production id w'
           = ({| statusCode := 200; payload := JobData None stored |}, w')).
Proof.
  unfold job_service.createJob, job_repository.create, job_service.submitted,
    job_service.on_queue, eff.modify, new_Job,
    mbind, Eff_bind, eff.bind, mret, Eff_ret, eff.ret.
  destruct (negb (truthy (trim p))); [discriminate |].
  destruct (10000 <? js.length (trim p)); [discriminate |].
  cbn [_id]. destruct (docs w !! objectId amb) eqn:Hfresh; [discriminate |].
  cbn [docs jobQueue effects _id].
  destruct (enqueue (toString (objectId amb)) (jobQueue w)) as [[[]|e] q'];
    [| discriminate].
  intros [= <- <-]. cbn zeta. cbn [_id docs].
  split; [reflexivity |]. split; [exact Hfresh |].
  split; [apply lookup_insert_eq |].
  split; [intros oid Hid; now apply lookup_insert_ne |].
  split; [reflexivity |].
  split; [intros Hwf; now apply persisted_well_formed |].
  split; [apply cast_toString |].
  intros id Hc. apply getJob_found with (objectId amb); [exact Hc |].
  apply lookup_insert_eq.
Qed.

(** X6. [deleteJob] casts the identifier to an ObjectId.  When the cast
    succeeds, it answers whether the collection held that ObjectId and
    leaves the collection without it and otherwise unchanged; afterwards
    the job stays gone under every string that is cast to that ObjectId:
    a second [deleteJob] answers [false], a completion report and an
    anomaly simulation for it both return [null], and [GET /jobs/:id]
    answers 404; none of them writes.  When the cast fails, [deleteJob]
    throws a [CastError], writes nothing, and [DELETE /jobs/:id] answers
    400 "Invalid ID format". *)
Theorem deleteJob_removes_for_good
    (production : bool) (amb : Ambient) (id : JsString)
    (r e : option JsString) (w : World Q) :
  match castObjectId id with
  | Some oid =>
      let w' := snd (job_service.deleteJob id w) in
      fst (job_service.deleteJob id w)
      = Returned (bool_decide (is_Some (docs w !! oid)))
      /\ docs w' = base.delete oid (docs w)
      /\ jobQueue w' = jobQueue w
      /\ (forall id',
            castObjectId id' = Some oid ->
            job_service.deleteJob id' w' = (Returned false, w')
            /\ job_service.handleWebhookCallback amb id' r e w'
               = (Returned None, w')
            /\ job_service.simulateHallucination amb id' w'
               = (Returned None, w')
            /\ job_controller.getJob production id' w'
               = ({| statusCode := 404;
                     payload := ErrorBody (Some (cu "Job not found")) None |},
                  w'))
  | None =>
      job_service.deleteJob id w = (Threw (job_repository.CastError id), w)
      /\ job_controller.deleteJob production id w
         = ({| statusCode := 400;
               payload := ErrorBody (Some (cu "Invalid ID format")) None |}, w)
  end.
Proof.
  destruct (castObjectId id) as [oid|] eqn:Hc.
  - cbn zeta.
    assert (Hd : docs (snd (job_service.deleteJob id w))
                 = base.delete oid (docs w)).
    { destruct (docs w !! oid) eqn:Hl.
      - now rewrite (delete_known _ _ _ _ Hc Hl).
      - rewrite (delete_unknown _ _ _ Hc Hl). cbn. symmetry.
        now apply delete_id. }
    assert (Hgone : docs (snd (job_service.deleteJob id w)) !! oid = None)
      by (rewrite Hd; apply lookup_delete_eq).
    split; [| split; [exact Hd | split]].
    + destruct (docs w !! oid) eqn:Hl.
      * now rewrite (delete_known _ _ _ _ Hc Hl).
      * now rewrite (delete_unknown _ _ _ Hc Hl).
    + destruct (docs w !! oid) eqn:Hl.
      * now rewrite (delete_known _ _ _ _ Hc Hl).
      * now rewrite (delete_unknown _ _ _ Hc Hl).
    + intros id' Hc'.
      split; [now apply delete_unknown with oid |].
      split; [now apply callback_unknown with oid |].
      split; [now apply hallucinate_unknown with oid |].
      now apply (getJob_missing production id' oid).
  - split; [now apply delete_uncastable |].
    unfold job_controller.deleteJob, respond, mbind, Eff_bind, eff.bind.
    now rewrite (delete_uncastable _ _ Hc).
Qed.

Lemma updated_touches_only (oid : ObjectId) (job job' : IJob) (w : World Q) :
  docs w !! oid = Some job ->
  _id job' = _id job -> prompt job' = prompt job ->
  createdAt job' = createdAt job ->
  touches_only oid w (updated oid job' w).
Proof.
  intros Hd Hi Hp Hc. unfold touches_only, updated. cbn [docs jobQueue].
  split; [| split; [reflexivity | split]].
  - apply dom_insert_lookup_L. eauto.
  - intros id Hid. now apply lookup_insert_ne.
  - intros j'. rewrite lookup_insert_eq. intros [= <-]. eauto.
Qed.

Lemma touches_only_refl (oid : ObjectId) (w : World Q) :
  touches_only oid w w.
Proof. unfold touches_only. repeat split; eauto. Qed.

(** X9. A completion report and an anomaly simulation change at most the
    record of the ObjectId that their identifier is cast to: they neither
    add nor remove a record, leave every other record and the queue as
    they were, and keep the identifier, the prompt and the creation date
    of the record they write.  When the identifier cannot be cast, they
    change nothing. *)
Theorem updates_touch_only_their_record
    (amb : Ambient) (jobId : JsString) (r e : option JsString) (w : World Q) :
  match castObjectId jobId with
  | Some oid =>
      touches_only oid w
        (snd (job_service.handleWebhookCallback amb jobId r e w))
      /\ touches_only oid w
           (snd (job_service.simulateHallucination amb jobId w))
  | None =>
      snd (job_service.handleWebhookCallback amb jobId r e w) = w
      /\ snd (job_service.simulateHallucination amb jobId w) = w
  end.
Proof.
  destruct (castObjectId jobId) as [oid|] eqn:Hc.
  - split.
    + destruct (docs w !! oid) as [job|] eqn:Hd.
      * destruct (terminal (status job)) eqn:Ht.
        -- rewrite (callback_terminal _ _ _ _ _ _ _ Hc Hd Ht).
           apply touches_only_refl.
        -- assert (Hp : status job = PENDING)
             by (destruct (status job); [reflexivity | discriminate ..]).
           rewrite (callback_pending _ _ _ _ _ _ _ Hc Hd Hp).
           now apply (updated_touches_only oid job).
      * rewrite (callback_unknown _ _ _ _ _ _ Hc Hd). apply touches_only_refl.
    + destruct (docs w !! oid) as [job|] eqn:Hd.
      * rewrite (hallucinate_known _ _ _ _ _ Hc Hd).
        now apply (updated_touches_only oid job).
      * rewrite (hallucinate_unknown _ _ _ _ Hc Hd). apply touches_only_refl.
  - now rewrite (callback_uncastable _ _ _ _ _ Hc),
      (hallucinate_uncastable _ _ _ Hc).
Qed.

(** X12. The anomaly simulation is a finalizing write of its own: after
    it, on a record of any status, every completion report for the job is
    discarded and returns the record the simulation wrote; a second
    simulation writes the same record again, with its own date.  The
    usage metadata of the record is not touched by the simulation.
    [jobId] is any string that the cast takes to the ObjectId of the
    record. *)
Theorem hallucination_wins_over_later_reports
    (amb1 amb2 amb3 : Ambient) (jobId : JsString) (oid : ObjectId)
    (r e : option JsString) (w : World Q) (job : IJob) :
  castObjectId jobId = Some oid ->
  docs w !! oid = Some job ->
  let w1 := snd (job_service.simulateHallucination amb1 jobId w) in
  job_service.handleWebhookCallback amb2 jobId r e w1
  = (Returned (Some (hallucinated amb1 job)), w1)
  /\ fst (job_service.simulateHallucination amb3 jobId w1)
     = Returned (Some (hallucinated amb3 job))
  /\ metadata (hallucinated amb1 job) = metadata job.
Proof.
  intros Hc Hd. cbn zeta. rewrite (hallucinate_known _ _ _ _ _ Hc Hd). cbn [snd].
  assert (Hl : docs (updated oid (hallucinated amb1 job) w) !! oid
               = Some (hallucinated amb1 job)) by apply lookup_insert_eq.
  split; [now apply callback_terminal with oid |]. split; [| reflexivity].
  now rewrite (hallucinate_known _ _ _ _ _ Hc Hl).
Qed.

End collection.

Lemma created_job_can_be_fetched_witness :
  job_service.createJob sample.amb1 (js.cu "Summarize X") sample.w0
  = (js.Returned sample.job_pending, sample.w_pending)
  /\ app.docs sample.w_pending !! sample.oid1 = Some sample.job_pending
  /\ job_controller.getJob (cast := bson.hex_only) false sample.ID1
       sample.w_pending
     = ({| job_controller.statusCode := 200;
           job_controller.payload :=
             job_controller.JobData None sample.job_pending |},
        sample.w_pending).
Proof.
  assert (Hc : job_service.createJob sample.amb1 (js.cu "Summarize X") sample.w0
               = (js.Returned sample.job_pending, sample.w_pending))
    by (vm_compute; reflexivity).
  destruct (created_job_can_be_fetched (cast := bson.hex_only) false _ _ _ _ _ Hc)
    as (_ & _ & Hl & _ & _ & Hs & _ & Hg).
  rewrite (Hs eq_refl) in Hl, Hg.
  split; [exact Hc |]. split; [exact Hl |].
  apply (Hg sample.ID1). vm_compute. reflexivity.
Defined.

Lemma hallucination_wins_over_later_reports_witness :
  bson.castObjectId (ObjectIdCast := bson.hex_only) sample.id1 = Some sample.oid1
  /\ app.docs sample.w_completed !! sample.oid1 = Some sample.job_completed
  /\ job_service.handleWebhookCallback (cast := bson.hex_only) sample.amb3
       sample.id1 None (Some (js.cu "timeout"))
       (snd (job_service.simulateHallucination (cast := bson.hex_only)
               sample.amb3 sample.id1 sample.w_completed))
     = (js.Returned
          (Some (lifecycle.hallucinated sample.amb3 sample.job_completed)),
        snd (job_service.simulateHallucination (cast := bson.hex_only)
               sample.amb3 sample.id1 sample.w_completed)).
Proof.
  assert (Hc : bson.castObjectId (ObjectIdCast := bson.hex_only) sample.id1
               = Some sample.oid1) by (vm_compute; reflexivity).
  assert (Hd : app.docs sample.w_completed !! sample.oid1
               = Some sample.job_completed) by (vm_compute; reflexivity).
  split; [exact Hc |]. split; [exact Hd |].
  exact (proj1 (hallucination_wins_over_later_reports sample.amb3 sample.amb3
                  sample.amb3 sample.id1 sample.oid1 None
                  (Some (js.cu "timeout"))
                  sample.w_completed sample.job_completed Hc Hd)).
Defined.

(** * Further properties of the read operations *)

Section reads.
Import js eff bson job_model app job_queue job_repository.
Context {Q : Type} `{JobQueueInterface Q}.

Lemma newest_first_total : Total newest_first.
Proof. intros a b. unfold newest_first. lia. Qed.

Lemma newest_first_transitive : Transitive newest_first.
Proof. intros a b c. unfold newest_first. lia. Qed.

Lemma documents_length (w : World Q) :
  List.length (documents w) = size (docs w).
Proof. unfold documents. now rewrite length_fmap, length_map_to_list. Qed.

Lemma documents_elem_of (w : World Q) (j : IJob) :
  j ∈ documents w <-> exists id, docs w !! id = Some j.
Proof.
  unfold documents. rewrite list_elem_of_fmap. split.
  - intros ([id j'] & -> & Hin). exists id. now apply elem_of_map_to_list.
  - intros (id & Hl). exists (id, j). split; [reflexivity |].
    now apply elem_of_map_to_list.
Qed.

(** Every document has exactly one of the three statuses. *)
Lemma status_classes (l : list IJob) :
  (List.length (filter (fun j => status j = PENDING) l)
   + List.length (filter (fun j => status j = COMPLETED) l)
   + List.length (filter (fun j => status j = FAILED) l)
   = List.length l)%nat.
Proof.
  induction l as [|a l IH]; [reflexivity |].
  rewrite !filter_cons.
  destruct (status a); repeat case_decide; try congruence;
    cbn [List.length]; lia.
Qed.

Lemma countByStatus_counts (w : World Q) (s : JobStatusType) :
  exists counts,
    countByStatus w = (Returned counts, w)
    /\ count_of counts s
       = List.length (filter (fun j => status j = s) (documents w)).
Proof.
  unfold countByStatus, aggregate_by_status. eexists. split; [reflexivity |].
  cbn [omap list_omap].
  destruct (List.length (filter (fun j => status j = PENDING) (documents w)))
    eqn:Hp;
  destruct (List.length (filter (fun j => status j = COMPLETED) (documents w)))
    eqn:Hc;
  destruct (List.length (filter (fun j => status j = FAILED) (documents w)))
    eqn:Hf;
  destruct s; cbn; congruence.
Qed.

(** X7. [getStats] reads without writing, each of its three counts is the
    number of records that have that status (0 when there is none), and
    the three add up to the number of records in the collection.  The
    count of a status is also the length of the list that [getAllJobs]
    gives for it. *)
Theorem getStats_partitions_the_collection (w : World Q) :
  exists counts,
    job_service.getStats w = (Returned counts, w)
    /\ (forall s,
          count_of counts s
          = List.length (filter (fun j => status j = s) (documents w)))
    /\ (count_PENDING counts + count_COMPLETED counts + count_FAILED counts
        = size (docs w))%nat
    /\ (forall s l,
          job_service.getAllJobs (Some s) w = (Returned l, w) ->
          List.length l = count_of counts s).
Proof.
  destruct (countByStatus_counts w PENDING) as (counts & Hc & Hp).
  exists counts. split; [exact Hc |].
  assert (Hall : forall s,
            count_of counts s
            = List.length (filter (fun j => status j = s) (documents w))).
  { intros s. destruct (countByStatus_counts w s) as (c' & Hc' & Hs).
    rewrite Hc in Hc'. now injection Hc' as <-. }
  split; [exact Hall |]. split.
  - pose proof (Hall PENDING) as H1. pose proof (Hall COMPLETED) as H2.
    pose proof (Hall FAILED) as H3. cbn [count_of] in H1, H2, H3.
    rewrite H1, H2, H3, status_classes. apply documents_length.
  - intros s l. unfold job_service.getAllJobs, findAll.
    intros [= <-]. rewrite Hall.
    apply Permutation_length, merge_sort_Permutation.
Qed.

(** X8. [getAllJobs] reads without writing.  Its list is a rearrangement
    of the records that match the filter (all of them when no status is
    given), so it holds exactly the stored records of that status, each
    as often as it is stored, and it is ordered by creation date, newest
    first. *)
Theorem getAllJobs_lists_matching_newest_first
    (status : option JobStatusType) (w : World Q) :
  exists l,
    job_service.getAllJobs status w = (Returned l, w)
    /\ StronglySorted newest_first l
    /\ l ≡ₚ filter (matches status) (documents w)
    /\ (forall j,
          j ∈ l <-> (exists id, docs w !! id = Some j) /\ matches status j)
    /\ exists every,
         job_service.getAllJobs None w = (Returned every, w)
         /\ List.length every = size (docs w).
Proof.
  eexists. split; [reflexivity |].
  pose proof newest_first_total as Htot.
  pose proof newest_first_transitive as Htr.
  split; [now apply StronglySorted_merge_sort |].
  split; [apply merge_sort_Permutation |]. split.
  - intros j. rewrite merge_sort_Permutation, list_elem_of_filter,
      documents_elem_of. tauto.
  - eexists. split; [reflexivity |]. rewrite merge_sort_Permutation.
    rewrite <- documents_length. f_equal.
    induction (documents w) as [|a l IH]; [reflexivity |].
    rewrite filter_cons_True by exact I. now f_equal.
Qed.

End reads.

Lemma getStats_partitions_the_collection_witness :
  job_service.getAllJobs (Some job_model.COMPLETED) sample.w_completed
  = (js.Returned [sample.job_completed], sample.w_completed)
  /\ exists counts,
       job_service.getStats sample.w_completed
       = (js.Returned counts, sample.w_completed)
       /\ job_repository.count_of counts job_model.COMPLETED = 1%nat.
Proof.
  assert (Hl : job_service.getAllJobs (Some job_model.COMPLETED)
                 sample.w_completed
               = (js.Returned [sample.job_completed], sample.w_completed))
    by (vm_compute; reflexivity).
  split; [exact Hl |].
  destruct (getStats_partitions_the_collection sample.w_completed)
    as (counts & Hc & _ & _ & Hlen).
  exists counts. split; [exact Hc |].
  symmetry. exact (Hlen _ _ Hl).
Defined.

(** * Further properties of the lifecycle *)

Section trimming.
Import js.

Lemma trimStart_idempotent (s : JsString) : trimStart (trimStart s) = trimStart s.
Proof.
  induction s as [|c s IH]; [reflexivity |]. cbn.
  destruct (isWhiteSpace c) eqn:Hc; [exact IH |]. cbn. now rewrite Hc.
Qed.

Lemma trimStart_keeps_last (l : JsString) (c : N) :
  isWhiteSpace c = false -> exists l', trimStart (l ++ [c]) = l' ++ [c].
Proof.
  intros Hc. induction l as [|d l IH]; cbn.
  - rewrite Hc. now exists [].
  - destruct (isWhiteSpace d); [exact IH |]. now exists (d :: l).
Qed.

Lemma trimEnd_keeps_head (c : N) (s : JsString) :
  isWhiteSpace c = false -> exists u, trimEnd (c :: s) = c :: u.
Proof.
  intros Hc. unfold trimEnd. cbn [rev].
  destruct (trimStart_keeps_last (rev s) c Hc) as [l' ->].
  rewrite rev_app_distr. cbn. now exists (rev l').
Qed.

Lemma trimEnd_idempotent (s : JsString) : trimEnd (trimEnd s) = trimEnd s.
Proof. unfold trimEnd. now rewrite rev_involutive, trimStart_idempotent. Qed.

Lemma trimStart_head (s : JsString) :
  trimStart s = [] \/ exists c u, trimStart s = c :: u /\ isWhiteSpace c = false.
Proof.
  induction s as [|c s IH]; [now left |]. cbn.
  destruct (isWhiteSpace c) eqn:Hc; [exact IH |]. right. eauto.
Qed.

Lemma trim_idempotent (s : JsString) : trim (trim s) = trim s.
Proof.
  unfold trim.
  destruct (trimStart_head s) as [-> | (c & u & -> & Hc)]; [reflexivity |].
  destruct (trimEnd_keeps_head c u Hc) as [v Hv].
  rewrite Hv. cbn [trimStart]. rewrite Hc, <- Hv. apply trimEnd_idempotent.
Qed.

(** [trimStart] leaves a string as it is exactly when the string does not
    start with white space, and [trimEnd] exactly when it does not end
    with white space. *)
Lemma trimStart_fixed (s : JsString) :
  trimStart s = s <-> head (isWhiteSpace <$> s) <> Some true.
Proof.
  destruct s as [|c s]; [now split |]. cbn.
  destruct (isWhiteSpace c) eqn:Hc.
  - split; [| now intros Hn; elim Hn].
    intros Heq. exfalso.
    pose proof (trimStart_length s) as Hl. rewrite Heq in Hl.
    cbn [List.length] in Hl. lia.
  - split; [discriminate | reflexivity].
Qed.

Lemma head_rev {A} (l : list A) : head (rev l) = last l.
Proof.
  induction l as [|a l IH]; [reflexivity |].
  cbn [rev]. now rewrite head_snoc, last_cons, IH.
Qed.

Lemma trimEnd_fixed (s : JsString) :
  trimEnd s = s <-> last (isWhiteSpace <$> s) <> Some true.
Proof.
  unfold trimEnd.
  assert (Hh : head (isWhiteSpace <$> rev s) = last (isWhiteSpace <$> s)).
  { rewrite fmap_last, <- head_rev. now destruct (rev s). }
  rewrite <- Hh, <- (trimStart_fixed (rev s)). split.
  - intros Heq. rewrite <- Heq at 2. now rewrite rev_involutive.
  - intros ->. apply rev_involutive.
Qed.

Lemma trimEnd_length (s : JsString) :
  (List.length (trimEnd s) <= List.length s)%nat.
Proof.
  unfold trimEnd. rewrite length_rev.
  etransitivity; [apply trimStart_length |]. now rewrite length_rev.
Qed.

Lemma trimStart_suffix (s : JsString) :
  trimStart s = s \/ (List.length (trimStart s) < List.length s)%nat.
Proof.
  destruct s as [|c s]; [now left |]. cbn.
  destruct (isWhiteSpace c); [| now left].
  right. pose proof (trimStart_length s). cbn [List.length]. lia.
Qed.

Lemma trim_fixed (s : JsString) :
  trim s = s
  <-> head (isWhiteSpace <$> s) <> Some true
      /\ last (isWhiteSpace <$> s) <> Some true.
Proof.
  rewrite <- trimStart_fixed, <- trimEnd_fixed. unfold trim. split.
  - intros Heq.
    assert (Hs : trimStart s = s).
    { destruct (trimStart_suffix s) as [Hs | Hlt]; [exact Hs |].
      pose proof (trimEnd_length (trimStart s)) as Hl.
      rewrite Heq in Hl. lia. }
    split; [exact Hs |]. now rewrite Hs in Heq.
  - intros [Hs He]. now rewrite Hs.
Qed.

End trimming.

(** ** Texts that have been through UTF-8 *)

Section well_formedness.
Import js.

Lemma list_ind_2 (P : JsString -> Prop) :
  P [] -> (forall c, P [c]) ->
  (forall c d s, P s -> P (d :: s) -> P (c :: d :: s)) ->
  forall s, P s.
Proof.
  intros H0 H1 H2 s.
  assert (Hboth : P s /\ forall c, P (c :: s)).
  { induction s as [|d s [IHs IHc]]; [now split |].
    split; [apply IHc |]. intros c. apply H2; [exact IHs | apply IHc]. }
  apply Hboth.
Qed.

Ltac surrogate_bounds :=
  unfold isHighSurrogate, isLowSurrogate, replacement in *;
  repeat match goal with
    | H : (_ && _) = true |- _ => apply andb_true_iff in H as [? ?]
    | H : (_ || _) = true |- _ => apply orb_true_iff in H as [H | H]
    | H : (_ <=? _)%N = true |- _ => apply N.leb_le in H
    | H : (_ =? _)%N = true |- _ => apply N.eqb_eq in H
    end;
  try lia.

Lemma surrogate_not_white (c : N) :
  isHighSurrogate c || isLowSurrogate c = true -> isWhiteSpace c = false.
Proof.
  intros Hs. destruct (isWhiteSpace c) eqn:Hw; [exfalso | reflexivity].
  unfold isWhiteSpace in Hw. surrogate_bounds.
Qed.

Lemma high_not_low (c : N) :
  isHighSurrogate c = true -> isLowSurrogate c = false.
Proof.
  intros Hh. destruct (isLowSurrogate c) eqn:Hl; [exfalso | reflexivity].
  surrogate_bounds.
Qed.

(** What [toWellFormed] puts for a code unit that is no high surrogate. *)
Lemma toWellFormed_cons (c : N) (s : JsString) :
  isHighSurrogate c = false ->
  toWellFormed (c :: s)
  = (if isLowSurrogate c then replacement else c) :: toWellFormed s.
Proof. intros Hc. cbn. rewrite Hc. now destruct (isLowSurrogate c). Qed.

(** What it puts for a high surrogate that another code unit follows. *)
Lemma toWellFormed_pair (c d : N) (s : JsString) :
  isHighSurrogate c = true ->
  toWellFormed (c :: d :: s)
  = if isLowSurrogate d then c :: d :: toWellFormed s
    else replacement :: toWellFormed (d :: s).
Proof. intros Hc. cbn [toWellFormed]. rewrite Hc. reflexivity. Qed.

Lemma toWellFormed_replacement (s : JsString) :
  toWellFormed (replacement :: s) = replacement :: toWellFormed s.
Proof. reflexivity. Qed.

Lemma toWellFormed_length (s : JsString) :
  List.length (toWellFormed s) = List.length s.
Proof.
  induction s as [| c | c d s IHs IHd] using list_ind_2; [reflexivity | |].
  - cbn. destruct (isHighSurrogate c), (isLowSurrogate c); reflexivity.
  - destruct (isHighSurrogate c) eqn:Hc.
    + rewrite (toWellFormed_pair c d s Hc).
      destruct (isLowSurrogate d) eqn:Hd; cbn [List.length].
      * now rewrite IHs.
      * f_equal. exact IHd.
    + rewrite (toWellFormed_cons c (d :: s) Hc). cbn [List.length].
      f_equal. exact IHd.
Qed.

Lemma toWellFormed_white (s : JsString) :
  isWhiteSpace <$> toWellFormed s = isWhiteSpace <$> s.
Proof.
  assert (Hr : isWhiteSpace replacement = false) by reflexivity.
  induction s as [| c | c d s IHs IHd] using list_ind_2; [reflexivity | |].
  - cbn. destruct (isHighSurrogate c) eqn:Hc.
    + cbn. now rewrite surrogate_not_white by (now rewrite Hc).
    + destruct (isLowSurrogate c) eqn:Hl; [| reflexivity].
      cbn. now rewrite surrogate_not_white by (rewrite Hl; apply orb_true_r).
  - destruct (isHighSurrogate c) eqn:Hc.
    + rewrite (toWellFormed_pair c d s Hc).
      destruct (isLowSurrogate d) eqn:Hd.
      * rewrite !fmap_cons, IHs. reflexivity.
      * rewrite fmap_cons, IHd, Hr, !fmap_cons.
        now rewrite (surrogate_not_white c) by (now rewrite Hc).
    + rewrite (toWellFormed_cons c (d :: s) Hc), !fmap_cons, IHd.
      destruct (isLowSurrogate c) eqn:Hl; [| reflexivity].
      now rewrite Hr, (surrogate_not_white c) by (rewrite Hl; apply orb_true_r).
Qed.

(** A text that has been through UTF-8 comes through it again unchanged. *)
Lemma toWellFormed_idempotent (s : JsString) :
  toWellFormed (toWellFormed s) = toWellFormed s.
Proof.
  induction s as [| c | c d s IHs IHd] using list_ind_2; [reflexivity | |].
  - cbn. destruct (isHighSurrogate c) eqn:Hc; [reflexivity |].
    destruct (isLowSurrogate c) eqn:Hl; [reflexivity |].
    cbn. now rewrite Hc, Hl.
  - destruct (isHighSurrogate c) eqn:Hc.
    + rewrite (toWellFormed_pair c d s Hc).
      destruct (isLowSurrogate d) eqn:Hd.
      * rewrite (toWellFormed_pair c d _ Hc), Hd. now rewrite IHs.
      * rewrite toWellFormed_replacement. now rewrite IHd.
    + rewrite (toWellFormed_cons c (d :: s) Hc).
      destruct (isLowSurrogate c) eqn:Hl.
      * rewrite toWellFormed_replacement. now rewrite IHd.
      * rewrite (toWellFormed_cons c _ Hc), Hl. now rewrite IHd.
Qed.

Lemma toWellFormed_isWellFormed (s : JsString) :
  isWellFormed (toWellFormed s) = true.
Proof. apply bool_decide_eq_true, toWellFormed_idempotent. Qed.

Lemma toWellFormed_truthy (s : JsString) :
  truthy (toWellFormed s) = truthy s.
Proof.
  pose proof (toWellFormed_length s) as Hl.
  destruct s, (toWellFormed _); try discriminate Hl; reflexivity.
Qed.

(** A text without white space at either end has none after it has been
    through UTF-8. *)
Lemma toWellFormed_trimmed (s : JsString) :
  trim s = s -> trim (toWellFormed s) = toWellFormed s.
Proof. rewrite !trim_fixed, toWellFormed_white. auto. Qed.

End well_formedness.

Section lifecycle_more.
Import js eff bson job_model job_schema app job_queue job_controller routes
  lifecycle store.
Context {Q : Type} `{JobQueueInterface Q} {cast : ObjectIdCast}.
Variable production : bool.
Variable WEBHOOK_SECRET : JsString.

Lemma createJob_docs_fresh (amb : Ambient) (p : JsString) (w : World Q) :
  docs (snd (job_service.createJob amb p w)) = docs w
  \/ (docs w !! objectId amb = None
      /\ truthy (trim p) = true
      /\ js.length (trim p) <= 10000
      /\ docs (snd (job_service.createJob amb p w))
         = <[objectId amb := job_repository.persisted (created amb p)]> (docs w)).
Proof.
  unfold job_service.createJob, job_repository.create, job_service.submitted,
    job_service.on_queue, eff.modify, new_Job,
    mbind, Eff_bind, eff.bind, mret, Eff_ret, eff.ret.
  destruct (truthy (trim p)) eqn:Ht; cbn [negb]; [| now left].
  destruct (Z.ltb_spec 10000 (js.length (trim p))); [now left |].
  cbn [_id]. destruct (docs w !! objectId amb) eqn:Hf; [now left |].
  cbn [docs jobQueue effects _id].
  destruct (enqueue (toString (objectId amb)) (jobQueue w)) as [[[]|e] q'];
    right; repeat split; auto.
Qed.

(** What serving one request does to the collection, with the request
    that does it. *)
Lemma serve_cases (amb : Ambient) (r : Request) (w : World Q) :
  let w' := snd (serve production WEBHOOK_SECRET amb r w) in
  docs w' = docs w
  \/ (exists p,
        docs w !! objectId amb = None
        /\ truthy (trim p) = true /\ js.length (trim p) <= 10000
        /\ docs w'
           = <[objectId amb := job_repository.persisted (created amb p)]>
               (docs w))
  \/ (exists oid job res err,
        docs w !! oid = Some job /\ status job = PENDING
        /\ docs w' = <[oid := finalized amb res err job]> (docs w))
  \/ (exists id oid job,
        r = PostHallucinate id /\ castObjectId id = Some oid
        /\ docs w !! oid = Some job
        /\ docs w' = <[oid := hallucinated amb job]> (docs w))
  \/ (exists id oid,
        r = DeleteJob id /\ castObjectId id = Some oid
        /\ docs w' = base.delete oid (docs w)).
Proof.
  destruct r as [body | secret body | id | id]; cbn zeta; unfold serve.
  - unfold validateBody.
    destruct (createJobSchema body) as [data|]; [| now left].
    unfold job_controller.createJob. rewrite respond_world.
    rewrite bind_world by reflexivity.
    destruct (createJob_docs_fresh amb (prompt data) w)
      as [-> | (Hf & Ht & Hl & ->)]; [now left |].
    right; left. now exists (prompt data).
  - destruct (webhookAuth WEBHOOK_SECRET secret); [now left |].
    unfold validateBody.
    destruct (webhookCallbackSchema body) as [data|]; [| now left].
    unfold job_controller.webhookCallback. rewrite respond_world.
    rewrite bind_world by (now intros [j|] s).
    destruct (castObjectId (jobId data)) as [oid|] eqn:Hc;
      [| rewrite (callback_uncastable _ _ _ _ _ Hc); now left].
    destruct (docs w !! oid) as [job|] eqn:Hd.
    + destruct (terminal (status job)) eqn:Ht.
      * rewrite (callback_terminal _ _ _ _ _ _ _ Hc Hd Ht). now left.
      * assert (Hp : status job = PENDING)
          by (destruct (status job); [reflexivity | discriminate ..]).
        rewrite (callback_pending _ _ _ _ _ _ _ Hc Hd Hp).
        right; right; left. eexists _, _, _, _. eauto.
    + rewrite (callback_unknown _ _ _ _ _ _ Hc Hd). now left.
  - unfold job_controller.simulateHallucination. rewrite respond_world.
    rewrite bind_world by (now intros [j|] s).
    destruct (castObjectId id) as [oid|] eqn:Hc;
      [| rewrite (hallucinate_uncastable _ _ _ Hc); now left].
    destruct (docs w !! oid) as [job|] eqn:Hd.
    + rewrite (hallucinate_known _ _ _ _ _ Hc Hd).
      right; right; right; left. eexists _, _, _. eauto.
    + rewrite (hallucinate_unknown _ _ _ _ Hc Hd). now left.
  - unfold job_controller.deleteJob. rewrite respond_world.
    rewrite bind_world by (now intros [] s).
    destruct (castObjectId id) as [oid|] eqn:Hc;
      [| rewrite (delete_uncastable _ _ Hc); now left].
    destruct (docs w !! oid) as [job|] eqn:Hd.
    + rewrite (delete_known _ _ _ _ Hc Hd).
      right; right; right; right. eexists _, _. eauto.
    + rewrite (delete_unknown _ _ _ Hc Hd). now left.
Qed.

(** X10. Status only moves forward.  When a record is terminal, serving
    any request other than a deletion whose identifier is cast to its
    ObjectId leaves a terminal record under that ObjectId, and serving
    anything that is not an anomaly simulation whose identifier is cast
    to its ObjectId leaves the very same record: a later completion
    report never rewrites it and a creation never replaces it. *)
Theorem terminal_records_stay_terminal
    (amb : Ambient) (r : Request) (w : World Q) (oid : ObjectId) (j : IJob) :
  docs w !! oid = Some j ->
  terminal (status j) = true ->
  (forall id, r = DeleteJob id -> castObjectId id <> Some oid) ->
  exists j',
    docs (snd (serve production WEBHOOK_SECRET amb r w)) !! oid = Some j'
    /\ terminal (status j') = true
    /\ ((forall id, r = PostHallucinate id -> castObjectId id <> Some oid) ->
        j' = j).
Proof.
  intros Hd Ht Hr.
  destruct (serve_cases amb r w)
    as [-> | [(p & Hf & _ & _ & ->) | [(i & job & res & err & Hi & Hp & ->)
       | [(id & i & job & -> & Hc & Hi & ->) | (id & i & -> & Hc & ->)]]]].
  - eauto.
  - exists j. rewrite lookup_insert_ne by congruence. auto.
  - destruct (decide (i = oid)) as [-> | Hne].
    + rewrite Hd in Hi. injection Hi as <-. rewrite Hp in Ht. discriminate.
    + exists j. rewrite lookup_insert_ne by exact Hne. auto.
  - destruct (decide (i = oid)) as [-> | Hne].
    + rewrite lookup_insert_eq. eexists. split; [reflexivity |].
      split; [reflexivity |]. intros Hn. now elim (Hn id eq_refl).
    + exists j. rewrite lookup_insert_ne by exact Hne. auto.
  - exists j. rewrite lookup_delete_ne; [auto |].
    intros ->. now apply (Hr id eq_refl).
Qed.

Lemma well_formed_text (text : option JsString) :
  well_formed (option_map toWellFormed text).
Proof.
  intros s Hs. destruct text as [t|]; [| discriminate].
  injection Hs as <-. apply toWellFormed_isWellFormed.
Qed.

(** X11. In every world the application reaches, every record is stored
    under its own ObjectId; its prompt is not empty, has at most 10,000
    code units and carries no white space at either end; and its prompt,
    its result and its error are well-formed.  The prompt lookup that
    [createApp] gives the queue casts the identifier it is asked for: it
    answers with the prompt, which is not empty, when the collection
    holds the ObjectId, with [null] when it does not, and it rejects with
    a [CastError] when the identifier cannot be cast.  It never writes. *)
Theorem reachable_records_are_well_stored (w : World Q) :
  reachable production WEBHOOK_SECRET (fun _ => True) w ->
  map_Forall well_stored (docs w)
  /\ (forall id,
        match castObjectId id with
        | Some oid =>
            match docs w !! oid with
            | Some job =>
                app_container.promptFetcher id w
                = (Returned (Some (job_model.prompt job)), w)
                /\ truthy (job_model.prompt job) = true
            | None =>
                app_container.promptFetcher id w = (Returned None, w)
            end
        | None =>
            app_container.promptFetcher id w
            = (Threw (job_repository.CastError id), w)
        end).
Proof.
  intros Hr.
  assert (Hall : map_Forall well_stored (docs w)).
  { induction Hr as [q | w amb r Hw IH _].
    - apply map_Forall_empty.
    - destruct (serve_cases amb r w)
        as [-> | [(p & Hf & Ht & Hl & ->)
           | [(i & job & res & err & Hi & Hp & ->)
           | [(id & i & job & -> & Hc & Hi & ->) | (id & i & -> & Hc & ->)]]]].
      + exact IH.
      + apply map_Forall_insert_2; [| exact IH].
        unfold well_stored, created, job_repository.persisted.
        cbn [_id job_model.prompt result error option_map].
        split; [reflexivity |].
        split; [now rewrite toWellFormed_truthy |].
        split; [unfold js.length in *; now rewrite toWellFormed_length |].
        split; [apply toWellFormed_trimmed, trim_idempotent |].
        split; [apply toWellFormed_isWellFormed |].
        split; intros s; discriminate.
      + apply map_Forall_insert_2; [| exact IH].
        destruct (IH _ _ Hi) as (Ha & Hb & Hc & Hd & He & _).
        unfold well_stored, finalized. cbn [_id job_model.prompt result error].
        repeat (split; [assumption |]).
        split; apply well_formed_text.
      + apply map_Forall_insert_2; [| exact IH].
        destruct (IH _ _ Hi) as (Ha & Hb & Hd & He & Hf & _).
        unfold well_stored, hallucinated. cbn [_id job_model.prompt result error].
        repeat (split; [assumption |]).
        split; [| intros s; discriminate].
        intros s [= <-]. reflexivity.
      + now apply map_Forall_delete. }
  split; [exact Hall |].
  intros id.
  unfold app_container.promptFetcher, job_repository.findById,
    mbind, Eff_bind, eff.bind, mret, Eff_ret, eff.ret.
  destruct (castObjectId id) as [oid|]; [| reflexivity].
  destruct (docs w !! oid) as [job|] eqn:Hd; [| reflexivity].
  split; [reflexivity |]. now destruct (Hall _ _ Hd) as (_ & Ht & _).
Qed.

(** X20. The form sends nothing when its text is empty or made of white
    space only, and otherwise sends the trimmed text.  What it sends, if
    it has at most 10,000 code units, is accepted by the request schema
    and by the model: the answer is 201 with that prompt and status
    [PENDING] (for a fresh ObjectId and a queue whose [enqueue]
    returns), and the record that is stored holds that prompt with U+FFFD
    for every surrogate that has no partner, so it holds the prompt
    letter for letter when the prompt is well-formed. *)
Theorem form_submission_is_stored
    (amb : Ambient) (text : JsString) (w : World Q) :
  match create_job_form.handleSubmit text with
  | None => truthy (trim text) = false
  | Some body =>
      body = {| body_prompt := Some (JStr (trim text)) |}
      /\ (js.length (trim text) <= 10000 ->
          docs w !! objectId amb = None ->
          fst (enqueue (toString (objectId amb)) (jobQueue w)) = Returned tt ->
          fst (serve production WEBHOOK_SECRET amb (PostJobs body) w)
          = {| statusCode := 201;
               payload := CreatedData (objectId amb) (trim text) PENDING
                            (now amb) |}
          /\ exists stored,
               docs (snd (serve production WEBHOOK_SECRET amb (PostJobs body) w))
                 !! objectId amb
               = Some stored
               /\ status stored = PENDING
               /\ job_model.prompt stored = toWellFormed (trim text)
               /\ (isWellFormed (trim text) = true ->
                   job_model.prompt stored = trim text))
  end.
Proof.
  unfold create_job_form.handleSubmit.
  destruct (truthy (trim text)) eqn:Ht; cbn [negb]; [| reflexivity].
  split; [reflexivity |]. intros Hlen Hfresh Hq.
  assert (Hlo : 1 <= js.length (trim text)).
  { destruct (trim text); [discriminate |].
    unfold js.length. cbn [List.length]. lia. }
  assert (Hs : createJobSchema {| body_prompt := Some (JStr (trim text)) |}
               = ParseSuccess {| prompt := trim text |})
    by (apply createJobSchema_accepts; auto).
  unfold serve, validateBody. rewrite Hs.
  unfold job_controller.createJob, respond. cbn [prompt].
  unfold job_service.createJob, job_repository.create, job_service.submitted,
    job_service.on_queue, eff.modify, new_Job,
    mbind, Eff_bind, eff.bind, mret, Eff_ret, eff.ret.
  rewrite trim_idempotent, Ht. cbn [negb].
  destruct (Z.ltb_spec 10000 (js.length (trim text))); [lia |].
  cbn [_id]. rewrite Hfresh. cbn [docs jobQueue effects _id].
  destruct (enqueue (toString (objectId amb)) (jobQueue w)) as [o q'].
  cbn [fst] in Hq. subst o. cbn [fst snd docs].
  split; [reflexivity |].
  eexists. split; [apply lookup_insert_eq |].
  split; [reflexivity |]. split; [reflexivity |].
  intros Hwf. cbn [job_repository.persisted job_model.prompt].
  now apply bool_decide_eq_true in Hwf.
Qed.

End lifecycle_more.

(** * Further properties of the mock queue *)

Section queue_more.
Import js eff ai_processor mock_job_queue task bookkeeping.
Variable config : JobQueueConfig.
Variable aiProcessor : AIProcessorInterface.
Variable fetch : Network.

Lemma remove_first_set (jobId : JsString) (l : list JsString) :
  NoDup l ->
  NoDup (remove_first jobId l)
  /\ (list_to_set (remove_first jobId l) : gset JsString)
     = list_to_set l ∖ {[jobId]}.
Proof.
  induction 1 as [|x l Hx Hl IH]; cbn [remove_first].
  - split; [constructor |].
    apply set_eq. intros y. split; intros Hy.
    + now apply not_elem_of_empty in Hy.
    + now apply elem_of_difference in Hy as [Hy _].
  - case_bool_decide as Heq.
    + subst x. split; [exact Hl |].
      apply set_eq. intros y. rewrite list_to_set_cons.
      rewrite elem_of_difference, elem_of_union, elem_of_singleton,
        !elem_of_list_to_set.
      split; [| tauto]. intros Hy. split; [tauto | congruence].
    + destruct IH as [IH1 IH2]. split.
      * constructor; [| exact IH1]. intros Hin. apply Hx.
        apply (elem_of_list_to_set (C := gset JsString)) in Hin.
        rewrite IH2 in Hin. apply elem_of_difference in Hin as [Hin _].
        now apply elem_of_list_to_set in Hin.
      * rewrite !list_to_set_cons, IH2.
        apply set_eq. intros y.
        rewrite !elem_of_difference, !elem_of_union, elem_of_difference,
          !elem_of_singleton.
        split; [| tauto]. intros [-> | [Hy Hn]]; tauto.
Qed.

(** X13. The bookkeeping of the queue is exact as long as no job is
    enqueued while a task of it still runs and the queue is not shut
    down: a new queue has [pendingJobs] equal to the set of running
    tasks, [enqueue] of a job that is not running keeps it so, and so
    does the end of any task.  [shutdown] breaks it whenever a task
    runs: the set is emptied and the tasks go on. *)
Theorem pendingJobs_tracks_running_tasks (q : MockJobQueue) (jobId : JsString) :
  in_sync new_MockJobQueue
  /\ (in_sync q ->
      (jobId ∉ tasks q -> in_sync (snd (enqueue jobId q)))
      /\ in_sync (snd (settle config aiProcessor fetch jobId q))
      /\ (tasks q <> [] -> ~ in_sync (snd (shutdown q)))).
Proof.
  split; [split; [constructor | reflexivity] |].
  intros [Hnd Hp]. split; [| split].
  - intros Hj. split; cbn [snd enqueue tasks pendingJobs].
    + apply NoDup_app. split; [exact Hnd |]. split.
      * intros x Hx Hin. apply list_elem_of_singleton in Hin. now subst.
      * apply NoDup_singleton.
    + rewrite list_to_set_app_L, Hp. cbn. now rewrite (right_id_L ∅ (∪)).
  - unfold settle.
    destruct (processJob config aiProcessor fetch jobId (trace q)) as [o t].
    destruct (remove_first_set jobId (tasks q) Hnd) as [H1 H2].
    split; cbn [snd tasks pendingJobs]; [exact H1 |]. now rewrite H2, Hp.
  - intros Hne [_ Hs]. cbn [snd shutdown tasks pendingJobs] in Hs.
    destruct (tasks q) as [|x l]; [congruence |].
    assert (Hx : x ∈ (∅ : gset JsString))
      by (rewrite Hs; apply elem_of_list_to_set; left).
    now apply not_elem_of_empty in Hx.
Qed.

(** X14. A job enqueued twice is tracked once.  After two [enqueue]s of
    the same job and the end of one of the two tasks, the job is out of
    [pendingJobs] while its other task still runs, on any queue. *)
Theorem duplicate_enqueue_is_tracked_once (q : MockJobQueue) (jobId : JsString) :
  let q2 := snd (enqueue jobId (snd (enqueue jobId q))) in
  let q3 := snd (settle config aiProcessor fetch jobId q2) in
  jobId ∈ tasks q3 /\ jobId ∉ pendingJobs q3.
Proof.
  cbn zeta. split.
  - unfold settle.
    destruct (processJob config aiProcessor fetch jobId _) as [o t].
    cbn [snd tasks enqueue].
    assert (Hin : forall l : list JsString,
              jobId ∈ remove_first jobId ((l ++ [jobId]) ++ [jobId])).
    { induction l as [|x l IH]; cbn [app remove_first].
      - rewrite bool_decide_eq_true_2 by reflexivity. left.
      - case_bool_decide.
        + apply elem_of_app. right. left.
        + right. exact IH. }
    apply Hin.
  - apply settle_returns.
Qed.

Ltac run_task' :=
  unfold processJob, attempt, report_error, call, emit, eff.try_catch,
    eff.modify, eff.throw, mbind, Eff_bind, eff.bind, mret, Eff_ret, eff.ret;
  cbn beta iota.

(** X15. One task makes one attempt.  Whatever the lookup, the processor
    and the network do, the events a task adds hold exactly one prompt
    lookup, at most one call of the processor and at most two requests,
    and every request goes to the configured endpoint, carries the
    configured secret and names the job; the events before the task are
    kept. *)
Theorem processJob_makes_one_attempt (jobId : JsString) (t : list Event) :
  exists new,
    snd (processJob config aiProcessor fetch jobId t) = t ++ new
    /\ lookups new = [jobId]
    /\ (List.length (processor_calls new) <= 1)%nat
    /\ (List.length (deliveries new) <= 2)%nat
    /\ Forall (addressed config jobId) (deliveries new).
Proof.
  run_task'.
  destruct (promptFetcher config jobId _) as [[[|c p]|]|e1]; cbn beta iota.
  2: destruct (process aiProcessor jobId _ _) as [r|e2]; cbn beta iota.
  2: destruct (fetch (post config (success_report jobId r)) _) as [resp|e3];
       cbn beta iota.
  2: destruct (ok resp); cbn [negb]; cbn beta iota.
  all: try (destruct (fetch (post config (failure_report _ _)) _);
            cbn beta iota).
  all: cbn [snd]; eexists; (split; [rewrite <- !app_assoc; reflexivity |]);
       cbn; repeat split; try lia;
       repeat (constructor; try (repeat split; reflexivity)).
Qed.

End queue_more.

(** * The queue's reports at the callback route *)

Section reports.
Import js eff bson job_model job_schema app job_queue job_controller routes
  lifecycle.
Context {Q : Type} `{JobQueueInterface Q} {cast : ObjectIdCast}.
Variable production : bool.
Variable WEBHOOK_SECRET : JsString.

Lemma serve_callback_pending (amb : Ambient) (b : WebhookCallbackBody)
    (d : WebhookCallbackInput) (w : World Q) (oid : ObjectId) (job : IJob) :
  WEBHOOK_SECRET <> [] ->
  webhookCallbackSchema b = ParseSuccess d ->
  castObjectId (jobId d) = Some oid ->
  docs w !! oid = Some job ->
  status job = PENDING ->
  serve production WEBHOOK_SECRET amb
    (PostWebhookCallback (Some (HeaderString WEBHOOK_SECRET)) b) w
  = ({| statusCode := 200;
        payload :=
          CallbackData (_id job)
            (if truthy_opt (error d) then FAILED else COMPLETED) (now amb) |},
     updated oid (finalized amb (result d) (error d) job) w).
Proof.
  intros Hne Hs Hc Hd Hp. unfold serve. rewrite (secret_passes _ Hne).
  unfold validateBody. rewrite Hs.
  unfold job_controller.webhookCallback, respond, mbind, Eff_bind, eff.bind.
  now rewrite (callback_pending _ _ _ _ _ _ _ Hc Hd Hp).
Qed.

(** X16. The reports that a task builds are accepted by the callback
    route of the application that configured the queue: their secret
    passes and their body is valid.  Applied to a job that is still
    [PENDING], under an identifier that is cast to its ObjectId, the
    completion report answers 200 and stores [COMPLETED] with, as
    [result], the processor's text when that text is not empty; the
    failure report stores [FAILED] with the message as [error] when the
    message is not empty, and when the thrown error has an empty message
    it stores [COMPLETED] with neither [result] nor [error].  The stored
    text has U+FFFD for every surrogate that has no partner, so it is
    the text of the report when that text is well-formed. *)
Theorem queue_reports_are_applied
    (BASE_URL : JsString) (amb : Ambient) (w : World Q)
    (id : JsString) (oid : ObjectId) (job : IJob)
    (r : ai_processor.AIProcessingResult) (e : Thrown) :
  WEBHOOK_SECRET <> [] ->
  id <> [] ->
  castObjectId id = Some oid ->
  docs w !! oid = Some job ->
  status job = PENDING ->
  let config := app_container.queue_config BASE_URL WEBHOOK_SECRET w in
  let deliver := fun b =>
    let request := mock_job_queue.post config b in
    serve production WEBHOOK_SECRET amb
      (PostWebhookCallback
         (Some (HeaderString (mock_job_queue.x_shared_secret request)))
         (mock_job_queue.body request)) w in
  let completed :=
    finalized amb (Some (ai_processor.result r)) None job in
  let failed :=
    finalized amb None (Some (mock_job_queue.error_text e)) job in
  deliver (mock_job_queue.success_report id r)
  = ({| statusCode := 200;
        payload := CallbackData (_id job) COMPLETED (now amb) |},
     updated oid completed w)
  /\ (truthy (ai_processor.result r) = true ->
      job_model.result completed
      = Some (toWellFormed (ai_processor.result r))
      /\ job_model.error completed = None
      /\ (isWellFormed (ai_processor.result r) = true ->
          job_model.result completed = Some (ai_processor.result r)))
  /\ deliver (mock_job_queue.failure_report id e)
     = ({| statusCode := 200;
           payload := CallbackData (_id job) (status failed) (now amb) |},
        updated oid failed w)
  /\ (truthy (mock_job_queue.error_text e) = true ->
      status failed = FAILED
      /\ job_model.result failed = None
      /\ job_model.error failed
         = Some (toWellFormed (mock_job_queue.error_text e))
      /\ (isWellFormed (mock_job_queue.error_text e) = true ->
          job_model.error failed = Some (mock_job_queue.error_text e)))
  /\ (mock_job_queue.error_text e = [] ->
      status failed = COMPLETED
      /\ job_model.result failed = None
      /\ job_model.error failed = None).
Proof.
  intros Hne Hid Hc Hd Hp. cbn zeta.
  cbn [mock_job_queue.post mock_job_queue.x_shared_secret mock_job_queue.body
       app_container.queue_config mock_job_queue.webhookSecret].
  assert (Hs1 : webhookCallbackSchema (mock_job_queue.success_report id r)
                = ParseSuccess
                    {| jobId := id; result := Some (ai_processor.result r);
                       error := None |}).
  { apply webhook_schema_success. cbn. repeat split; auto;
      try (left; discriminate). }
  assert (Hs2 : webhookCallbackSchema (mock_job_queue.failure_report id e)
                = ParseSuccess
                    {| jobId := id; result := None;
                       error := Some (mock_job_queue.error_text e) |}).
  { apply webhook_schema_success. cbn. repeat split; auto;
      try (right; discriminate). }
  split; [| split; [| split; [| split]]].
  - now rewrite (serve_callback_pending amb _ _ w oid job Hne Hs1 Hc Hd Hp).
  - intros Ht. unfold finalized, or_null.
    cbn [job_model.result job_model.error truthy_opt option_map].
    rewrite Ht. cbn [option_map]. repeat split.
    intros Hwf. apply bool_decide_eq_true in Hwf. now rewrite Hwf.
  - now rewrite (serve_callback_pending amb _ _ w oid job Hne Hs2 Hc Hd Hp).
  - intros Ht. unfold finalized, or_null.
    cbn [job_model.result job_model.error job_model.status truthy_opt
         option_map].
    rewrite Ht. cbn [option_map]. repeat split.
    intros Hwf. apply bool_decide_eq_true in Hwf. now rewrite Hwf.
  - intros ->. repeat split.
Qed.

End reports.

(** * The mock processor *)

Section processor.
Import js ai_processor mock_ai_processor.

Lemma promptPreview_length (prompt : JsString) :
  js.length (promptPreview prompt) <= 53.
Proof.
  unfold promptPreview, slice_to.
  destruct (Z.ltb_spec 50 (js.length prompt)); [| lia].
  unfold js.length in *. rewrite length_app, length_take.
  change (List.length (cu "...")) with 3%nat. lia.
Qed.

Lemma slice_last_length (n : nat) (s : JsString) :
  (List.length (slice_last n s) <= n)%nat.
Proof. unfold slice_last. rewrite length_drop. lia. Qed.

Lemma template_at_length (k : Z) :
  0 <= k < 5 -> js.length (template_at k) <= 72.
Proof.
  intros Hk.
  assert (Hc : k = 0 \/ k = 1 \/ k = 2 \/ k = 3 \/ k = 4) by lia.
  destruct Hc as [-> | [-> | [-> | [-> | ->]]]]; vm_compute; discriminate.
Qed.

Lemma slice_last_suffix (n : nat) (s : JsString) :
  take (List.length s - n) s ++ slice_last n s = s
  /\ List.length (slice_last n s) = Nat.min n (List.length s).
Proof.
  unfold slice_last. split; [apply take_drop |].
  rewrite length_drop. lia.
Qed.

(** X17. The mock processor answers every call with a text that is never
    empty and no error.  The text is the drawn template, an empty line,
    the line [[Processed prompt: "..."]] with the preview of the prompt
    between the quotes, and the line [[Job ID: ...]] with the last six
    code units of the job identifier (all of it when it has fewer).  The
    preview is the prompt in full when it has at most 50 code units and
    otherwise its first 50 followed by three dots, so it never exceeds 53
    code units; with the template draw in range the template is one of
    the five and the whole text has at most 166 code units, whatever the
    length of the prompt and of the job identifier.  The prompt tokens
    are the length of the prompt divided by four, rounded up, and the
    completion tokens the same of the text. *)
Theorem mock_process_answer
    (config : RequiredConfig) (d : Draws) (jobId prompt : JsString) :
  let answer := process config d jobId prompt in
  truthy (result answer) = true
  /\ error answer = None
  /\ result answer
     = template_at (templateDraw d) ++ newline ++ newline
         ++ cu "[Processed prompt: " ++ dquote ++ promptPreview prompt
         ++ dquote ++ cu "]" ++ newline
         ++ cu "[Job ID: " ++ slice_last 6 jobId ++ cu "]"
  /\ (exists front, jobId = front ++ slice_last 6 jobId)
  /\ List.length (slice_last 6 jobId) = Nat.min 6 (List.length jobId)
  /\ (js.length prompt <= 50 -> promptPreview prompt = prompt)
  /\ (50 < js.length prompt ->
      promptPreview prompt = take 50 prompt ++ cu "...")
  /\ js.length (promptPreview prompt) <= 53
  /\ (0 <= templateDraw d < 5 ->
      template_at (templateDraw d) ∈ responseTemplates
      /\ js.length (result answer) <= 166)
  /\ (exists n,
        promptTokens (metadata answer) = of_Z n
        /\ 4 * (n - 1) < js.length prompt <= 4 * n)
  /\ exists m,
       completionTokens (metadata answer) = of_Z m
       /\ 4 * (m - 1) < js.length (result answer) <= 4 * m.
Proof.
  cbn zeta. unfold process.
  cbn [result error metadata promptTokens completionTokens].
  split; [| split; [reflexivity | split; [reflexivity |
    split; [| split; [| split; [| split; [| split; [| split; [| split]]]]]]]]].
  - unfold response_text.
    destruct (template_at (templateDraw d)); reflexivity.
  - eexists. symmetry. apply slice_last_suffix.
  - apply slice_last_suffix.
  - intros Hl. unfold promptPreview.
    now destruct (Z.ltb_spec 50 (js.length prompt)); [lia |].
  - intros Hl. unfold promptPreview, slice_to.
    now destruct (Z.ltb_spec 50 (js.length prompt)); [| lia].
  - apply promptPreview_length.
  - intros Hk. split.
    + assert (Hc : templateDraw d = 0 \/ templateDraw d = 1
                   \/ templateDraw d = 2 \/ templateDraw d = 3
                   \/ templateDraw d = 4) by lia.
      destruct Hc as [-> | [-> | [-> | [-> | ->]]]];
        apply list_elem_of_In; cbn -[cu]; tauto.
    + pose proof (template_at_length _ Hk) as Ht.
      pose proof (promptPreview_length prompt) as Hp.
      pose proof (slice_last_length 6 jobId) as Hj.
      unfold response_text, js.length in *.
      rewrite !length_app. cbn [List.length newline dquote].
      change (List.length (cu "[Processed prompt: ")) with 19%nat.
      change (List.length (cu "]")) with 1%nat.
      change (List.length (cu "[Job ID: ")) with 9%nat.
      lia.
  - exists (ceil_div4 (js.length prompt)). split; [reflexivity |].
    unfold ceil_div4.
    pose proof (Z.div_mod (js.length prompt + 3) 4 ltac:(lia)) as Hdm.
    pose proof (Z.mod_pos_bound (js.length prompt + 3) 4 ltac:(lia)) as Hb.
    lia.
  - exists (ceil_div4 (js.length (response_text (templateDraw d) jobId prompt))).
    split; [reflexivity |]. unfold ceil_div4.
    set (n := js.length (response_text (templateDraw d) jobId prompt)).
    pose proof (Z.div_mod (n + 3) 4 ltac:(lia)) as Hdm.
    pose proof (Z.mod_pos_bound (n + 3) 4 ltac:(lia)) as Hb.
    lia.
Qed.

(** X22. The preview can cut a surrogate pair in two.  For a prompt that
    is well-formed and has a pair at code units 50 and 51, the preview
    ends its 50 code units with the first half of the pair, so the text
    of the processor is not well-formed; what the collection stores as
    [result] for its completion report has U+FFFD in that place and is
    not the text of the report. *)
Example preview_can_split_a_surrogate_pair :
  let prompt := repeat 97%N 49 ++ [55357%N; 56832%N] ++ cu "!" in
  let answer :=
    process sample_more.processor sample_more.draws sample.id1 prompt in
  let stored :=
    lifecycle.finalized sample.amb2 (Some (result answer)) None
      sample.job_pending in
  isWellFormed prompt = true
  /\ promptPreview prompt = repeat 97%N 49 ++ [55357%N] ++ cu "..."
  /\ isWellFormed (result answer) = false
  /\ job_model.result stored = Some (toWellFormed (result answer))
  /\ job_model.result stored <> Some (result answer)
  /\ toWellFormed (promptPreview prompt)
     = repeat 97%N 49 ++ [replacement] ++ cu "...".
Proof.
  cbn zeta. repeat split; try (vm_compute; reflexivity).
  vm_compute. discriminate.
Qed.

End processor.

(** * The timer queue *)

Section timer_queue.
Import js eff timer_job_queue timers.

Lemma clear_all_lookup (l : list (JsString * nat)) (timers : gmap nat JsString)
    (h : nat) :
  foldr (fun entry acc => clearTimeout entry.2 acc) timers l !! h
  = if decide (h ∈ l.*2) then None else timers !! h.
Proof.
  induction l as [|[j h'] l IH].
  - cbn. destruct (decide (h ∈ [])) as [Hin|_]; [| reflexivity].
    now apply elem_of_nil in Hin.
  - change (((j, h') :: l).*2) with (h' :: l.*2).
    cbn [foldr snd]. unfold clearTimeout at 1.
    destruct (decide (h' = h)) as [-> | Hne].
    + rewrite lookup_delete_eq.
      destruct (decide (h ∈ h :: l.*2)) as [_|Hn]; [reflexivity |].
      elim Hn. left.
    + rewrite lookup_delete_ne by exact Hne. rewrite IH.
      destruct (decide (h ∈ l.*2)) as [Hi|Hi];
        destruct (decide (h ∈ h' :: l.*2)) as [Hc|Hc]; try reflexivity.
      * elim Hc. now right.
      * apply elem_of_cons in Hc as [-> | Hc]; [congruence | contradiction].
Qed.

Lemma remove_first_elem_of (j x : JsString) (l : list JsString) :
  x ∈ mock_job_queue.remove_first j l -> x ∈ l.
Proof.
  induction l as [|y l IH]; cbn [mock_job_queue.remove_first]; [easy |].
  case_bool_decide.
  - intros Hx. now right.
  - intros Hx. apply elem_of_cons in Hx as [-> | Hx]; [left | right; auto].
Qed.

Lemma remove_first_NoDup (j : JsString) (l : list JsString) :
  NoDup l ->
  NoDup (mock_job_queue.remove_first j l)
  /\ j ∉ mock_job_queue.remove_first j l.
Proof.
  induction 1 as [|y l Hy Hl IH]; cbn [mock_job_queue.remove_first].
  - split; [constructor | apply not_elem_of_nil].
  - case_bool_decide as Heq.
    + subst y. now split.
    + destruct IH as [IH1 IH2]. split.
      * constructor; [| exact IH1]. intros Hin. apply Hy.
        now apply remove_first_elem_of in Hin.
      * intros Hin. apply elem_of_cons in Hin as [-> | Hin]; auto.
Qed.

Lemma reached_handed_out (q : TimerQueue) : reached possible q -> handed_out q.
Proof.
  induction 1 as [| s q Hq IH Hs].
  - intros j h. cbn. now rewrite lookup_empty.
  - destruct s as [j | h | j |]; cbn [step].
    + cbn [enqueue snd]. intros j' h. cbn [pendingTimers next_handle].
      destruct (decide (j = j')) as [<- | Hne].
      * rewrite lookup_insert_eq. intros [= <-]. lia.
      * rewrite lookup_insert_ne by exact Hne. intros Hh.
        pose proof (IH _ _ Hh). lia.
    + unfold fire. destruct (armed q !! h); [| exact IH].
      intros j' h'. cbn [pendingTimers next_handle]. apply IH.
    + unfold finish. intros j' h. cbn [pendingTimers next_handle].
      intros Hl. apply lookup_delete_Some in Hl as [_ Hl]. eauto.
    + cbn [shutdown snd]. intros j' h. cbn [pendingTimers].
      now rewrite lookup_empty.
Qed.

Lemma shutdown_disarms (q : TimerQueue) :
  (forall h j, armed q !! h = Some j -> pendingTimers q !! j = Some h) ->
  armed (snd (shutdown q)) = ∅.
Proof.
  intros Ha. cbn [shutdown snd armed]. apply map_eq. intros h.
  rewrite clear_all_lookup, lookup_empty.
  case_decide as Hin; [reflexivity |].
  destruct (armed q !! h) as [j|] eqn:Hh; [| reflexivity].
  elim Hin. apply list_elem_of_fmap. exists (j, h). split; [reflexivity |].
  apply elem_of_map_to_list. now apply Ha.
Qed.

Lemma reached_recorded (q : TimerQueue) : reached orderly q -> recorded q.
Proof.
  induction 1 as [| s q Hq (Ha & Hc & He) Hs].
  - repeat split; cbn; try (intros ? ?; now rewrite lookup_empty).
    constructor.
  - destruct s as [j | h | j |]; cbn [step orderly] in *.
    + (* enqueue *)
      destruct Hs as [Hfree Hidle].
      cbn [enqueue snd]. repeat split;
        cbn [pendingTimers armed running next_handle].
      * intros h j'. destruct (decide (next_handle q = h)) as [<- | Hne].
        -- rewrite lookup_insert_eq. intros [= <-]. apply lookup_insert_eq.
        -- rewrite lookup_insert_ne by exact Hne. intros Hh.
           pose proof (Ha _ _ Hh) as Hr.
           rewrite lookup_insert_ne by congruence. exact Hr.
      * intros h j'. destruct (decide (next_handle q = h)) as [<- | Hne].
        -- rewrite lookup_insert_eq. now intros [= <-].
        -- rewrite lookup_insert_ne by exact Hne. apply Hc.
      * exact He.
    + (* a timer fires *)
      unfold fire. destruct (armed q !! h) as [j|] eqn:Hh;
        [| repeat split; assumption].
      repeat split; cbn [pendingTimers armed running next_handle].
      * intros h' j' Hl. apply lookup_delete_Some in Hl as [_ Hl]. auto.
      * intros h' j' Hl Hin. apply lookup_delete_Some in Hl as [Hne Hl].
        apply elem_of_app in Hin as [Hin | Hin]; [now apply (Hc _ _ Hl) |].
        apply list_elem_of_singleton in Hin. subst j'.
        pose proof (Ha _ _ Hl) as H1. pose proof (Ha _ _ Hh) as H2.
        congruence.
      * apply NoDup_app. split; [exact He |]. split; [| apply NoDup_singleton].
        intros x Hx Hin. apply list_elem_of_singleton in Hin. subst x.
        now apply (Hc _ _ Hh).
    + (* a job ends *)
      unfold finish. destruct (remove_first_NoDup j (running q) He) as [Hn Hj].
      repeat split; cbn [pendingTimers armed running next_handle].
      * intros h j' Hl. rewrite lookup_delete_ne; [auto |].
        intros <-. now apply (Hc _ _ Hl).
      * intros h j' Hl Hin. apply remove_first_elem_of in Hin.
        now apply (Hc _ _ Hl).
      * exact Hn.
    + (* shutdown *)
      pose proof (shutdown_disarms q Ha) as Hempty.
      repeat split.
      * intros h j. rewrite Hempty, lookup_empty. discriminate.
      * intros h j. rewrite Hempty, lookup_empty. discriminate.
      * exact He.
Qed.

(** X18. On the timer queue, as long as no job is enqueued while the
    queue still records a timer for it or still runs it, [shutdown]
    cancels every job that has not started, whatever timers have fired,
    tasks have ended and shutdowns have been before: afterwards no timer
    is armed, so firing any handle does nothing, and the jobs that
    already run go on. *)
Theorem timer_shutdown_cancels_waiting_jobs (q : TimerQueue) :
  reached orderly q ->
  let q' := snd (shutdown q) in
  fst (shutdown q) = Returned tt
  /\ armed q' = ∅
  /\ pendingTimers q' = ∅
  /\ running q' = running q
  /\ forall timer, fire timer q' = q'.
Proof.
  intros Hq. destruct (reached_recorded q Hq) as (Ha & _).
  cbn zeta.
  pose proof (shutdown_disarms q Ha) as He.
  repeat split; [exact He |].
  intros timer. unfold fire. now rewrite He, lookup_empty.
Qed.

(** X19. On the timer queue a job enqueued twice escapes [shutdown] once:
    the second [enqueue] overwrites the record of the first timer, so
    [shutdown] clears only the second, and the first still fires and
    processes the job. *)
Theorem twice_enqueued_job_escapes_shutdown (q : TimerQueue) (jobId : JsString) :
  reached possible q ->
  let first := next_handle q in
  let q' := snd (shutdown (snd (enqueue jobId (snd (enqueue jobId q))))) in
  armed q' !! first = Some jobId
  /\ armed q' !! S first = None
  /\ running (fire first q') = running q ++ [jobId].
Proof.
  intros Hq. pose proof (reached_handed_out q Hq) as Hb.
  cbn zeta.
  assert (H1 : armed (snd (shutdown (snd (enqueue jobId (snd (enqueue jobId q))))))
               !! next_handle q = Some jobId).
  { cbn [shutdown enqueue snd armed pendingTimers next_handle].
    rewrite clear_all_lookup. case_decide as Hin.
    - apply list_elem_of_fmap in Hin as ([j h] & Heq & Hin).
      cbn in Heq. subst h. apply elem_of_map_to_list in Hin.
      destruct (decide (jobId = j)) as [<- | Hne].
      + rewrite lookup_insert_eq in Hin. injection Hin as Hin. lia.
      + rewrite !lookup_insert_ne in Hin by exact Hne.
        pose proof (Hb _ _ Hin). lia.
    - rewrite lookup_insert_ne by lia. apply lookup_insert_eq. }
  split; [exact H1 |]. split.
  - cbn [shutdown enqueue snd armed pendingTimers next_handle].
    rewrite clear_all_lookup. case_decide as Hin; [reflexivity |].
    elim Hin. apply list_elem_of_fmap. exists (jobId, S (next_handle q)).
    split; [reflexivity |]. apply elem_of_map_to_list, lookup_insert_eq.
  - unfold fire. now rewrite H1.
Qed.

(** X21. The care that X18 asks for is needed.  A job is enqueued, its
    timer fires, the queue is shut down and the job is enqueued again
    while its first task still runs; when that task ends it erases the
    record of the second timer, so a second [shutdown] clears nothing:
    the timer stays armed, fires, and the job is processed after the
    shutdown. *)
Example job_enqueued_while_running_escapes_shutdown :
  let q := foldl (fun q s => step s q) new_TimerQueue
             [Enqueue sample.id1; Fire 0; Shutdown; Enqueue sample.id1;
              Finish sample.id1] in
  reached possible q
  /\ pendingTimers q = ∅
  /\ armed (snd (shutdown q)) !! 1%nat = Some sample.id1
  /\ running (fire 1 (snd (shutdown q))) = [sample.id1].
Proof.
  cbn zeta. split.
  - cbn [foldl].
    apply reached_step; [| apply list_elem_of_In; vm_compute; auto].
    repeat (apply reached_step; [| exact I]). apply reached_new.
  - repeat split; vm_compute; reflexivity.
Qed.

End timer_queue.

(** * The further properties at concrete inputs *)

Lemma terminal_records_stay_terminal_witness :
  app.docs sample.w_completed !! sample.oid1 = Some sample.job_completed
  /\ job_model.terminal (job_model.status sample.job_completed) = true
  /\ (forall id, sample_more.late_report = routes.DeleteJob id ->
        bson.castObjectId (ObjectIdCast := bson.hex_only) id <> Some sample.oid1)
  /\ exists j',
       (app.docs (snd (routes.serve (cast := bson.hex_only) false sample.secret
                         sample.amb3 sample_more.late_report
                         sample.w_completed)))
         !! sample.oid1 = Some j'
       /\ job_model.terminal (job_model.status j') = true
       /\ ((forall id, sample_more.late_report = routes.PostHallucinate id ->
              bson.castObjectId (ObjectIdCast := bson.hex_only) id
              <> Some sample.oid1) ->
           j' = sample.job_completed).
Proof.
  assert (Hd : app.docs sample.w_completed !! sample.oid1
               = Some sample.job_completed) by (vm_compute; reflexivity).
  assert (Hr : forall id, sample_more.late_report = routes.DeleteJob id ->
                 bson.castObjectId (ObjectIdCast := bson.hex_only) id
                 <> Some sample.oid1)
    by (intros id Heq; discriminate Heq).
  split; [exact Hd |]. split; [reflexivity |]. split; [exact Hr |].
  exact (terminal_records_stay_terminal (cast := bson.hex_only) false
           sample.secret sample.amb3
           sample_more.late_report sample.w_completed sample.oid1
           sample.job_completed Hd eq_refl Hr).
Defined.

Lemma reachable_records_are_well_stored_witness :
  lifecycle.reachable (cast := bson.hex_only) false sample.secret
    (fun _ => True) sample.w_completed
  /\ map_Forall store.well_stored (app.docs sample.w_completed).
Proof.
  assert (Hr : lifecycle.reachable (cast := bson.hex_only) false sample.secret
                 (fun _ => True) sample.w_completed).
  { unfold sample.w_completed, sample.w_pending, sample.run.
    apply lifecycle.reach_serve; [apply lifecycle.reach_serve |];
      [apply lifecycle.reach_init | exact I | exact I]. }
  split; [exact Hr |].
  exact (proj1 (reachable_records_are_well_stored false sample.secret
                  sample.w_completed Hr)).
Defined.

Lemma form_submission_is_stored_witness :
  create_job_form.handleSubmit (js.cu " Summarize X ")
  = Some {| job_schema.body_prompt :=
              Some (job_schema.JStr (js.cu "Summarize X")) |}
  /\ fst (routes.serve (cast := bson.hex_only) false sample.secret sample.amb1
            (routes.PostJobs
               {| job_schema.body_prompt :=
                    Some (job_schema.JStr (js.cu "Summarize X")) |})
            sample.w0)
     = {| job_controller.statusCode := 201;
          job_controller.payload :=
            job_controller.CreatedData sample.oid1 (js.cu "Summarize X")
              job_model.PENDING (app.now sample.amb1) |}.
Proof.
  split; [vm_compute; reflexivity |].
  pose proof (form_submission_is_stored (cast := bson.hex_only) false
                sample.secret sample.amb1 (js.cu " Summarize X ") sample.w0)
    as Ht.
  vm_compute in Ht. destruct Ht as [_ Ht].
  specialize (Ht ltac:(easy) eq_refl eq_refl).
  vm_compute. exact (proj1 Ht).
Defined.

Lemma pendingJobs_tracks_running_tasks_witness :
  bookkeeping.in_sync mock_job_queue.new_MockJobQueue
  /\ (sample.id1 ∉ mock_job_queue.tasks mock_job_queue.new_MockJobQueue)
  /\ bookkeeping.in_sync
       (snd (mock_job_queue.enqueue sample.id1 mock_job_queue.new_MockJobQueue)).
Proof.
  destruct (pendingJobs_tracks_running_tasks sample.found sample.answers
              sample.refuses mock_job_queue.new_MockJobQueue sample.id1)
    as [Hnew Hstep].
  assert (Hn : sample.id1 ∉ mock_job_queue.tasks mock_job_queue.new_MockJobQueue)
    by apply not_elem_of_nil.
  split; [exact Hnew |]. split; [exact Hn |].
  exact (proj1 (Hstep Hnew) Hn).
Defined.

Lemma queue_reports_are_applied_witness :
  sample.secret <> []
  /\ sample.id1 <> []
  /\ bson.castObjectId (ObjectIdCast := bson.hex_only) sample.id1
     = Some sample.oid1
  /\ app.docs sample.w_pending !! sample.oid1 = Some sample.job_pending
  /\ job_model.status sample.job_pending = job_model.PENDING
  /\ routes.serve (cast := bson.hex_only) false sample.secret sample.amb2
       (routes.PostWebhookCallback
          (Some (routes.HeaderString sample.secret))
          (mock_job_queue.success_report sample.id1 sample.answer))
       sample.w_pending
     = ({| job_controller.statusCode := 200;
           job_controller.payload :=
             job_controller.CallbackData sample.oid1 job_model.COMPLETED
               (app.now sample.amb2) |},
        lifecycle.updated sample.oid1
          (lifecycle.finalized sample.amb2
             (Some (ai_processor.result sample.answer)) None
             sample.job_pending)
          sample.w_pending).
Proof.
  assert (Hs : sample.secret <> []) by discriminate.
  assert (Hi : sample.id1 <> []) by discriminate.
  assert (Hc : bson.castObjectId (ObjectIdCast := bson.hex_only) sample.id1
               = Some sample.oid1) by (vm_compute; reflexivity).
  assert (Hd : app.docs sample.w_pending !! sample.oid1 = Some sample.job_pending)
    by (vm_compute; reflexivity).
  split; [exact Hs |]. split; [exact Hi |]. split; [exact Hc |].
  split; [exact Hd |]. split; [reflexivity |].
  exact (proj1 (queue_reports_are_applied (cast := bson.hex_only) false
                  sample.secret
                  (js.cu "http://localhost:3001") sample.amb2 sample.w_pending
                  sample.id1 sample.oid1 sample.job_pending sample.answer
                  js.NonError Hs Hi Hc Hd eq_refl)).
Defined.

Lemma mock_process_answer_witness :
  js.length (js.cu "Summarize X") <= 50
  /\ 0 <= mock_ai_processor.templateDraw sample_more.draws < 5
  /\ mock_ai_processor.promptPreview (js.cu "Summarize X") = js.cu "Summarize X"
  /\ js.length
       (ai_processor.result
          (mock_ai_processor.process sample_more.processor sample_more.draws
             sample.id1 (js.cu "Summarize X"))) <= 166.
Proof.
  assert (Hl : js.length (js.cu "Summarize X") <= 50)
    by (vm_compute; discriminate).
  assert (Hk : 0 <= mock_ai_processor.templateDraw sample_more.draws < 5)
    by (cbn; lia).
  destruct (mock_process_answer sample_more.processor sample_more.draws
              sample.id1 (js.cu "Summarize X"))
    as (_ & _ & _ & _ & _ & Hshort & _ & _ & Hbound & _).
  split; [exact Hl |]. split; [exact Hk |].
  split; [exact (Hshort Hl) | exact (proj2 (Hbound Hk))].
Defined.

Lemma timer_shutdown_cancels_waiting_jobs_witness :
  timers.reached timers.orderly sample_more.restarted
  /\ timer_job_queue.armed sample_more.restarted !! 1%nat = Some sample.id1
  /\ timer_job_queue.armed (snd (timer_job_queue.shutdown sample_more.restarted))
     = ∅.
Proof.
  assert (Hr : timers.reached timers.orderly sample_more.restarted).
  { unfold sample_more.restarted. cbn [foldl].
    apply timers.reached_step;
      [| split; [vm_compute; reflexivity | apply not_elem_of_nil]].
    apply timers.reached_step;
      [| apply list_elem_of_In; vm_compute; auto].
    apply timers.reached_step; [| exact I].
    apply timers.reached_step; [| exact I].
    apply timers.reached_step;
      [| split; [reflexivity | apply not_elem_of_nil]].
    apply timers.reached_new. }
  split; [exact Hr |]. split; [vm_compute; reflexivity |].
  destruct (timer_shutdown_cancels_waiting_jobs sample_more.restarted Hr)
    as (_ & He & _).
  exact He.
Defined.

Lemma twice_enqueued_job_escapes_shutdown_witness :
  timers.reached timers.possible timer_job_queue.new_TimerQueue
  /\ timer_job_queue.running
       (timer_job_queue.fire 0
          (snd (timer_job_queue.shutdown
                  (snd (timer_job_queue.enqueue sample.id1
                          (snd (timer_job_queue.enqueue sample.id1
                                  timer_job_queue.new_TimerQueue)))))))
     = [sample.id1].
Proof.
  assert (Hr : timers.reached timers.possible timer_job_queue.new_TimerQueue)
    by apply timers.reached_new.
  split; [exact Hr |].
  destruct (twice_enqueued_job_escapes_shutdown timer_job_queue.new_TimerQueue
              sample.id1 Hr) as (_ & _ & Hf).
  exact Hf.
Defined.
